(** * ICE quiver post-processing: job reconciliation and HQ/LQ classification

    A shallow embedding of
      - [pbtranscript/Utils.py]                      ([nfs_exists], [phred_to_qv])
      - [pbtranscript/ice/IceQuiverPostprocess.py]   (class [IceQuiverPostprocess])
    together with the properties of the job reconciler, the quality
    estimator and the isoform classifier.

    Conventions.
      - Python [int] values are [Z]; Python [float] values are exact
        rationals [Q] (rounding of the floating-point operations is not
        modelled); [str] is [string]; a [list] is a [list].
      - A [dict] is a [gmap]; iteration over a dict visits the entries in
        the order of [map_to_list].  Python leaves that order unspecified
        and no statement below depends on it.
      - A statement that may raise returns a [result]. *)

From Stdlib Require Import ZArith QArith Qround String Ascii List Lia.
From Stdlib Require Import DecimalString DecimalZ DecimalPos.
From stdpp Require Import gmap strings list fin_maps.

Local Open Scope Z_scope.

(** ** Python built-ins *)

Module Py.

(** The exceptions the modelled code can raise. *)
Inductive exception : Type :=
| ValueError          (* wrong field count in a ledger line, bad [int] literal *)
| KeyError            (* [uc[cid]] on a missing key *)
| IndexError          (* [x.split()[0]] on a blank line *)
| UnboundLocalError.  (* a local variable read before any assignment *)

Inductive result (A : Type) : Type :=
| Ok (a : A)
| Raise (e : exception).
Arguments Ok {A} a.
Arguments Raise {A} e.

Definition bind {A B} (m : result A) (k : A -> result B) : result B :=
  match m with
  | Ok a => k a
  | Raise e => Raise e
  end.

(** [for x in xs: st = body(st, x)], stopping at the first exception. *)
Fixpoint for_each {A S} (body : S -> A -> result S) (xs : list A) (st : S)
  : result S :=
  match xs with
  | [] => Ok st
  | x :: rest => bind (body st x) (for_each body rest)
  end.

(** [len(l)] *)
Definition len {A} (l : list A) : Z := Z.of_nat (length l).

(** A slice bound is first made non-negative by adding the length, then
    clamped into [0 .. len]. *)
Definition clamp (n i : Z) : Z :=
  if i <? 0 then Z.max 0 (i + n) else Z.min i n.

(** [l[lo:hi]] *)
Definition slice {A} (l : list A) (lo hi : Z) : list A :=
  let n := len l in
  let a := clamp n lo in
  let b := clamp n hi in
  firstn (Z.to_nat (b - a)) (skipn (Z.to_nat a) l).

(** [sum(l)] on floats: left to right, starting from [0]. *)
Definition sum (l : list Q) : Q := fold_left Qplus l 0%Q.

(** [x in l] for a list of strings. *)
Definition str_in (x : string) (l : list string) : bool :=
  existsb (String.eqb x) l.

(** [x in l] for a list of ints. *)
Definition int_in (x : Z) (l : list Z) : bool :=
  existsb (Z.eqb x) l.

(** [str(n)] and [{n}] in [format], for an int. *)
Definition str (n : Z) : string := NilZero.string_of_int (Z.to_int n).

Definition chars (s : string) : list ascii := list_ascii_of_string s.
Definition of_chars (l : list ascii) : string := string_of_list_ascii l.

(** [s[lo:hi]] *)
Definition str_slice (s : string) (lo hi : Z) : string :=
  of_chars (slice (chars s) lo hi).

(** [s[lo:]] *)
Definition str_from (s : string) (lo : Z) : string :=
  str_slice s lo (len (chars s)).

(** [s.find(c)] for a one-character needle: the first index, or [-1]. *)
Fixpoint find_from (c : ascii) (s : string) (i : Z) : Z :=
  match s with
  | EmptyString => -1
  | String d rest => if Ascii.eqb c d then i else find_from c rest (i + 1)
  end.
Definition find (c : ascii) (s : string) : Z := find_from c s 0.

(** [s.rfind(c)] for a one-character needle: the last index, or [-1]. *)
Fixpoint rfind_from (c : ascii) (s : string) (i last : Z) : Z :=
  match s with
  | EmptyString => last
  | String d rest =>
      rfind_from c rest (i + 1) (if Ascii.eqb c d then i else last)
  end.
Definition rfind (c : ascii) (s : string) : Z := rfind_from c s 0 (-1).

(** [s.startswith(p)] *)
Definition startswith (p s : string) : bool := String.prefix p s.

(** [s.endswith(p)] *)
Definition endswith (p s : string) : bool :=
  let n := String.length s in
  let k := String.length p in
  (k <=? n)%nat && String.eqb (substring (n - k) k s) p.

(** [s.split(c)[0]]: everything before the first [c]. *)
Fixpoint before (c : ascii) (s : string) : string :=
  match s with
  | EmptyString => EmptyString
  | String d rest => if Ascii.eqb c d then EmptyString else String d (before c rest)
  end.

(** [s.split(c)] for a one-character separator. *)
Fixpoint split (c : ascii) (s : string) : list string :=
  match s with
  | EmptyString => [EmptyString]
  | String d rest =>
      if Ascii.eqb c d then EmptyString :: split c rest
      else match split c rest with
           | [] => [String d EmptyString]
           | w :: ws => String d w :: ws
           end
  end.

(** The characters removed by [s.strip()]: space, [\t], [\n], [\v], [\f], [\r]. *)
Definition is_space (c : ascii) : bool :=
  let n := nat_of_ascii c in
  (n =? 32)%nat || ((9 <=? n)%nat && (n <=? 13)%nat).

Fixpoint lstrip (s : string) : string :=
  match s with
  | EmptyString => EmptyString
  | String c rest => if is_space c then lstrip rest else s
  end.

(** [s.strip()] *)
Definition strip (s : string) : string :=
  of_chars (rev (chars (lstrip (of_chars (rev (chars (lstrip s))))))).

(** [s.split()[0]]: the first whitespace-delimited word. *)
Fixpoint word (s : string) : string :=
  match s with
  | EmptyString => EmptyString
  | String c rest => if is_space c then EmptyString else String c (word rest)
  end.
Definition first_word (s : string) : result string :=
  match lstrip s with
  | EmptyString => Raise IndexError
  | w => Ok (word w)
  end.

(** [s.replace(old, new)] for a non-empty [old]: every occurrence, left
    to right, without overlap.  [skip] counts the characters of a match
    still to be dropped. *)
Fixpoint replace_from (old new : string) (skip : nat) (s : string) : string :=
  match s with
  | EmptyString => EmptyString
  | String c rest =>
      match skip with
      | S k => replace_from old new k rest
      | O =>
          if String.prefix old s
          then new +:+ replace_from old new (String.length old - 1) rest
          else String c (replace_from old new O rest)
      end
  end.
Definition replace (old new s : string) : string := replace_from old new O s.

End Py.

Export Py (result, Ok, Raise).

Notation "'let*' x ':=' m 'in' k" := (Py.bind m (fun x => k))
  (at level 10, x pattern, m at level 100, k at level 200).

(** ** Functions of the runtime that the sources call but do not define *)

(** Pure functions from outside the two files: float power, [int] of a
    string, and the name-decoration hook [IceUtils.cid_with_annotation]. *)
Class Externals : Type := {
  (** [x ** y] on floats *)
  py_pow : Q -> Q -> Q;
  (** [int(s)]: raises [ValueError] when [s] is not an integer literal *)
  py_int : string -> result Z;
  (** [pbtools.pbtranscript.ice.IceUtils.cid_with_annotation] *)
  cid_with_annotation : string -> string
}.

(** ** [os.path] *)

Module op.

(** [os.path.join(a, b)] *)
Definition join (a b : string) : string :=
  if Py.startswith "/" b then b
  else if String.eqb a "" || Py.endswith "/" a then a +:+ b
  else a +:+ "/" +:+ b.

(** [os.path.basename(p)]: what follows the last slash. *)
Definition basename (p : string) : string :=
  Py.str_from p (Py.rfind "/" p + 1).

End op.

(** ** [pbtranscript/Utils.py] *)

Module Utils.

(** [phred_to_qv(phred)]: [10 ** -(phred / 10.0)] *)
Definition phred_to_qv `{Externals} (phred : Z) : Q :=
  py_pow 10 (- (inject_Z phred / 10))%Q.

(** *** [nfs_exists] and the file system it probes *)

Inductive open_result : Type :=
| Opened                  (* [open(fn, 'r')] succeeded *)
| IOError (errno : Z).    (* [open(fn, 'r')] raised [IOError] *)

Definition ERROR_NO_SUCH_FILE_OR_DIRECTORY : Z := 2.
Definition ERROR_IS_DIRECTORY : Z := 21.

(** What [nfs_exists] does to the outside world, in order. *)
Inductive event : Type :=
| Backticks (cmd : string)   (* [backticks(cmd)], its output dropped *)
| Open (fn : string)         (* one [open(fn, 'r')] *)
| Sleep (seconds : Z).       (* [sleep(seconds)] *)

Definition is_open (e : event) : bool :=
  match e with Open _ => true | _ => false end.

(** The number of [open] calls in a trace. *)
Definition probes (tr : list event) : nat := length (List.filter is_open tr).

(** A computation that appends to the trace of events. *)
Definition io (A : Type) : Type := list event -> A * list event.

Definition ret {A} (a : A) : io A := fun tr => (a, tr).
Definition seq {A B} (m : io A) (k : A -> io B) : io B :=
  fun tr => let '(a, tr') := m tr in k a tr'.

Section Probing.

(** [file_system fn k]: what the [k]-th [open(fn, 'r')] of a run
    meets (shared storage may change between two attempts). *)
Variable file_system : string -> nat -> open_result.

Definition backticks (cmd : string) : io unit :=
  fun tr => (tt, tr ++ [Backticks cmd]).

Definition open_r (fn : string) : io open_result :=
  fun tr => (file_system fn (probes tr), tr ++ [Open fn]).

Definition sleep (seconds : Z) : io unit :=
  fun tr => (tt, tr ++ [Sleep seconds]).

Definition nfs_exists (fn : string) : io bool :=
  seq (backticks ("ls " +:+ fn)) (fun _ =>
  seq (open_r fn) (fun r =>
  match r with
  | Opened => ret true                      (* fn is an existing file *)
  | IOError errno =>
      if errno =? ERROR_NO_SUCH_FILE_OR_DIRECTORY then
        seq (sleep 15) (fun _ =>
        seq (open_r fn) (fun r2 =>
        match r2 with
        | Opened => ret true                (* a newly detected file *)
        | IOError errno2 =>
            if errno2 =? ERROR_NO_SUCH_FILE_OR_DIRECTORY then ret false
            else if errno2 =? ERROR_IS_DIRECTORY then ret true
            else ret false                  (* falls to the last return *)
        end))
      else if errno =? ERROR_IS_DIRECTORY then ret true
      else ret false                        (* other IOErrors *)
  end)).

(** One call of [nfs_exists], from an empty trace. *)
Definition run_nfs_exists (fn : string) : bool * list event :=
  nfs_exists fn [].

End Probing.

End Utils.

(** ** [pbtranscript/ice/IceQuiverPostprocess.py] *)

Module IceQuiverPostprocess.

(** A record read by [FastqReader]. *)
Record FastqRecord : Type := {
  name : string;
  sequence : string;
  quality : list Z
}.

(** The attributes of [self] read by the modelled methods. *)
Record self_t : Type := {
  root_dir : string;
  quivered_dir : string;
  use_sge : bool;
  quit_if_not_done : bool;
  qv_trim_5 : Z;
  qv_trim_3 : Z;
  hq_quiver_min_accuracy : Q
}.

(** What one pass of the post-processing observes outside the program. *)
Record env : Type := {
  (** the lines of [submitted_quiver_jobs_log] *)
  submitted_quiver_jobs_log : list string;
  (** [os.popen("qstat").read()] *)
  qstat : string;
  (** the shared storage probed by [nfs_exists] *)
  file_system : string -> nat -> Utils.open_result;
  (** [os.stat(fn).st_size] *)
  st_size : string -> Z;
  (** [IceUtils.locally_run_failed_quiver_jobs]: runs the scripts and
      returns those that still have no output *)
  locally_run_failed_quiver_jobs : list string -> list string;
  (** the records [FastqReader(fn)] yields *)
  FastqReader : string -> list FastqRecord;
  (** [load(open(final_pickle_fn))['uc']] *)
  final_pickle_uc : gmap Z (list string);
  (** [load(open(nfl_all_pickle_fn))['partial_uc']] *)
  nfl_all_pickle_partial_uc : gmap Z (list string)
}.

Definition nfs_exists (e : env) (fn : string) : bool :=
  fst (Utils.run_nfs_exists (file_system e) fn).

(** *** [check_quiver_jobs_completion] *)

Inductive status : Type := RUNNING | FAILED | DONE.

Definition status_eqb (a b : status) : bool :=
  match a, b with
  | RUNNING, RUNNING | FAILED, FAILED | DONE, DONE => true
  | _, _ => false
  end.

(** [a, b = line.strip().split('\t')] and the update of [submitted]. *)
Definition read_line (st : gmap string string * bool) (line : string)
  : result (gmap string string * bool) :=
  let '(submitted, sge_used) := st in
  match Py.split "009" (Py.strip line) with
  | [a; b] =>
      if String.eqb a "local" then Ok (<[b := b]> submitted, sge_used)
      else Ok (<[a := b]> submitted, true)
  | _ => Raise Py.ValueError
  end.

(** The loop over the lines of [qstat]: [(running_jids, done_flag)]. *)
Definition read_qstat (submitted : gmap string string)
    (st : list string * bool) (x : string) : result (list string * bool) :=
  let '(running_jids, done_flag) := st in
  let* job_id := Py.first_word x in
  Ok (running_jids ++ [job_id],
      if bool_decide (is_Some (submitted !! job_id)) then false else done_flag).

(** The expected output of a script. *)
Definition fq_of (self : self_t) (sh_name : string) : string :=
  op.join (quivered_dir self)
          (Py.replace ".sh" ".quivered.fq" (op.basename sh_name)).

(** [not nfs_exists(fq_filename) or os.stat(fq_filename).st_size == 0] *)
Definition no_output (e : env) (fq_filename : string) : bool :=
  negb (nfs_exists e fq_filename) || (st_size e fq_filename =? 0).

(** The local variables updated by the loop over [submitted]. *)
Record locals : Type := {
  done_flag : bool;
  bad_sh : list string;
  fq_filenames_ : list string
}.

(** The body of [for job_id, sh_name in submitted.iteritems()];
    [running_jids] is [None] while the name is unbound. *)
Definition check_job (self : self_t) (e : env)
    (running_jids : option (list string))
    (st : locals) (item : string * string) : result locals :=
  let '(job_id, sh_name) := item in
  let fq_filename := fq_of self sh_name in
  if no_output e fq_filename then
    match running_jids with
    | None => Raise Py.UnboundLocalError
    | Some jids =>
        if Py.str_in job_id jids then
          Ok {| done_flag := false; bad_sh := bad_sh st;
                fq_filenames_ := fq_filenames_ st |}
        else
          Ok {| done_flag := done_flag st; bad_sh := bad_sh st ++ [sh_name];
                fq_filenames_ := fq_filenames_ st |}
    end
  else
    Ok {| done_flag := done_flag st; bad_sh := bad_sh st;
          fq_filenames_ := fq_filenames_ st ++ [fq_filename] |}.

(** What a call leaves behind: the returned string, [self.fq_filenames]
    and the calls of [locally_run_failed_quiver_jobs] it made. *)
Record checked : Type := {
  job_stats : status;
  fq_filenames : list string;
  reruns : list (list string)
}.

Definition check_quiver_jobs_completion (self : self_t) (e : env)
  : result checked :=
  let* (submitted, sge_used) :=
    Py.for_each read_line (submitted_quiver_jobs_log e) (∅, false) in
  let* (running_jids, done_flag0) :=
    if sge_used && use_sge self then
      let stuff := Py.split "010" (Py.strip (qstat e)) in
      let* (jids, flag) :=
        Py.for_each (read_qstat submitted) (skipn 2 stuff) ([], true) in
      Ok (Some jids, flag)
    else Ok (None, true) in
  let* st :=
    Py.for_each (check_job self e running_jids) (map_to_list submitted)
      {| done_flag := done_flag0; bad_sh := []; fq_filenames_ := [] |} in
  if negb (done_flag st) then
    if (Py.len (bad_sh st) =? 0) then
      Ok {| job_stats := RUNNING; fq_filenames := fq_filenames_ st;
            reruns := [] |}
    else
      let still_bad_sh := locally_run_failed_quiver_jobs e (bad_sh st) in
      if (0 <? Py.len still_bad_sh) then
        Ok {| job_stats := FAILED; fq_filenames := fq_filenames_ st;
              reruns := [bad_sh st] |}
      else
        Ok {| job_stats := DONE; fq_filenames := fq_filenames_ st;
              reruns := [bad_sh st] |}
  else
    Ok {| job_stats := DONE; fq_filenames := fq_filenames_ st;
          reruns := [] |}.

(** *** The names of the four output files *)

Section Names.
(** [{c}] in [format] for a float, which is [str(c)] *)
Variable float_str : Q -> string.

(** ["{a}_{b}_{c}".format(a=qv_trim_5, b=qv_trim_3, c=hq_quiver_min_accuracy)] *)
Definition a_b_c (self : self_t) : string :=
  Py.str (qv_trim_5 self) +:+ "_" +:+ Py.str (qv_trim_3 self) +:+ "_"
    +:+ float_str (hq_quiver_min_accuracy self).

Definition quivered_good_fa (self : self_t) : string :=
  op.join (root_dir self) ("all_quivered_hq." +:+ a_b_c self +:+ ".fasta").

Definition quivered_good_fq (self : self_t) : string :=
  op.join (root_dir self) ("all_quivered_hq." +:+ a_b_c self +:+ ".fastq").

Definition quivered_bad_fa (self : self_t) : string :=
  op.join (root_dir self) "all_quivered_lq.fasta".

Definition quivered_bad_fq (self : self_t) : string :=
  op.join (root_dir self) "all_quivered_lq.fastq".

End Names.

(** *** [pickup_best_clusters] *)

(** What the four writers received, in order; every record is kept
    together with the cluster id it was written for. *)
Record written : Type := {
  good_fa : list (Z * (string * string));
  bad_fa : list (Z * (string * string));
  good_fq : list (Z * (string * string * list Z));
  bad_fq : list (Z * (string * string * list Z))
}.

Section Classifier.
Context `{Externals}.
Variable self : self_t.

(** Lines 321-327: from [r.name] to the integer cluster id. *)
Definition cluster_id (r_name : string) : result Z :=
  let cid := Py.before "|" r_name in
  let cid := if Py.endswith "_ref" cid then Py.str_slice cid 0 (-4) else cid in
  let i := Py.find "/" cid in
  let cid := if 0 <? i then Py.str_slice cid 0 i else cid in
  py_int (Py.str_from cid 1).

(** [quivered[cid] = r] *)
Definition add_read (quivered : gmap Z FastqRecord) (r : FastqRecord)
  : result (gmap Z FastqRecord) :=
  let* cid := cluster_id (name r) in
  Ok (<[cid := r]> quivered).

(** The loops of lines 317-328 over the files and their records. *)
Definition read_quivered (files : list (list FastqRecord))
  : result (gmap Z FastqRecord) :=
  Py.for_each (fun quivered fq => Py.for_each add_read fq quivered) files ∅.

(** [max(0, len(r.quality) - self.qv_trim_5 - self.qv_trim_3)] *)
Definition qv_len (r : FastqRecord) : Z :=
  Z.max 0 (Py.len (quality r) - qv_trim_5 self - qv_trim_3 self).

(** [sum(q[self.qv_trim_5: -self.qv_trim_3])] with
    [q = [phred_to_qv(x) for x in r.quality]] *)
Definition err_sum (r : FastqRecord) : Q :=
  let q := map Utils.phred_to_qv (quality r) in
  Py.sum (Py.slice q (qv_trim_5 self) (- qv_trim_3 self)).

(** [1.0 - (err_sum / float(qv_len))] *)
Definition accuracy (r : FastqRecord) : Q :=
  (1 - err_sum r / inject_Z (qv_len r))%Q.

(** The body of the loop of lines 332-339 that fills [good]. *)
Definition pick (uc : gmap Z (list string))
    (good : list Z) (item : Z * FastqRecord) : result (list Z) :=
  let '(cid, r) := item in
  if negb (qv_len r =? 0) then
    if Qle_bool (hq_quiver_min_accuracy self) (accuracy r) then
      match uc !! cid with
      | None => Raise Py.KeyError
      | Some fl => if 2 <=? Py.len fl then Ok (good ++ [cid]) else Ok good
      end
    else Ok good
  else Ok good.

(** [partial_uc2[cid]], a [defaultdict] with default [[]]. *)
Definition partial_uc2 (partial_uc : gmap Z (list string)) (cid : Z)
  : list string :=
  default [] (partial_uc !! cid).

(** ["c{cid}/f{flnc_num}p{nfl_num}/{read_len}"] *)
Definition newname_of (cid flnc_num nfl_num read_len : Z) : string :=
  "c" +:+ Py.str cid +:+ "/f" +:+ Py.str flnc_num +:+ "p"
      +:+ Py.str nfl_num +:+ "/" +:+ Py.str read_len.

(** The body of the loop of lines 357-375 that writes the records. *)
Definition write_cluster (uc partial_uc : gmap Z (list string))
    (good : list Z) (w : written) (item : Z * FastqRecord)
  : result written :=
  let '(cid, r) := item in
  match uc !! cid with
  | None => Raise Py.KeyError
  | Some fl =>
      let newname :=
        cid_with_annotation
          (newname_of cid (Py.len fl)
             (Py.len (partial_uc2 partial_uc cid))
             (Z.of_nat (String.length (sequence r)))) in
      if Py.int_in cid good then
        Ok {| good_fa := good_fa w ++ [(cid, (newname, sequence r))];
              bad_fa := bad_fa w;
              good_fq := good_fq w ++ [(cid, (newname, sequence r, quality r))];
              bad_fq := bad_fq w |}
      else
        Ok {| good_fa := good_fa w;
              bad_fa := bad_fa w ++ [(cid, (newname, sequence r))];
              good_fq := good_fq w;
              bad_fq := bad_fq w ++ [(cid, (newname, sequence r, quality r))] |}
  end.

Definition nothing_written : written :=
  {| good_fa := []; bad_fa := []; good_fq := []; bad_fq := [] |}.

(** Classification and writing, from the dict [quivered] on. *)
Definition classify (uc partial_uc : gmap Z (list string))
    (quivered : gmap Z FastqRecord) : result written :=
  let* good := Py.for_each (pick uc) (map_to_list quivered) [] in
  Py.for_each (write_cluster uc partial_uc good)
              (map_to_list quivered) nothing_written.

(** [pickup_best_clusters(fq_filenames)]; the report of
    [write_report] is not part of the model. *)
Definition pickup_best_clusters (e : env) (fq_filenames : list string)
  : result written :=
  let uc := final_pickle_uc e in
  let* quivered := read_quivered (map (FastqReader e) fq_filenames) in
  classify uc (nfl_all_pickle_partial_uc e) quivered.

(** *** [run] *)

(** How [run] ends: a [return] with a code before classification, or
    the records written by [pickup_best_clusters] (the symbolic
    links and the summary made afterwards are not part of the
    model). *)
Inductive finished : Type :=
| Return (code : Z)
| Classified (w : written).

(** The [while job_stats != "DONE"] loop, entered at pass [k]: each
    turn sleeps 180 seconds and reconciles against [world k].  The
    loop has no bound of its own; [fuel] bounds its turns and [None]
    means the fuel ran out. *)
Fixpoint wait (world : nat -> env) (fuel k : nat)
  : option (result (Z + nat * checked)) :=
  match fuel with
  | O => None
  | S fuel' =>
      match check_quiver_jobs_completion self (world k) with
      | Raise e => Some (Raise e)
      | Ok c =>
          match job_stats c with
          | DONE => Some (Ok (inr (k, c)))
          | FAILED => Some (Ok (inl 1))
          | RUNNING =>
              if quit_if_not_done self then Some (Ok (inl 0))
              else wait world fuel' (S k)
          end
      end
  end.

Definition run (world : nat -> env) (fuel : nat)
  : option (result finished) :=
  let classified (k : nat) (c : checked) :=
    let* w := pickup_best_clusters (world k) (fq_filenames c) in
    Ok (Classified w) in
  match check_quiver_jobs_completion self (world O) with
  | Raise e => Some (Raise e)
  | Ok c =>
      if negb (use_sge self) && negb (status_eqb (job_stats c) DONE) then
        Some (Ok (Return (-1)))
      else if use_sge self && negb (status_eqb (job_stats c) DONE) then
        match wait world fuel 1%nat with
        | None => None
        | Some (Raise e) => Some (Raise e)
        | Some (Ok (inl code)) => Some (Ok (Return code))
        | Some (Ok (inr (k, c'))) => Some (classified k c')
        end
      else Some (classified O c)
  end.

End Classifier.

End IceQuiverPostprocess.

(** ** Vocabulary of the specification *)

Module Spec.
Import IceQuiverPostprocess.

(** The cluster ids written to the HQ pair and to the LQ pair. *)
Definition hq_fa_ids (w : written) : list Z := map fst (good_fa w).
Definition hq_fq_ids (w : written) : list Z := map fst (good_fq w).
Definition lq_fa_ids (w : written) : list Z := map fst (bad_fa w).
Definition lq_fq_ids (w : written) : list Z := map fst (bad_fq w).

(** How often [cid] was written to a stream. *)
Definition times (cid : Z) (ids : list Z) : nat :=
  length (List.filter (Z.eqb cid) ids).

(** The trimmed window in the words of the specification: drop the
    first [t5] and the last [t3] bases. *)
Definition window {A} (t5 t3 : Z) (l : list A) : list A :=
  firstn (length l - Z.to_nat t5 - Z.to_nat t3) (skipn (Z.to_nat t5) l).

(** The accuracy in the words of the specification: one minus the sum
    of the error probabilities in the window over the window length. *)
Definition accuracy_spec `{Externals} (self : self_t) (r : FastqRecord) : Q :=
  (1 - Py.sum (map Utils.phred_to_qv
                   (window (qv_trim_5 self) (qv_trim_3 self) (quality r)))
       / inject_Z (Py.len (quality r) - qv_trim_5 self - qv_trim_3 self))%Q.

(** The classification rule, as a test on one entry of [quivered]:
    assessable window, accuracy at least [hq_quiver_min_accuracy], and
    at least two full-length supporters. *)
Definition hq_test `{Externals} (self : self_t) (uc : gmap Z (list string))
    (item : Z * FastqRecord) : bool :=
  negb (qv_len self item.2 =? 0)
  && Qle_bool (hq_quiver_min_accuracy self) (accuracy self item.2)
  && match uc !! item.1 with
     | Some fl => 2 <=? Py.len fl
     | None => false
     end.

(** The last record of [reads] whose name resolves to [cid]. *)
Fixpoint last_read `{Externals} (cid : Z) (reads : list FastqRecord)
  : option FastqRecord :=
  match reads with
  | [] => None
  | r :: rest =>
      match last_read cid rest with
      | Some r' => Some r'
      | None =>
          match cluster_id (name r) with
          | Ok c => if c =? cid then Some r else None
          | Raise _ => None
          end
      end
  end.

(** All the records of the completed files, in reading order. *)
Definition records (e : env) (fq_filenames : list string) : list FastqRecord :=
  concat (map (FastqReader e) fq_filenames).

(** What the loop over [submitted] keeps true: a file is listed only
    if it was found present and non-empty, and a script is marked bad
    only if its output was found missing or empty. *)
Definition probed (self : self_t) (e : env) (st : locals) : Prop :=
  (forall f, In f (fq_filenames_ st) -> no_output e f = false)
  /\ (forall sh, In sh (bad_sh st) -> no_output e (fq_of self sh) = true).

(** The QVPolicy of a run. *)
Definition policy (self : self_t) : Z * Z * Q :=
  (qv_trim_5 self, qv_trim_3 self, hq_quiver_min_accuracy self).

End Spec.

(** ** A concrete runtime for worked examples *)

Module Demo.

(** [x ** y] when [y] is an integer (every other exponent is rounded
    down first, so the examples only use Phred values that are
    multiples of ten). *)
Definition pow (x y : Q) : Q := Qpower x (Qfloor y).

Definition digit (c : ascii) : option Z :=
  let n := Z.of_nat (nat_of_ascii c) in
  if (48 <=? n) && (n <=? 57) then Some (n - 48) else None.

Fixpoint digits (s : string) (acc : Z) : result Z :=
  match s with
  | EmptyString => Ok acc
  | String c rest =>
      match digit c with
      | Some d => digits rest (10 * acc + d)
      | None => Raise Py.ValueError
      end
  end.

(** [int(s)] for a string of decimal digits; anything else is
    rejected. *)
Definition int (s : string) : result Z :=
  match s with
  | EmptyString => Raise Py.ValueError
  | _ => digits s 0
  end.

(** The runtime of the examples: the annotation hook adds nothing. *)
#[export] Instance runtime : Externals :=
  {| py_pow := pow; py_int := int; cid_with_annotation := fun s => s |}.

Import IceQuiverPostprocess.

Definition tab : string := String "009" EmptyString.
Definition newline : string := String "010" EmptyString.

(** A record of [n] bases, all of Phred quality [phred]. *)
Definition read_of (r_name : string) (n : nat) (phred : Z) : FastqRecord :=
  {| name := r_name;
     sequence := Py.of_chars (repeat "A"%char n);
     quality := repeat phred n |}.

(** A run under [root_dir = "out"] with [min_accuracy = 0.99]. *)
Definition self_with (sge : bool) (t5 t3 : Z) : self_t :=
  {| root_dir := "out"; quivered_dir := "out/quivered";
     use_sge := sge; quit_if_not_done := false;
     qv_trim_5 := t5; qv_trim_3 := t3;
     hq_quiver_min_accuracy := 99 # 100 |}.

Definition content (disk : list (string * list FastqRecord)) (fn : string)
  : list FastqRecord :=
  match List.find (fun f => String.eqb fn f.1) disk with
  | Some f => f.2
  | None => []
  end.

(** A pass that sees the files [present], all non-empty, and nothing
    else; [disk] is what the fastq files hold when they are read. *)
Definition pass (ledger : list string) (qstat_out : string)
    (present : list string) (rerun : list string -> list string)
    (disk : list (string * list FastqRecord))
    (uc : list (Z * list string)) : env :=
  {| submitted_quiver_jobs_log := ledger;
     qstat := qstat_out;
     file_system := fun fn _ =>
       if Py.str_in fn present then Utils.Opened
       else Utils.IOError Utils.ERROR_NO_SUCH_FILE_OR_DIRECTORY;
     st_size := fun fn => if Py.str_in fn present then 1 else 0;
     locally_run_failed_quiver_jobs := rerun;
     FastqReader := content disk;
     final_pickle_uc := list_to_map uc;
     nfl_all_pickle_partial_uc := ∅ |}.

(** Classification only: no ledger, the files of [disk] are passed to
    [pickup_best_clusters] directly. *)
Definition library (disk : list (string * list FastqRecord))
    (uc : list (Z * list string)) : env :=
  pass [] "" (map fst disk) (fun _ => []) disk uc.

(** What a successful call wrote. *)
Definition written_by (res : result written) : written :=
  match res with
  | Ok w => w
  | Raise _ => nothing_written
  end.

(** A stand-in for [str] of a float: the fraction as stored. *)
Definition ratio_str (q : Q) : string :=
  Py.str (Qnum q) +:+ "/" +:+ Py.str (Z.pos (Qden q)).

(** The policy of the classification examples: [qv_trim_5 = 2],
    [qv_trim_3 = 1], [min_accuracy = 0.99]. *)
Definition policy_2_1 : self_t := self_with true 2 1.

(** Four polished clusters in two files:
    [c0], six bases at Q30, two full-length supporters;
    [c1], six bases at Q10, three supporters;
    [c2], three bases at Q30, four supporters;
    [c3], six bases at Q30, one supporter. *)
Definition c0 : FastqRecord := read_of "c0/0_6|quiver" 6 30.
Definition c1 : FastqRecord := read_of "c1/0_6|quiver" 6 10.
Definition c2 : FastqRecord := read_of "c2/0_3|quiver" 3 30.
Definition c3 : FastqRecord := read_of "c3/0_6|quiver" 6 30.
Definition polished : env :=
  library [("c0to1.quivered.fq", [c0; c1]); ("c2to3.quivered.fq", [c2; c3])]
          [(0, ["m1"; "m2"]); (1, ["m3"; "m4"; "m5"]);
           (2, ["m6"; "m7"; "m8"; "m9"]); (3, ["m10"])].
Definition polished_fqs : list string :=
  ["c0to1.quivered.fq"; "c2to3.quivered.fq"].
Definition polished_written : written :=
  written_by (pickup_best_clusters policy_2_1 polished polished_fqs).

(** The same cluster [c5] polished in two files: at Q30 in the first,
    at Q10 in the second. *)
Definition c5_q30 : FastqRecord := read_of "c5/0_6|quiver" 6 30.
Definition c5_q10 : FastqRecord := read_of "c5/0_6|quiver" 6 10.
Definition twice_c5 : env :=
  library [("c0to9.quivered.fq", [c5_q30]); ("c10to19.quivered.fq", [c5_q10])]
          [(5, ["m1"; "m2"])].
Definition twice_c5_fqs : list string :=
  ["c0to9.quivered.fq"; "c10to19.quivered.fq"].

(** Two bases at Q10, nothing trimmed. *)
Definition policy_0_0 : self_t := self_with true 0 0.
Definition c7 : FastqRecord := read_of "c7/0_2|quiver" 2 10.
Definition untrimmed : env :=
  library [("c0to9.quivered.fq", [c7])] [(7, ["m1"; "m2"])].

(** *** Ledgers *)

Definition ledger_line (job_id sh_name : string) : string :=
  job_id +:+ tab +:+ sh_name +:+ newline.

(** Scenario E: one job sent to the scheduler, no longer listed by
    [qstat], its output absent. *)
Definition scenario_E (rerun : list string -> list string) : env :=
  pass [ledger_line "8841" "out/quivered/c0to9.sh"] "" [] rerun [] [].

(** One job run locally, its output absent. *)
Definition local_only : env :=
  pass [ledger_line "local" "out/quivered/c0to9.sh"] "" []
       (fun _ => []) [] [].

(** Three jobs: 8841 has written its output; 8842 has ended without
    output and its local rerun succeeds; 8843 is still listed by
    [qstat]. *)
Definition qstat_8843 : string :=
  "job-ID  prior   name       user  state" +:+ newline
  +:+ "----------------------------------------" +:+ newline
  +:+ "   8843 0.55500 c20to29.sh tofu  r" +:+ newline.
Definition rerun_pass : env :=
  pass [ledger_line "8841" "out/quivered/c0to9.sh";
        ledger_line "8842" "out/quivered/c10to19.sh";
        ledger_line "8843" "out/quivered/c20to29.sh"]
       qstat_8843
       ["out/quivered/c0to9.quivered.fq"]
       (fun _ => [])
       [("out/quivered/c0to9.quivered.fq", [c0; c1]);
        ("out/quivered/c10to19.quivered.fq", [c5_q30])]
       [(0, ["m1"; "m2"]); (1, ["m3"; "m4"; "m5"]); (5, ["m1"; "m2"])].
Definition rerun_written : written :=
  written_by (pickup_best_clusters policy_2_1 rerun_pass
                ["out/quivered/c0to9.quivered.fq"]).

End Demo.

Module DemoA.
Import IceQuiverPostprocess Demo.

(** A ledger whose second line has no tab. *)
Definition broken_ledger : env :=
  pass [ledger_line "8841" "out/quivered/c0to9.sh"; "8842 out/quivered/c10to19.sh"]
       "" [] (fun _ => []) [] [].

(** The pass of [rerun_pass] when the local rerun leaves its scripts
    without output. *)
Definition failing_pass : env :=
  pass (submitted_quiver_jobs_log rerun_pass) qstat_8843
       ["out/quivered/c0to9.quivered.fq"] (fun bad => bad)
       [("out/quivered/c0to9.quivered.fq", [c0; c1])]
       [(0, ["m1"; "m2"]); (1, ["m3"; "m4"; "m5"])].

(** A pass in which job 8843 is still listed and nothing else is
    missing. *)
Definition running_pass : env :=
  pass [ledger_line "8841" "out/quivered/c0to9.sh";
        ledger_line "8843" "out/quivered/c20to29.sh"]
       qstat_8843
       ["out/quivered/c0to9.quivered.fq"] (fun _ => [])
       [("out/quivered/c0to9.quivered.fq", [c0; c1])]
       [(0, ["m1"; "m2"]); (1, ["m3"; "m4"; "m5"])].

(** The same two jobs once both have written their output and left the
    queue. *)
Definition finished_pass : env :=
  pass [ledger_line "8841" "out/quivered/c0to9.sh";
        ledger_line "8843" "out/quivered/c20to29.sh"]
       ""
       ["out/quivered/c0to9.quivered.fq"; "out/quivered/c20to29.quivered.fq"]
       (fun _ => [])
       [("out/quivered/c0to9.quivered.fq", [c0; c1]);
        ("out/quivered/c20to29.quivered.fq", [c2; c3])]
       [(0, ["m1"; "m2"]); (1, ["m3"; "m4"; "m5"]);
        (2, ["m6"; "m7"; "m8"; "m9"]); (3, ["m10"])].

(** Two passes with a job still running, then the finished one. *)
Definition three_passes (k : nat) : env :=
  match k with
  | O | S O => running_pass
  | _ => finished_pass
  end.

(** A failed pass followed by finished ones. *)
Definition failed_then_finished (k : nat) : env :=
  match k with
  | O => failing_pass
  | _ => finished_pass
  end.

(** The policy [policy_2_1] with the flag [quit_if_not_done] set. *)
Definition quitting : self_t :=
  {| root_dir := "out"; quivered_dir := "out/quivered";
     use_sge := true; quit_if_not_done := true;
     qv_trim_5 := 2; qv_trim_3 := 1;
     hq_quiver_min_accuracy := 99 # 100 |}.

(** A file with a record of cluster 1 and a [uc] without the key 1. *)
Definition unknown_cluster : env :=
  library [("c0to1.quivered.fq", [c0; c1])] [(0, ["m1"; "m2"])].

(** A record whose name has no number after its first character. *)
Definition cX : FastqRecord := read_of "cX/0_6|quiver" 6 30.
Definition misnamed : env :=
  library [("c0to1.quivered.fq", [c0; cX])] [(0, ["m1"; "m2"])].

End DemoA.

Module SpecMore.
Import IceQuiverPostprocess.

(** A fastq entry without its quality values. *)
Definition fasta_of (x : Z * (string * string * list Z)) : Z * (string * string) :=
  (x.1, (x.2.1.1, x.2.1.2)).

(** A run with another accuracy threshold and nothing else changed. *)
Definition with_min_accuracy (self : self_t) (c : Q) : self_t :=
  {| root_dir := root_dir self; quivered_dir := quivered_dir self;
     use_sge := use_sge self; quit_if_not_done := quit_if_not_done self;
     qv_trim_5 := qv_trim_5 self; qv_trim_3 := qv_trim_3 self;
     hq_quiver_min_accuracy := c |}.

End SpecMore.
(** ** The other functions of [pbtranscript/Utils.py] *)

Module UtilsRest.

(** Exceptions beyond those of [Py.exception]. *)
Inductive exn : Type :=
| Builtin (e : Py.exception)
| ZeroDivisionError
| Exception (message : string).

Inductive outcome (A : Type) : Type :=
| Fine (a : A)
| Throw (x : exn).
Arguments Fine {A} a.
Arguments Throw {A} x.

(** [s.rstrip()] *)
Definition rstrip (s : string) : string :=
  Py.of_chars (rev (Py.chars (Py.lstrip (Py.of_chars (rev (Py.chars s)))))).

(** *** [revcmp] *)

(** [NTMAP[x]], [None] on a missing key. *)
Definition NTMAP (x : ascii) : option ascii :=
  (if Ascii.eqb x "a" then Some "t"
  else if Ascii.eqb x "c" then Some "g"
  else if Ascii.eqb x "t" then Some "a"
  else if Ascii.eqb x "g" then Some "c"
  else if Ascii.eqb x "A" then Some "T"
  else if Ascii.eqb x "C" then Some "G"
  else if Ascii.eqb x "T" then Some "A"
  else if Ascii.eqb x "G" then Some "C"
  else if Ascii.eqb x "*" then Some "*"
  else if Ascii.eqb x "n" then Some "n"
   else if Ascii.eqb x "N" then Some "N"
   else None)%char.

(** [[NTMAP[x] for x in l]] *)
Fixpoint complement (l : list ascii) : result (list ascii) :=
  match l with
  | [] => Ok []
  | x :: rest =>
      match NTMAP x with
      | None => Raise Py.KeyError
      | Some y => let* ys := complement rest in Ok (y :: ys)
      end
  end.

(** ["".join([NTMAP[x] for x in seq.rstrip()])[::-1]] *)
Definition revcmp (seq : string) : result string :=
  let* l := complement (Py.chars (rstrip seq)) in
  Ok (Py.of_chars (rev l)).

(** *** [check_ids_unique] *)

(** The loop over the ids [r.id] of the records of the reader. *)
Fixpoint check_ids (ids : list string) (seen : gset string) : outcome unit :=
  match ids with
  | [] => Fine tt
  | r_id :: rest =>
      if bool_decide (r_id ∈ seen)
      then Throw (Exception ("Duplicate id " +:+ r_id +:+ " detected. Abort!"))
      else check_ids rest ({[ r_id ]} ∪ seen)
  end.

(** [check_ids_unique], on the ids of the records that [FastaReader]
    or [FastqReader] yields. *)
Definition check_ids_unique (ids : list string) : outcome unit :=
  check_ids ids ∅.

(** *** [generateChunkedFN] *)

(** [xrange(0, n)] *)
Definition xrange (n : Z) : list Z := map Z.of_nat (seq 0 (Z.to_nat n)).

Definition generateChunkedFN (out_dir prefix : string) (num_chunks : Z)
  : list string :=
  map (fun i => op.join out_dir (prefix +:+ "." +:+ Py.str i)) (xrange num_chunks).

(** *** [CIGAR] *)

Record CIGAR : Type := {
  cigar_str : string;
  num_match : Z;
  num_mismatch : Z;
  num_insert : Z;
  num_deletion : Z;
  num_hardclip : Z;
  num_softclip : Z;
  num_padding : Z;
  num_unknown : Z
}.

(** The object as [__init__] leaves it before [parse]. *)
Definition fresh (s : string) : CIGAR :=
  {| cigar_str := s; num_match := 0; num_mismatch := 0; num_insert := 0;
     num_deletion := 0; num_hardclip := 0; num_softclip := 0;
     num_padding := 0; num_unknown := 0 |}.

(** [c.isdigit()] for one character. *)
Definition isdigit (c : ascii) : bool :=
  let n := nat_of_ascii c in (48 <=? n)%nat && (n <=? 57)%nat.

(** The inner loop [while s[i].isdigit() and i < len(s): i += 1], on
    what is left of [s] from [i] on: it returns how far [i] moves, and
    [s[i]] raises [IndexError] when the digits reach the end. *)
Fixpoint scan_digits (rest : string) : result nat :=
  match rest with
  | EmptyString => Raise Py.IndexError
  | String c rest' =>
      if isdigit c then let* i := scan_digits rest' in Ok (S i) else Ok O
  end.

(** [int(t)] for a string [t] of decimal digits; [int('')] raises
    [ValueError]. *)
Definition int_of_digits (t : string) : result Z :=
  match t with
  | EmptyString => Raise Py.ValueError
  | _ =>
      match NilEmpty.uint_of_string t with
      | Some d => Ok (Z.of_uint d)
      | None => Raise Py.ValueError
      end
  end.

(** The chain of [if action == ...] that adds [num] to one counter. *)
Definition count (c : CIGAR) (action : ascii) (num : Z) : result CIGAR :=
  let set m x i d h s p n :=
    {| cigar_str := cigar_str c; num_match := m; num_mismatch := x;
       num_insert := i; num_deletion := d; num_hardclip := h;
       num_softclip := s; num_padding := p; num_unknown := n |} in
  let m := num_match c in let x := num_mismatch c in
  let i := num_insert c in let d := num_deletion c in
  let h := num_hardclip c in let s := num_softclip c in
  let p := num_padding c in let n := num_unknown c in
  (if Ascii.eqb action "M" then Ok (set (m + num) x i d h s p n)
   else if Ascii.eqb action "X" then Ok (set m (x + num) i d h s p n)
   else if Ascii.eqb action "I" then Ok (set m x (i + num) d h s p n)
   else if Ascii.eqb action "D" then Ok (set m x i (d + num) h s p n)
   else if Ascii.eqb action "H" then Ok (set m x i d (h + num) s p n)
   else if Ascii.eqb action "S" then Ok (set m x i d h (s + num) p n)
   else if Ascii.eqb action "P" then Ok (set m x i d h s (p + num) n)
   else if Ascii.eqb action "N" then Ok (set m x i d h s p (n + num))
   else Raise Py.ValueError)%char.

(** The loop [while len(s) > 0]; [fuel] bounds its turns and [None]
    means the fuel ran out. *)
Fixpoint parse_loop (fuel : nat) (s : string) (c : CIGAR) : option (result CIGAR) :=
  match s with
  | EmptyString => Some (Ok c)
  | _ =>
      match fuel with
      | O => None
      | S fuel' =>
          match scan_digits s with
          | Raise ex => Some (Raise ex)
          | Ok i =>
              match int_of_digits (substring 0 i s) with
              | Raise ex => Some (Raise ex)
              | Ok num =>
                  match String.get i s with
                  | None => Some (Raise Py.IndexError)
                  | Some action =>
                      match count c action num with
                      | Raise ex => Some (Raise ex)
                      | Ok c' =>
                          parse_loop fuel'
                            (substring (S i) (String.length s - S i) s) c'
                      end
                  end
              end
          end
      end
  end.

(** [CIGAR(cigar_str)]: [__init__] followed by [parse]; every turn of
    the loop shortens [s], so its length is fuel enough. *)
Definition parse (s : string) : option (result CIGAR) :=
  if String.eqb s "*" || String.eqb s "=" then Some (Ok (fresh s))
  else parse_loop (String.length s) s (fresh s).

(** [match_seq] *)
Definition match_seq (c : CIGAR) (seq : string) : bool :=
  String.eqb (cigar_str c) "*" || String.eqb (cigar_str c) "="
  || (num_match c + num_insert c + num_softclip c
      =? Z.of_nat (String.length seq)).

End UtilsRest.

(** Vocabulary for the properties of [CIGAR]. *)
Module CigarSpec.
Import UtilsRest.

(** The letters [parse] knows. *)
Definition is_action (a : ascii) : bool :=
  existsb (Ascii.eqb a) (Py.chars "MXIDHSPN").

(** A CIGAR string written from its operations, each a count and a
    letter. *)
Fixpoint render (ops : list (Z * ascii)) : string :=
  match ops with
  | [] => EmptyString
  | (num, action) :: rest => Py.str num +:+ String action (render rest)
  end.

(** The sum of the counts of the operations with letter [a]. *)
Fixpoint total (a : ascii) (ops : list (Z * ascii)) : Z :=
  match ops with
  | [] => 0
  | (num, action) :: rest =>
      (if Ascii.eqb action a then num else 0) + total a rest
  end.

(** The counters of [c] with the operations [ops] added. *)
Definition plus (c : CIGAR) (ops : list (Z * ascii)) : CIGAR :=
  {| cigar_str := cigar_str c;
     num_match := num_match c + total "M" ops;
     num_mismatch := num_mismatch c + total "X" ops;
     num_insert := num_insert c + total "I" ops;
     num_deletion := num_deletion c + total "D" ops;
     num_hardclip := num_hardclip c + total "H" ops;
     num_softclip := num_softclip c + total "S" ops;
     num_padding := num_padding c + total "P" ops;
     num_unknown := num_unknown c + total "N" ops |}.

(** The operations that [render] writes for [parse] to read back: no
    negative count, letters that [parse] knows. *)
Definition well_formed (ops : list (Z * ascii)) : Prop :=
  forall num a, In (num, a) ops -> 0 <= num /\ is_action a = true.

End CigarSpec.

(** ** [pbtranscript/io/FastqSplitter.py] *)

Module FastqSplitter.
Import UtilsRest.

(** The attributes of [self] read by [_out_fn] and [split]. *)
Record self_t : Type := {
  out_dir : string;
  reads_per_split : Z;
  out_prefix : string
}.

(** ["0" * k] *)
Fixpoint zeros (k : nat) : string :=
  match k with
  | O => EmptyString
  | S k' => String "0" (zeros k')
  end.

(** ["{idx:03d}".format(idx=idx)]: the sign, then zeros up to three
    characters in all, then the digits. *)
Definition format_03d (idx : Z) : string :=
  let digits := Py.str (Z.abs idx) in
  let sign := if idx <? 0 then "-" else EmptyString in
  sign +:+ zeros (3 - String.length sign - String.length digits) +:+ digits.

(** The path that [_out_fn] builds once the index has passed its test. *)
Definition name_of (self : self_t) (split_index : Z) : string :=
  op.join (out_dir self)
          (out_prefix self +:+ "_" +:+ format_03d split_index +:+ ".fastq").

Definition _out_fn (self : self_t) (split_index : Z) : outcome string :=
  if 999 <? split_index then Throw (Builtin Py.ValueError)
  else Fine (name_of self split_index).

Section Split.
Context {R : Type}.

(** The local state of [split]: the files closed so far, in the order
    in which they were opened, and the file [writer] has open, each
    with the records written to it. *)
Record state : Type := {
  split_index : Z;
  out_fns : list string;
  closed : list (string * list R);
  writer : string * list R
}.

(** The test that opens a new file before record [ridx] is written.
    [and] and [or] evaluate from the left and stop early, so the
    remainder is computed only when [split_index > 0]. *)
Definition starts_new_file (self : self_t) (first_split split_index ridx : Z)
  : outcome bool :=
  match
    (if (split_index =? 0) && (ridx =? first_split) then Fine true
     else if 0 <? split_index then
            if reads_per_split self =? 0 then Throw ZeroDivisionError
            else Fine (ridx mod reads_per_split self =? 0)
          else Fine false)
  with
  | Throw x => Throw x
  | Fine b => Fine (b && negb (ridx =? 0))
  end.

(** [writer.writeRecord(r.name, r.sequence, r.quality)] *)
Definition writeRecord (r : R) (st : state) : state :=
  {| split_index := split_index st; out_fns := out_fns st;
     closed := closed st;
     writer := (fst (writer st), snd (writer st) ++ [r]) |}.

(** One turn of [for ridx, r in enumerate(reader)]. *)
Definition split_step (self : self_t) (first_split : Z) (st : state)
           (ridx : Z) (r : R) : outcome state :=
  match starts_new_file self first_split (split_index st) ridx with
  | Throw x => Throw x
  | Fine false => Fine (writeRecord r st)
  | Fine true =>
      let split_index' := split_index st + 1 in
      let closed' := closed st ++ [writer st] in
      match _out_fn self split_index' with
      | Throw x => Throw x
      | Fine fn =>
          Fine (writeRecord r
                  {| split_index := split_index'; out_fns := out_fns st ++ [fn];
                     closed := closed'; writer := (fn, []) |})
      end
  end.

Fixpoint split_loop (self : self_t) (first_split : Z) (ridx : Z)
         (reads : list R) (st : state) : outcome state :=
  match reads with
  | [] => Fine st
  | r :: rest =>
      match split_step self first_split st ridx r with
      | Throw x => Throw x
      | Fine st' => split_loop self first_split (ridx + 1) rest st'
      end
  end.

(** [split], on the records that [FastqReader] yields: the names
    returned and the files written, in the order in which they were
    opened. *)
Definition split (self : self_t) (first_split : option Z) (reads : list R)
  : outcome (list string * list (string * list R)) :=
  match _out_fn self 0 with
  | Throw x => Throw x
  | Fine fn =>
      let first_split :=
        match first_split with
        | None => reads_per_split self
        | Some f => f
        end in
      match split_loop self first_split 0 reads
              {| split_index := 0; out_fns := [fn]; closed := [];
                 writer := (fn, []) |} with
      | Throw x => Throw x
      | Fine st => Fine (out_fns st, closed st ++ [writer st])
      end
  end.

(** [splitFastq] *)
Definition splitFastq (reads : list R) (reads_per_split : Z)
           (out_dir out_prefix : string) (first_split : option Z)
  : outcome (list string * list (string * list R)) :=
  split {| out_dir := out_dir; reads_per_split := reads_per_split;
           out_prefix := out_prefix |} first_split reads.

End Split.

End FastqSplitter.

(** Vocabulary for the properties of [FastqSplitter]. *)
Module SplitSpec.
Import UtilsRest FastqSplitter.

(** The number of the file that holds record [ridx], when the first
    file takes [first_split] records and a new file starts at every
    multiple of [n] after that. *)
Definition file_index (first_split n ridx : Z) : Z :=
  if (first_split <=? 0) || (ridx <? first_split) then 0
  else 1 + ridx / n - first_split / n.

(** [enumerate(l)] *)
Definition enumerate {R} (l : list R) : list (Z * R) :=
  combine (xrange (Py.len l)) l.

(** The records of [reads] whose number [index] sends to file [k]. *)
Definition bucket {R} (index : Z -> Z) (k : Z) (reads : list R) : list R :=
  map snd (List.filter (fun p => index (fst p) =? k) (enumerate reads)).

(** The number of the last file. *)
Definition last_index {R} (index : Z -> Z) (reads : list R) : Z :=
  match reads with
  | [] => 0
  | _ => index (Py.len reads - 1)
  end.

(** The files [0 .. last], each with its records. *)
Definition files {R} (self : self_t) (index : Z -> Z) (reads : list R)
  : list (string * list R) :=
  map (fun k => (name_of self k, bucket index k reads))
      (xrange (last_index index reads + 1)).

(** The local state of [split] once the records [prefix] are written,
    when [index] numbers the files. *)
Definition state_of {R} (self : self_t) (index : Z -> Z) (prefix : list R)
  : @state R :=
  let k := last_index index prefix in
  {| split_index := k;
     out_fns := map (name_of self) (xrange (k + 1));
     closed := map (fun j => (name_of self j, bucket index j prefix)) (xrange k);
     writer := (name_of self k, bucket index k prefix) |}.

(** What holds of the local state of [split] once the records
    [prefix] are written, whatever the parameters. *)
Definition consistent {R} (self : self_t) (prefix : list R) (st : @state R)
  : Prop :=
  map fst (closed st ++ [writer st]) = out_fns st
  /\ concat (map snd (closed st ++ [writer st])) = prefix
  /\ out_fns st = map (name_of self) (xrange (split_index st + 1))
  /\ 0 <= split_index st <= 999
  /\ Forall (fun c => snd c <> []) (closed st)
  /\ (prefix <> [] -> snd (writer st) <> []).

End SplitSpec.

Module DemoF.
Import UtilsRest FastqSplitter.

Definition by_two : self_t :=
  {| out_dir := "out"; reads_per_split := 2; out_prefix := "chunk" |}.

Definition by_zero : self_t :=
  {| out_dir := "out"; reads_per_split := 0; out_prefix := "chunk" |}.

Definition five : list string := ["r0"; "r1"; "r2"; "r3"; "r4"].

(** The operations of the CIGAR string ["10M2I3S"]. *)
Definition ops_10M2I3S : list (Z * ascii) :=
  [(10, "M"); (2, "I"); (3, "S")]%char.

End DemoF.

(** * Properties *)

(** ** Loops *)

Section ForEach.
Context {A S : Type}.
Variable body : S -> A -> result S.

Lemma for_each_app (xs ys : list A) (st : S) :
  Py.for_each body (xs ++ ys) st =
  Py.bind (Py.for_each body xs st) (Py.for_each body ys).
Proof.
  revert st. induction xs as [|x xs IH]; intros st; cbn; [reflexivity|].
  destruct (body st x) as [st'|e]; cbn; [apply IH | reflexivity].
Qed.

(** A property kept by every successful turn holds when the loop ends. *)
Lemma for_each_invariant (P : S -> Prop) (xs : list A) (st0 st : S) :
  (forall s x s', In x xs -> P s -> body s x = Ok s' -> P s') ->
  P st0 -> Py.for_each body xs st0 = Ok st -> P st.
Proof.
  revert st0. induction xs as [|x xs IH]; intros st0 Hstep H0 Hrun; cbn in Hrun.
  - now inversion Hrun; subst.
  - destruct (body st0 x) as [st1|e] eqn:E; cbn in Hrun; [|discriminate].
    apply (IH st1); [| |exact Hrun].
    + intros s y s' Hy. apply Hstep. now right.
    + apply (Hstep st0 x st1); [now left|assumption|assumption].
Qed.

(** A loop whose turns all succeed succeeds. *)
Lemma for_each_total (xs : list A) (st0 : S) :
  (forall s x, In x xs -> exists s', body s x = Ok s') ->
  exists st, Py.for_each body xs st0 = Ok st.
Proof.
  revert st0. induction xs as [|x xs IH]; intros st0 Hok; cbn.
  - now exists st0.
  - destruct (Hok st0 x) as [s' Hs']; [now left|]. rewrite Hs'. cbn.
    apply IH. intros s y Hy. apply Hok. now right.
Qed.

End ForEach.

Lemma for_each_concat {A S} (body : S -> A -> result S)
    (xss : list (list A)) (st : S) :
  Py.for_each (fun s xs => Py.for_each body xs s) xss st =
  Py.for_each body (concat xss) st.
Proof.
  revert st. induction xss as [|xs xss IH]; intros st; cbn; [reflexivity|].
  rewrite for_each_app. destruct (Py.for_each body xs st); cbn; [apply IH|reflexivity].
Qed.

Lemma int_in_spec (x : Z) (l : list Z) : Py.int_in x l = true <-> In x l.
Proof.
  unfold Py.int_in. rewrite existsb_exists. split.
  - intros [y [Hy Heq]]. apply Z.eqb_eq in Heq. now subst.
  - intros Hx. exists x. split; [assumption|apply Z.eqb_refl].
Qed.


(** ** The existence probe *)

Section NfsExists.
Import Utils.
Variable fs : string -> nat -> open_result.
Variable fn : string.

Let ls := Backticks ("ls " +:+ fn).

Lemma nfs_exists_first_probe :
  fs fn 0%nat <> IOError ERROR_NO_SUCH_FILE_OR_DIRECTORY ->
  run_nfs_exists fs fn =
    (match fs fn 0%nat with
     | Opened => true
     | IOError errno => errno =? ERROR_IS_DIRECTORY
     end, [ls; Open fn]).
Proof.
  intros Hne. unfold run_nfs_exists, nfs_exists, seq, backticks, open_r, ret.
  cbn. destruct (fs fn 0%nat) as [|errno]; [reflexivity|].
  destruct (Z.eqb_spec errno ERROR_NO_SUCH_FILE_OR_DIRECTORY) as [->|_].
  - now destruct Hne.
  - now destruct (errno =? ERROR_IS_DIRECTORY).
Qed.

Lemma nfs_exists_second_probe :
  fs fn 0%nat = IOError ERROR_NO_SUCH_FILE_OR_DIRECTORY ->
  run_nfs_exists fs fn =
    (match fs fn 1%nat with
     | Opened => true
     | IOError errno2 => errno2 =? ERROR_IS_DIRECTORY
     end, [ls; Open fn; Sleep 15; Open fn]).
Proof.
  intros H0. unfold run_nfs_exists, nfs_exists, seq, backticks, open_r, sleep, ret.
  cbn. rewrite H0. cbn.
  destruct (fs fn 1%nat) as [|errno2]; [reflexivity|].
  destruct (Z.eqb_spec errno2 ERROR_NO_SUCH_FILE_OR_DIRECTORY) as [->|_];
    [reflexivity|].
  now destruct (errno2 =? ERROR_IS_DIRECTORY).
Qed.

End NfsExists.

(** C9: [nfs_exists] opens the path at most twice.  It opens it once;
    when that first attempt reports "no such file or directory" it sleeps
    15 seconds and opens it exactly once more, and that second attempt
    decides; any other first outcome decides at once, without a sleep.
    A path that is a directory (errno 21 at the deciding attempt) is
    reported as existing. *)
Theorem nfs_exists_two_probes (fs : string -> nat -> Utils.open_result) (fn : string) :
  let enoent := Utils.IOError Utils.ERROR_NO_SUCH_FILE_OR_DIRECTORY in
  let eisdir := Utils.IOError Utils.ERROR_IS_DIRECTORY in
  let b := fst (Utils.run_nfs_exists fs fn) in
  let tr := snd (Utils.run_nfs_exists fs fn) in
  (Utils.probes tr <= 2)%nat
  /\ (fs fn 0%nat <> enoent ->
        tr = [Utils.Backticks ("ls " +:+ fn); Utils.Open fn])
  /\ (fs fn 0%nat = enoent ->
        tr = [Utils.Backticks ("ls " +:+ fn); Utils.Open fn;
              Utils.Sleep 15; Utils.Open fn])
  /\ (b = false -> fs fn 0%nat = enoent -> fs fn 1%nat <> Utils.Opened)
  /\ (fs fn 0%nat = eisdir -> b = true)
  /\ (fs fn 0%nat = enoent -> fs fn 1%nat = eisdir -> b = true).
Proof.
  cbv zeta.
  assert (fs fn 0%nat = Utils.IOError Utils.ERROR_NO_SUCH_FILE_OR_DIRECTORY
          \/ fs fn 0%nat <> Utils.IOError Utils.ERROR_NO_SUCH_FILE_OR_DIRECTORY)
    as [H0|H0].
  { destruct (fs fn 0%nat) as [|e]; [right; discriminate|].
    destruct (Z.eq_dec e Utils.ERROR_NO_SUCH_FILE_OR_DIRECTORY) as [->|Hne];
      [now left | right; congruence]. }
  - rewrite (nfs_exists_second_probe fs fn H0). cbn [fst snd].
    split; [cbn; lia|]. split; [intros Hne; now destruct Hne|].
    split; [reflexivity|]. split; [|split].
    + intros Hb _ H1. rewrite H1 in Hb. discriminate.
    + intros H1. rewrite H1 in H0. discriminate.
    + intros _ H1. now rewrite H1.
  - rewrite (nfs_exists_first_probe fs fn H0). cbn [fst snd].
    split; [cbn; lia|]. split; [reflexivity|].
    split; [intros He; now destruct H0|]. split; [|split].
    + intros _ He. now destruct H0.
    + intros H1. now rewrite H1.
    + intros He. now destruct H0.
Qed.

(** ** The job reconciler *)

Section Reconciler.
Import IceQuiverPostprocess Spec.
Variable self : self_t.
Variable e : env.

Lemma check_job_probed (running_jids : option (list string))
    (st st' : locals) (item : string * string) :
  probed self e st -> check_job self e running_jids st item = Ok st' -> probed self e st'.
Proof.
  destruct item as [job_id sh_name]. intros [Hfq Hbad]. unfold check_job.
  destruct (no_output e (fq_of self sh_name)) eqn:Hout.
  - destruct running_jids as [jids|]; [|discriminate].
    destruct (Py.str_in job_id jids); intros Heq; inversion Heq; subst; clear Heq;
      split; cbn; try assumption.
    intros sh Hin. apply in_app_iff in Hin. destruct Hin as [Hin|[<-|[]]]; auto.
  - intros Heq; inversion Heq; subst; clear Heq. split; cbn; [|assumption].
    intros f Hin. apply in_app_iff in Hin. destruct Hin as [Hin|[<-|[]]]; auto.
Qed.

(** With no job listed by the scheduler, the flag stays up. *)
Lemma check_job_idle (running_jids : option (list string))
    (st st' : locals) (item : string * string) :
  running_jids = None \/ running_jids = Some [] ->
  done_flag st = true ->
  check_job self e running_jids st item = Ok st' -> done_flag st' = true.
Proof.
  destruct item as [job_id sh_name]. intros Hidle Hflag. unfold check_job.
  destruct (no_output e (fq_of self sh_name)).
  - destruct Hidle as [->| ->]; [discriminate|]. cbn.
    intros Heq; inversion Heq; subst. assumption.
  - intros Heq; inversion Heq; subst. assumption.
Qed.

(** The shape of a pass that returns. *)
Lemma check_quiver_jobs_completion_spec (c : checked) :
  check_quiver_jobs_completion self e = Ok c ->
  (forall f, In f (fq_filenames c) -> no_output e f = false)
  /\ (forall bad sh, In bad (reruns c) -> In sh bad ->
        no_output e (fq_of self sh) = true)
  /\ (reruns c = [] \/
      exists bad, reruns c = [bad] /\ bad <> [] /\
        job_stats c = if 0 <? Py.len (locally_run_failed_quiver_jobs e bad)
                      then FAILED else DONE).
Proof.
  unfold check_quiver_jobs_completion.
  destruct (Py.for_each read_line (submitted_quiver_jobs_log e) (∅, false))
    as [[submitted sge_used]|ex]; cbn [Py.bind]; [|discriminate].
  set (scan := if sge_used && use_sge self then _ else _).
  destruct scan as [[running_jids done_flag0]|ex]; cbn [Py.bind]; [|discriminate].
  destruct (Py.for_each (check_job self e running_jids) (map_to_list submitted) _)
    as [st|ex] eqn:Hloop; cbn [Py.bind]; [|discriminate].
  assert (Hst : probed self e st).
  { eapply (for_each_invariant _ (probed self e)); [| |exact Hloop].
    - intros s x s' _. apply check_job_probed.
    - split; intros ? []. }
  destruct Hst as [Hfq Hbad].
  destruct (negb (done_flag st)).
  - destruct (Py.len (bad_sh st) =? 0) eqn:Hlen.
    + intros Heq; inversion Heq; subst; clear Heq. cbn.
      split; [assumption|]. split; [intros ? ? []|now left].
    + assert (Hne : bad_sh st <> []).
      { intros Hnil. rewrite Hnil in Hlen. discriminate. }
      destruct (0 <? Py.len (locally_run_failed_quiver_jobs e (bad_sh st))) eqn:Hstill;
        intros Heq; inversion Heq; subst; clear Heq; cbn;
        (split; [assumption|]);
        (split; [intros bad sh [<-|[]]; apply Hbad|]);
        right; exists (bad_sh st); rewrite Hstill; auto.
  - intros Heq; inversion Heq; subst; clear Heq. cbn.
    split; [assumption|]. split; [intros ? ? []|now left].
Qed.

(** When [qstat] lists no job, a pass that returns returns ["DONE"]
    and reruns nothing, whatever the state of the outputs. *)
Lemma idle_scheduler_is_done (c : checked) :
  skipn 2 (Py.split "010" (Py.strip (qstat e))) = [] ->
  check_quiver_jobs_completion self e = Ok c ->
  job_stats c = DONE /\ reruns c = [].
Proof.
  intros Hidle. unfold check_quiver_jobs_completion.
  destruct (Py.for_each read_line (submitted_quiver_jobs_log e) (∅, false))
    as [[submitted sge_used]|ex]; cbn [Py.bind]; [|discriminate].
  rewrite Hidle. cbn [Py.for_each Py.bind].
  set (scan := if sge_used && use_sge self then _ else _).
  assert (Hscan : scan = Ok (None, true) \/ scan = Ok (Some [], true)).
  { subst scan. destruct (sge_used && use_sge self); auto. }
  clearbody scan.
  assert (Hloop : forall jids,
            jids = None \/ jids = Some [] ->
            forall st, Py.for_each (check_job self e jids) (map_to_list submitted)
                         {| done_flag := true; bad_sh := []; fq_filenames_ := [] |} = Ok st ->
            done_flag st = true).
  { intros jids Hj st Hrun.
    eapply (for_each_invariant _ (fun s => done_flag s = true)); [| |exact Hrun].
    - intros s x s' _. now apply check_job_idle.
    - reflexivity. }
  destruct Hscan as [-> | ->]; cbn [Py.bind];
    (destruct (Py.for_each _ (map_to_list submitted) _) as [st|ex] eqn:Hrun;
     cbn [Py.bind]; [|discriminate]);
    (pose proof (fun Hj => Hloop _ Hj st Hrun) as Hflag; rewrite Hflag by auto); cbn;
    intros Heq; inversion Heq; subst; auto.
Qed.

End Reconciler.


(** ** Strings and file names *)

#[local] Arguments String.append !_ _ / : simpl nomatch.

Lemma append_inv_head (s a b : string) : s +:+ a = s +:+ b -> a = b.
Proof.
  induction s as [|c s IH]; cbn; [trivial|]. intros Heq. apply IH. now inversion Heq.
Qed.

Lemma append_chars (a b : string) : Py.chars (a +:+ b) = Py.chars a ++ Py.chars b.
Proof.
  unfold Py.chars. induction a as [|c a IH]; cbn; [reflexivity|]. now f_equal.
Qed.

Lemma chars_inj (a b : string) : Py.chars a = Py.chars b -> a = b.
Proof.
  intros Heq. rewrite <- (string_of_list_ascii_of_string a), <- (string_of_list_ascii_of_string b).
  unfold Py.chars in Heq. now rewrite Heq.
Qed.

Lemma append_inv_tail (a b t : string) : a +:+ t = b +:+ t -> a = b.
Proof.
  intros Heq. apply chars_inj. apply (f_equal Py.chars) in Heq.
  rewrite !append_chars in Heq. exact (app_inv_tail _ _ _ Heq).
Qed.

(** Two strings free of [c] that are followed by [c] are determined by
    the concatenation. *)
Lemma append_split_at (c : ascii) (s1 s2 r1 r2 : string) :
  ~ In c (Py.chars s1) -> ~ In c (Py.chars s2) ->
  s1 +:+ String c r1 = s2 +:+ String c r2 -> s1 = s2 /\ r1 = r2.
Proof.
  revert s2. induction s1 as [|d s1 IH]; intros [|d2 s2] H1 H2 Heq; cbn in *.
  - inversion Heq. auto.
  - inversion Heq; subst. destruct H2. now left.
  - inversion Heq; subst. destruct H1. now left.
  - inversion Heq; subst. destruct (IH s2) as [-> ->]; auto.
Qed.

(** The decimal form of an integer has no underscore. *)
Lemma str_no_underscore (n : Z) : ~ In "_"%char (Py.chars (Py.str n)).
Proof.
  assert (Hu : forall d, ~ In "_"%char (Py.chars (NilEmpty.string_of_uint d))).
  { induction d; cbn; [tauto|..]; intros [Hc|Hin]; try discriminate; auto. }
  assert (Hz : forall d, ~ In "_"%char (Py.chars (NilZero.string_of_uint d))).
  { intros d. destruct d; try apply Hu. cbn. intros [Hc|[]]. discriminate. }
  unfold Py.str. destruct n as [|p|p]; cbn [Z.to_int NilZero.string_of_int].
  - apply Hz.
  - apply Hz.
  - cbn. intros [Hc|Hin]; [discriminate|]. exact (Hz _ Hin).
Qed.

Lemma str_inj (a b : Z) : Py.str a = Py.str b -> a = b.
Proof.
  unfold Py.str. intros Heq. apply DecimalZ.to_int_inj.
  assert (Hnn : forall z, Z.to_int z <> Decimal.Pos Decimal.Nil
                          /\ Z.to_int z <> Decimal.Neg Decimal.Nil).
  { intros [|p|p]; cbn; split; try discriminate;
      intros Hc; inversion Hc as [Hp]; exact (Unsigned.to_uint_nonnil p Hp). }
  destruct (Hnn a) as [Ha1 Ha2], (Hnn b) as [Hb1 Hb2].
  pose proof (NilZero.isi _ Ha1 Ha2) as Ea. pose proof (NilZero.isi _ Hb1 Hb2) as Eb.
  rewrite Heq in Ea. rewrite Ea in Eb. now inversion Eb.
Qed.

Section NameFacts.
Import IceQuiverPostprocess Spec.
Variable float_str : Q -> string.

Lemma a_b_c_inj (s1 s2 : self_t) (ext : string) :
  a_b_c float_str s1 +:+ ext = a_b_c float_str s2 +:+ ext ->
  qv_trim_5 s1 = qv_trim_5 s2 /\ qv_trim_3 s1 = qv_trim_3 s2
  /\ float_str (hq_quiver_min_accuracy s1) = float_str (hq_quiver_min_accuracy s2).
Proof.
  unfold a_b_c. intros Heq. apply append_inv_tail in Heq.
  apply append_split_at in Heq; try apply str_no_underscore.
  destruct Heq as [Ha Heq].
  apply append_split_at in Heq; try apply str_no_underscore.
  destruct Heq as [Hb Hc]. auto using str_inj.
Qed.

(** Joining one directory with two relative names. *)
Lemma join_inv (root x y : string) :
  Py.startswith "/" x = false -> Py.startswith "/" y = false ->
  op.join root x = op.join root y -> x = y.
Proof.
  unfold op.join. intros -> ->.
  destruct (String.eqb root "" || Py.endswith "/" root); intros Heq.
  - exact (append_inv_head _ _ _ Heq).
  - apply append_inv_head in Heq. now inversion Heq.
Qed.

(** C7 (as the code has it): the names of the HQ fasta and HQ fastq
    files carry [qv_trim_5], [qv_trim_3] and the printed
    [hq_quiver_min_accuracy], so in one root directory two runs get
    the same HQ name only if they agree on the two trims and on the
    printed accuracy; the names of the LQ fasta and LQ fastq files are
    [all_quivered_lq.fasta] and [all_quivered_lq.fastq] whatever the
    policy. *)
Theorem hq_names_carry_the_policy (s1 s2 : self_t) :
  root_dir s1 = root_dir s2 ->
  (quivered_good_fa float_str s1 = quivered_good_fa float_str s2
   \/ quivered_good_fq float_str s1 = quivered_good_fq float_str s2 ->
   qv_trim_5 s1 = qv_trim_5 s2 /\ qv_trim_3 s1 = qv_trim_3 s2
   /\ float_str (hq_quiver_min_accuracy s1) = float_str (hq_quiver_min_accuracy s2))
  /\ quivered_bad_fa s1 = op.join (root_dir s1) "all_quivered_lq.fasta"
  /\ quivered_bad_fq s1 = op.join (root_dir s1) "all_quivered_lq.fastq"
  /\ quivered_bad_fa s1 = quivered_bad_fa s2
  /\ quivered_bad_fq s1 = quivered_bad_fq s2.
Proof.
  intros Hroot. split; [|unfold quivered_bad_fa, quivered_bad_fq; rewrite Hroot; auto].
  unfold quivered_good_fa, quivered_good_fq. rewrite Hroot.
  intros [Heq|Heq]; apply join_inv in Heq; try reflexivity;
    cbn in Heq; inversion Heq as [Heq']; exact (a_b_c_inj _ _ _ Heq').
Qed.

End NameFacts.

(** ** The quality estimator *)

Lemma slice_map {A B} (f : A -> B) (l : list A) (lo hi : Z) :
  Py.slice (map f l) lo hi = map f (Py.slice l lo hi).
Proof.
  unfold Py.slice, Py.len. rewrite length_map, skipn_map, firstn_map. reflexivity.
Qed.

(** With both trims positive or zero and a last base to drop, the slice
    is the window of the specification. *)
Lemma slice_is_window {A} (l : list A) (t5 t3 : Z) :
  0 <= t5 -> 0 < t3 -> t5 + t3 < Py.len l ->
  Py.slice l t5 (- t3) = Spec.window t5 t3 l.
Proof.
  unfold Py.slice, Spec.window, Py.clamp, Py.len. intros H5 H3 Hlen.
  destruct (Z.ltb_spec t5 0) as [?|_]; [lia|].
  destruct (Z.ltb_spec (- t3) 0) as [_|?]; [|lia].
  f_equal; [|f_equal]; lia.
Qed.

(** [q[t5:-0]] is [q[t5:0]]: nothing is left of the list. *)
Lemma slice_to_minus_zero {A} (l : list A) (t5 : Z) :
  0 <= t5 -> Py.slice l t5 (- 0) = [].
Proof.
  unfold Py.slice, Py.clamp, Py.len. intros H5. change (- 0) with 0.
  destruct (Z.ltb_spec t5 0) as [?|_]; [lia|].
  destruct (Z.ltb_spec 0 0) as [?|_]; [lia|].
  replace (Z.to_nat _) with 0%nat by lia. reflexivity.
Qed.

Section Estimator.
Import IceQuiverPostprocess Spec.
Context `{Externals}.
Variable self : self_t.

(** When at least one base is trimmed at the 3' end, the accuracy is
    the one of the specification. *)
Lemma accuracy_is_accuracy_spec (r : FastqRecord) :
  0 <= qv_trim_5 self -> 0 < qv_trim_3 self ->
  0 < Py.len (quality r) - qv_trim_5 self - qv_trim_3 self ->
  accuracy self r = accuracy_spec self r.
Proof.
  intros H5 H3 Hwin. unfold accuracy, accuracy_spec, err_sum, qv_len.
  rewrite slice_map, slice_is_window by lia.
  now rewrite Z.max_r by lia.
Qed.

(** When nothing is trimmed at the 3' end, the sum is taken over no
    base at all and the accuracy is [1]. *)
Lemma accuracy_without_qv_trim_3 (r : FastqRecord) :
  0 <= qv_trim_5 self -> qv_trim_3 self = 0 ->
  err_sum self r = 0%Q /\ (accuracy self r == 1)%Q.
Proof.
  intros H5 H3. unfold accuracy.
  assert (Hsum : err_sum self r = 0%Q).
  { unfold err_sum. rewrite H3, slice_to_minus_zero by assumption. reflexivity. }
  rewrite Hsum. split; [reflexivity|]. unfold Qdiv. rewrite Qmult_0_l. reflexivity.
Qed.

End Estimator.


(** ** The classifier *)

Section ClassifierFacts.
Import IceQuiverPostprocess Spec.
Context `{Externals}.
Variable self : self_t.
Variables uc partial_uc : gmap Z (list string).

(** [good] collects, in order, the entries that pass the test. *)
Lemma pick_loop (items : list (Z * FastqRecord)) (acc good : list Z) :
  Py.for_each (pick self uc) items acc = Ok good ->
  good = acc ++ map fst (List.filter (hq_test self uc) items).
Proof.
  revert acc. induction items as [|[cid r] items IH]; intros acc Hrun.
  - inversion Hrun. cbn. now rewrite app_nil_r.
  - cbn [Py.for_each] in Hrun. unfold pick at 1 in Hrun.
    cbn [List.filter].
    replace (hq_test self uc (cid, r)) with
      (negb (qv_len self r =? 0)
       && Qle_bool (hq_quiver_min_accuracy self) (accuracy self r)
       && match uc !! cid with Some fl => 2 <=? Py.len fl | None => false end)
      by reflexivity.
    destruct (negb (qv_len self r =? 0)); cbn [andb Py.bind] in *;
      [|exact (IH _ Hrun)].
    destruct (Qle_bool (hq_quiver_min_accuracy self) (accuracy self r));
      cbn [andb Py.bind] in *; [|exact (IH _ Hrun)].
    destruct (uc !! cid) as [fl|]; [|discriminate].
    destruct (2 <=? Py.len fl); cbn [Py.bind] in Hrun.
    + rewrite (IH _ Hrun). cbn [map fst]. now rewrite <- app_assoc.
    + exact (IH _ Hrun).
Qed.

(** The writers receive, in order, the ids in [good] on the HQ side and
    the others on the LQ side; every id written has an entry in [uc]. *)
Lemma write_loop (good : list Z) (items : list (Z * FastqRecord)) (w0 w : written) :
  Py.for_each (write_cluster uc partial_uc good) items w0 = Ok w ->
  hq_fa_ids w = hq_fa_ids w0 ++ List.filter (fun c => Py.int_in c good) (map fst items)
  /\ hq_fq_ids w = hq_fq_ids w0 ++ List.filter (fun c => Py.int_in c good) (map fst items)
  /\ lq_fa_ids w = lq_fa_ids w0 ++ List.filter (fun c => negb (Py.int_in c good)) (map fst items)
  /\ lq_fq_ids w = lq_fq_ids w0 ++ List.filter (fun c => negb (Py.int_in c good)) (map fst items)
  /\ (forall cid r, In (cid, r) items -> exists fl, uc !! cid = Some fl).
Proof.
  revert w0. induction items as [|[cid r] items IH]; intros w0 Hrun; cbn in Hrun.
  - inversion Hrun; subst. cbn. rewrite !app_nil_r. repeat split. intros ? ? [].
  - unfold write_cluster at 1 in Hrun.
    destruct (uc !! cid) as [fl|] eqn:Huc; [|discriminate].
    cbn [map fst List.filter].
    destruct (Py.int_in cid good) eqn:Hin; cbn in Hrun;
      destruct (IH _ Hrun) as (Ha & Hb & Hc & Hd & He);
      unfold hq_fa_ids, hq_fq_ids, lq_fa_ids, lq_fq_ids in *; cbn in *;
      rewrite ?map_app, <- ?app_assoc in *; cbn in *;
      (repeat split; try assumption);
      intros c r' [Heq|Hin']; [inversion Heq; subst; eauto | eauto | inversion Heq; subst; eauto | eauto].
Qed.


(** *** The dict [quivered] *)

Lemma add_read_loop (reads : list FastqRecord) (q0 q : gmap Z FastqRecord) :
  Py.for_each add_read reads q0 = Ok q ->
  forall cid,
    q !! cid = match last_read cid reads with
               | Some r => Some r
               | None => q0 !! cid
               end.
Proof.
  revert q0. induction reads as [|r reads IH]; intros q0 Hrun cid.
  - inversion Hrun. reflexivity.
  - cbn [Py.for_each] in Hrun. unfold add_read at 1 in Hrun.
    cbn [last_read].
    destruct (cluster_id (name r)) as [c|e]; cbn [Py.bind] in Hrun; [|discriminate].
    rewrite (IH _ Hrun cid).
    destruct (last_read cid reads); [reflexivity|].
    destruct (Z.eqb_spec c cid) as [->|Hne].
    + apply lookup_insert_eq.
    + now apply lookup_insert_ne.
Qed.

Lemma add_read_loop_parses (reads : list FastqRecord) (q0 q : gmap Z FastqRecord) :
  Py.for_each add_read reads q0 = Ok q ->
  forall r, In r reads -> exists cid, cluster_id (name r) = Ok cid.
Proof.
  revert q0. induction reads as [|r0 reads IH]; intros q0 Hrun r Hin; [destruct Hin|].
  cbn [Py.for_each] in Hrun. unfold add_read at 1 in Hrun.
  destruct (cluster_id (name r0)) as [c|e] eqn:E; cbn [Py.bind] in Hrun; [|discriminate].
  destruct Hin as [<-|Hin]; [eauto|]. exact (IH _ Hrun r Hin).
Qed.

Lemma add_read_loop_total (reads : list FastqRecord) (q0 : gmap Z FastqRecord) :
  (forall r, In r reads -> exists cid, cluster_id (name r) = Ok cid) ->
  exists q, Py.for_each add_read reads q0 = Ok q.
Proof.
  intros Hparse. apply for_each_total. intros q r Hr.
  destruct (Hparse r Hr) as [cid Hcid]. unfold add_read. rewrite Hcid. cbn. eauto.
Qed.

Lemma last_read_sound (cid : Z) (reads : list FastqRecord) (r : FastqRecord) :
  last_read cid reads = Some r -> In r reads /\ cluster_id (name r) = Ok cid.
Proof.
  induction reads as [|r0 reads IH]; cbn [last_read]; [discriminate|].
  destruct (last_read cid reads) as [r'|].
  - intros Heq. inversion Heq; subst. destruct (IH eq_refl). split; [now right|assumption].
  - destruct (cluster_id (name r0)) as [c|e] eqn:E; [|discriminate].
    destruct (Z.eqb_spec c cid) as [->|_]; [|discriminate].
    intros Heq. inversion Heq; subst. split; [now left|assumption].
Qed.

Lemma last_read_none (cid : Z) (reads : list FastqRecord) :
  last_read cid reads = None <->
  forall r, In r reads -> cluster_id (name r) <> Ok cid.
Proof.
  induction reads as [|r0 reads IH]; cbn [last_read].
  - split; [intros _ r []|reflexivity].
  - destruct (last_read cid reads) as [r'|] eqn:El.
    + split; [discriminate|]. intros Hall.
      destruct (last_read_sound _ _ _ El) as [Hin Hcid].
      destruct (Hall r' (or_intror Hin) Hcid).
    + destruct IH as [IH1 _]. specialize (IH1 eq_refl).
      destruct (cluster_id (name r0)) as [c|e] eqn:E.
      * destruct (Z.eqb_spec c cid) as [->|Hne].
        -- split; [discriminate|]. intros Hall. destruct (Hall r0 (or_introl eq_refl) E).
        -- split; [|reflexivity]. intros _ r [<-|Hin]; [congruence|now apply IH1].
      * split; [|reflexivity]. intros _ r [<-|Hin]; [congruence|now apply IH1].
Qed.

(** The record that is followed by no other record of the same
    cluster is the one kept. *)
Lemma last_read_split (cid : Z) (reads1 reads2 : list FastqRecord) (r : FastqRecord) :
  cluster_id (name r) = Ok cid ->
  (forall r', In r' reads2 -> cluster_id (name r') <> Ok cid) ->
  last_read cid (reads1 ++ r :: reads2) = Some r.
Proof.
  intros Hcid Hnone. induction reads1 as [|r0 reads1 IH]; cbn [app last_read].
  - apply last_read_none in Hnone. rewrite Hnone, Hcid, Z.eqb_refl. reflexivity.
  - now rewrite IH.
Qed.

(** *** Classification of the entries of [quivered] *)

Lemma classify_spec (quivered : gmap Z FastqRecord) (w : written) :
  classify self uc partial_uc quivered = Ok w ->
  (forall cid, In cid (hq_fa_ids w) <->
     exists r, quivered !! cid = Some r /\ hq_test self uc (cid, r) = true)
  /\ (forall cid, In cid (lq_fa_ids w) <->
     exists r, quivered !! cid = Some r /\ hq_test self uc (cid, r) = false)
  /\ hq_fq_ids w = hq_fa_ids w
  /\ lq_fq_ids w = lq_fa_ids w
  /\ List.NoDup (hq_fa_ids w ++ lq_fa_ids w)
  /\ (forall cid r, quivered !! cid = Some r -> exists fl, uc !! cid = Some fl).
Proof.
  unfold classify. intros Hrun.
  destruct (Py.for_each (pick self uc) (map_to_list quivered) []) as [good|e] eqn:Hpick;
    cbn [Py.bind] in Hrun; [|discriminate].
  apply pick_loop in Hpick. cbn [app] in Hpick.
  apply write_loop in Hrun. cbn in Hrun.
  destruct Hrun as (Ha & Hb & Hc & Hd & He).
  assert (Hitems : forall cid r, In (cid, r) (map_to_list quivered) <-> quivered !! cid = Some r).
  { intros cid r. rewrite <- list_elem_of_In. apply elem_of_map_to_list. }
  assert (Hkeys : List.NoDup (map fst (map_to_list quivered))).
  { apply NoDup_ListNoDup.
    change (map fst (map_to_list quivered)) with ((map_to_list quivered).*1).
    apply NoDup_fst_map_to_list. }
  assert (Hgood : forall cid r, quivered !! cid = Some r ->
            Py.int_in cid good = hq_test self uc (cid, r)).
  { intros cid r Hr. apply eq_true_iff_eq. rewrite int_in_spec, Hpick, in_map_iff.
    split.
    - intros [[c r'] [Hc' Hin]]. cbn in Hc'. subst c.
      apply filter_In in Hin. destruct Hin as [Hin Ht].
      apply Hitems in Hin. congruence.
    - intros Ht. exists (cid, r). split; [reflexivity|].
      apply filter_In. split; [now apply Hitems|assumption]. }
  assert (Hkey : forall cid, In cid (map fst (map_to_list quivered)) <->
            exists r, quivered !! cid = Some r).
  { intros cid. rewrite in_map_iff. split.
    - intros [[c r] [Hc' Hin]]. cbn in Hc'. subst c. exists r. now apply Hitems.
    - intros [r Hr]. exists (cid, r). split; [reflexivity|now apply Hitems]. }
  split; [|split; [|split; [|split; [|split]]]].
  - intros cid. rewrite Ha, filter_In, Hkey. split.
    + intros [[r Hr] Hin]. exists r. split; [assumption|]. now rewrite <- (Hgood _ _ Hr).
    + intros [r [Hr Ht]]. split; [eauto|]. now rewrite (Hgood _ _ Hr).
  - intros cid. rewrite Hc, filter_In, Hkey. split.
    + intros [[r Hr] Hin]. exists r. split; [assumption|].
      rewrite <- (Hgood _ _ Hr). now apply negb_true_iff.
    + intros [r [Hr Ht]]. split; [eauto|]. rewrite (Hgood _ _ Hr). now apply negb_true_iff.
  - now rewrite Hb, Ha.
  - now rewrite Hd, Hc.
  - rewrite Ha, Hc.
    generalize dependent (map fst (map_to_list quivered)). intros keys _ _ _ _ Hnd _.
    clear -Hnd. induction Hnd as [|k keys Hk Hnd IH]; cbn; [constructor|].
    destruct (Py.int_in k good); cbn.
    + constructor; [|assumption]. rewrite in_app_iff, !filter_In. tauto.
    + apply NoDup_Add with (a := k) (l := List.filter (fun c => Py.int_in c good) keys
                                ++ List.filter (fun c => negb (Py.int_in c good)) keys).
      * apply Add_app.
      * split; [assumption|]. rewrite in_app_iff, !filter_In. tauto.
  - intros cid r Hr. apply (He cid r). now apply Hitems.
Qed.

End ClassifierFacts.

(** ** [pickup_best_clusters] *)

Section PickupFacts.
Import IceQuiverPostprocess Spec.
Context `{Externals}.
Variable self : self_t.
Variable e : env.

(** [pickup_best_clusters] classifies the dict that maps each cluster
    id to the last record read for it. *)
Lemma pickup_best_clusters_spec (fq_filenames : list string) (w : written) :
  pickup_best_clusters self e fq_filenames = Ok w ->
  exists quivered : gmap Z FastqRecord,
    (forall cid, quivered !! cid = last_read cid (records e fq_filenames))
    /\ (forall r, In r (records e fq_filenames) ->
          exists cid, cluster_id (name r) = Ok cid)
    /\ classify self (final_pickle_uc e) (nfl_all_pickle_partial_uc e) quivered = Ok w.
Proof.
  unfold pickup_best_clusters, read_quivered. rewrite for_each_concat.
  fold (records e fq_filenames).
  destruct (Py.for_each add_read (records e fq_filenames) ∅) as [quivered|ex] eqn:Hread;
    cbn [Py.bind]; [|discriminate].
  intros Hrun. exists quivered. split; [|split; [|exact Hrun]].
  - intros cid. rewrite (add_read_loop _ _ _ Hread cid).
    destruct (last_read cid (records e fq_filenames)); [reflexivity|apply lookup_empty].
  - exact (add_read_loop_parses _ _ _ Hread).
Qed.

(** [pickup_best_clusters] returns when every name resolves to a
    cluster id that [uc] knows. *)
Lemma pickup_best_clusters_returns (fq_filenames : list string) :
  (forall r, In r (records e fq_filenames) ->
     exists cid fl, cluster_id (name r) = Ok cid /\ final_pickle_uc e !! cid = Some fl) ->
  exists w, pickup_best_clusters self e fq_filenames = Ok w.
Proof.
  intros Hpre. unfold pickup_best_clusters, read_quivered. rewrite for_each_concat.
  fold (records e fq_filenames).
  destruct (add_read_loop_total (records e fq_filenames) ∅) as [quivered Hread].
  { intros r Hr. destruct (Hpre r Hr) as (cid & fl & Hcid & _). eauto. }
  rewrite Hread. cbn [Py.bind].
  assert (Huc : forall cid r, In (cid, r) (map_to_list quivered) ->
            exists fl, final_pickle_uc e !! cid = Some fl).
  { intros cid r Hin. apply list_elem_of_In, elem_of_map_to_list in Hin.
    rewrite (add_read_loop _ _ _ Hread cid) in Hin.
    destruct (last_read cid (records e fq_filenames)) as [r'|] eqn:El.
    - destruct (last_read_sound _ _ _ El) as [Hin' Hcid].
      destruct (Hpre r' Hin') as (cid' & fl & Hcid' & Hfl).
      rewrite Hcid in Hcid'. inversion Hcid'; subst. eauto.
    - rewrite lookup_empty in Hin. discriminate. }
  unfold classify.
  destruct (for_each_total (pick self (final_pickle_uc e)) (map_to_list quivered) [])
    as [good Hgood].
  { intros good [cid r] Hin. destruct (Huc cid r Hin) as [fl Hfl].
    unfold pick. rewrite Hfl.
    destruct (negb (qv_len self r =? 0)); [|eauto].
    destruct (Qle_bool (hq_quiver_min_accuracy self) (accuracy self r)); [|eauto].
    destruct (2 <=? Py.len fl); eauto. }
  rewrite Hgood. cbn [Py.bind].
  apply for_each_total. intros w [cid r] Hin. destruct (Huc cid r Hin) as [fl Hfl].
  unfold write_cluster. rewrite Hfl. destruct (Py.int_in cid good); eauto.
Qed.

End PickupFacts.

Lemma times_absent (x : Z) (l : list Z) : ~ In x l -> Spec.times x l = 0%nat.
Proof.
  unfold Spec.times. induction l as [|y l IH]; cbn; [reflexivity|].
  intros Hnin. destruct (Z.eqb_spec x y) as [Heq|_].
  - exfalso. apply Hnin. left. congruence.
  - apply IH. intros Hin. apply Hnin. now right.
Qed.

Lemma times_present (x : Z) (l : list Z) :
  List.NoDup l -> In x l -> Spec.times x l = 1%nat.
Proof.
  intros Hnd. induction Hnd as [|y l Hy Hnd IH]; [intros []|].
  intros Hin. unfold Spec.times. cbn. destruct (Z.eqb_spec x y) as [Heq|Hne].
  - cbn. f_equal. apply times_absent. now rewrite Heq.
  - destruct Hin as [Heq|Hin]; [congruence|]. now apply IH.
Qed.

Lemma times_once (x : Z) (l1 l2 : list Z) :
  List.NoDup (l1 ++ l2) -> In x l1 -> Spec.times x l1 = 1%nat /\ Spec.times x l2 = 0%nat.
Proof.
  intros Hnd Hin. split.
  - apply times_present; [|assumption]. eauto using NoDup_app_remove_r.
  - apply times_absent. intros Hin2. revert Hin. clear -Hnd Hin2.
    induction l1 as [|y l1 IH]; [intros []|].
    cbn in Hnd. inversion Hnd as [|? ? Hy Hnd']; subst. intros [Heq|Hin].
    + apply Hy. apply in_app_iff. right. now rewrite Heq.
    + now apply IH.
Qed.

Section ClassifierClaims.
Import IceQuiverPostprocess Spec.
Context `{Externals}.
Variable self : self_t.
Variable e : env.

(** C1: among the records [pickup_best_clusters] classifies (for each
    cluster id the record kept in [quivered]), one whose trimmed
    window is not empty has its cluster written to the HQ fasta and
    fastq outputs if and only if the computed accuracy is at least
    [hq_quiver_min_accuracy] (the bound included) and the cluster's
    entry in [uc] has at least two members; a cluster with exactly
    one full-length supporter is never HQ. *)
Theorem hq_iff_accuracy_and_support
    (fq_filenames : list string) (w : written) (cid : Z) (r : FastqRecord) :
  pickup_best_clusters self e fq_filenames = Ok w ->
  last_read cid (records e fq_filenames) = Some r ->
  0 < Py.len (quality r) - qv_trim_5 self - qv_trim_3 self ->
  exists fl,
    final_pickle_uc e !! cid = Some fl
    /\ (In cid (hq_fa_ids w) <->
          (hq_quiver_min_accuracy self <= accuracy self r)%Q /\ 2 <= Py.len fl)
    /\ (In cid (hq_fq_ids w) <-> In cid (hq_fa_ids w))
    /\ (Py.len fl = 1 -> ~ In cid (hq_fa_ids w)).
Proof.
  intros Hrun Hlast Hwin.
  destruct (pickup_best_clusters_spec _ _ _ _ Hrun) as (quivered & Hq & _ & Hcl).
  destruct (classify_spec _ _ _ _ _ Hcl) as (Hhq & _ & Hfq & _ & _ & Huc).
  assert (Hr : quivered !! cid = Some r) by now rewrite Hq.
  destruct (Huc _ _ Hr) as [fl Hfl]. exists fl.
  assert (Hrule : In cid (hq_fa_ids w) <->
            (hq_quiver_min_accuracy self <= accuracy self r)%Q /\ 2 <= Py.len fl).
  { rewrite Hhq. split.
    - intros (r' & Hr' & Ht). rewrite Hr in Hr'. inversion Hr'; subst r'.
      unfold hq_test in Ht. cbn [fst snd] in Ht. rewrite Hfl in Ht.
      apply andb_true_iff in Ht. destruct Ht as [Ht Hsup].
      apply andb_true_iff in Ht. destruct Ht as [_ Hacc].
      split; [now apply Qle_bool_iff | now apply Z.leb_le].
    - intros [Hacc Hsup]. exists r. split; [assumption|].
      unfold hq_test. cbn [fst snd]. rewrite Hfl.
      apply andb_true_iff. split; [apply andb_true_iff; split|].
      + apply negb_true_iff, Z.eqb_neq. unfold qv_len. lia.
      + now apply Qle_bool_iff.
      + now apply Z.leb_le. }
  split; [assumption|]. split; [assumption|]. split; [now rewrite Hfq|].
  intros Hone Hin. apply Hrule in Hin. lia.
Qed.

(** C5: a record whose sequence is no longer than
    [qv_trim_5 + qv_trim_3] has its cluster written to the LQ fasta
    and fastq outputs and to no HQ output, whatever its quality
    values and its full-length support. *)
Theorem unassessable_window_is_lq
    (fq_filenames : list string) (w : written) (cid : Z) (r : FastqRecord) :
  pickup_best_clusters self e fq_filenames = Ok w ->
  last_read cid (records e fq_filenames) = Some r ->
  String.length (sequence r) = length (quality r) ->
  qv_trim_5 self + qv_trim_3 self >= Z.of_nat (String.length (sequence r)) ->
  In cid (lq_fa_ids w) /\ In cid (lq_fq_ids w)
  /\ ~ In cid (hq_fa_ids w) /\ ~ In cid (hq_fq_ids w).
Proof.
  intros Hrun Hlast Hlen Hwin.
  destruct (pickup_best_clusters_spec _ _ _ _ Hrun) as (quivered & Hq & _ & Hcl).
  destruct (classify_spec _ _ _ _ _ Hcl) as (Hhq & Hlq & Hfq & Hfq' & _ & _).
  assert (Hr : quivered !! cid = Some r) by now rewrite Hq.
  assert (Ht : hq_test self (final_pickle_uc e) (cid, r) = false).
  { unfold hq_test. cbn [fst snd].
    replace (qv_len self r) with 0; [reflexivity|].
    unfold qv_len, Py.len. rewrite <- Hlen. lia. }
  rewrite Hfq, Hfq', Hhq, Hlq.
  assert (Hno : ~ exists r0, quivered !! cid = Some r0
                  /\ hq_test self (final_pickle_uc e) (cid, r0) = true).
  { intros (r' & Hr' & Ht'). rewrite Hr in Hr'. inversion Hr'; subst. congruence. }
  repeat split; eauto.
Qed.

(** C2: when [pickup_best_clusters] returns, the cluster id of every
    record of every completed file was written exactly once to the HQ
    fasta and once to the HQ fastq output and to no LQ output, or
    exactly once to each LQ output and to no HQ output. *)
Theorem every_cluster_in_exactly_one_pair
    (fq_filenames : list string) (w : written)
    (fq : string) (r : FastqRecord) (cid : Z) :
  pickup_best_clusters self e fq_filenames = Ok w ->
  In fq fq_filenames ->
  In r (FastqReader e fq) ->
  cluster_id (name r) = Ok cid ->
  (times cid (hq_fa_ids w) = 1%nat /\ times cid (hq_fq_ids w) = 1%nat
   /\ times cid (lq_fa_ids w) = 0%nat /\ times cid (lq_fq_ids w) = 0%nat)
  \/ (times cid (hq_fa_ids w) = 0%nat /\ times cid (hq_fq_ids w) = 0%nat
      /\ times cid (lq_fa_ids w) = 1%nat /\ times cid (lq_fq_ids w) = 1%nat).
Proof.
  intros Hrun Hfq Hr Hcid.
  destruct (pickup_best_clusters_spec _ _ _ _ Hrun) as (quivered & Hq & _ & Hcl).
  destruct (classify_spec _ _ _ _ _ Hcl) as (Hhq & Hlq & Hfq1 & Hfq2 & Hnd & _).
  assert (Hin : In r (records e fq_filenames)).
  { unfold records. apply in_concat. exists (FastqReader e fq). split; [|assumption].
    now apply in_map. }
  destruct (last_read cid (records e fq_filenames)) as [r'|] eqn:El.
  2:{ destruct (proj1 (last_read_none _ _) El r Hin Hcid). }
  assert (Hr' : quivered !! cid = Some r') by now rewrite Hq.
  rewrite Hfq1, Hfq2.
  destruct (hq_test self (final_pickle_uc e) (cid, r')) eqn:Ht.
  - left. assert (Hm : In cid (hq_fa_ids w)) by (apply Hhq; eauto).
    destruct (times_once _ _ _ Hnd Hm). tauto.
  - right. assert (Hm : In cid (lq_fa_ids w)) by (apply Hlq; eauto).
    assert (Hnd' : List.NoDup (lq_fa_ids w ++ hq_fa_ids w)).
    { eapply Permutation_NoDup; [apply Permutation_app_comm|exact Hnd]. }
    destruct (times_once _ _ _ Hnd' Hm). tauto.
Qed.

End ClassifierClaims.

(** ** Records that share a cluster id *)

Lemma concat_permutation {A} (xss yss : list (list A)) :
  Permutation xss yss -> Permutation (concat xss) (concat yss).
Proof.
  induction 1 as [|xs xss yss _ IH|xs ys xss|xss yss zss _ IH1 _ IH2]; cbn.
  - constructor.
  - now apply Permutation_app_head.
  - rewrite !app_assoc. apply Permutation_app_tail, Permutation_app_comm.
  - now transitivity (concat yss).
Qed.

Section Duplicates.
Import IceQuiverPostprocess Spec.
Context `{Externals}.
Variable self : self_t.
Variable e : env.

(** Among records with pairwise distinct cluster ids, the record kept
    for an id is the only record with that id. *)
Lemma last_read_distinct (reads : list FastqRecord) (cid : Z) (r : FastqRecord) :
  List.NoDup (map (fun r => cluster_id (name r)) reads) ->
  In r reads -> cluster_id (name r) = Ok cid ->
  last_read cid reads = Some r.
Proof.
  intros Hnd Hin Hcid.
  destruct (last_read cid reads) as [r'|] eqn:El.
  2:{ destruct (proj1 (last_read_none _ _) El r Hin Hcid). }
  destruct (last_read_sound _ _ _ El) as [Hin' Hcid'].
  f_equal. clear El. induction reads as [|r0 reads IH]; [destruct Hin|].
  cbn in Hnd. inversion Hnd as [|? ? Hr0 Hnd']; subst.
  assert (Hfresh : forall x, In x reads -> cluster_id (name x) = Ok cid ->
             cluster_id (name r0) <> Ok cid).
  { intros x Hx Hxc Heq. apply Hr0. rewrite Heq, <- Hxc.
    now apply (in_map (fun r => cluster_id (name r))). }
  destruct Hin as [Heq|Hin], Hin' as [Heq'|Hin'].
  - congruence.
  - subst r0. destruct (Hfresh r' Hin' Hcid' Hcid).
  - subst r0. destruct (Hfresh r Hin Hcid Hcid').
  - now apply IH.
Qed.

Lemma last_read_permutation (reads1 reads2 : list FastqRecord) (cid : Z) :
  Permutation reads1 reads2 ->
  List.NoDup (map (fun r => cluster_id (name r)) reads1) ->
  last_read cid reads1 = last_read cid reads2.
Proof.
  intros Hperm Hnd1.
  assert (Hnd2 : List.NoDup (map (fun r => cluster_id (name r)) reads2)).
  { eapply Permutation_NoDup; [|exact Hnd1]. now apply Permutation_map. }
  destruct (last_read cid reads1) as [r|] eqn:E1.
  - destruct (last_read_sound _ _ _ E1) as [Hin Hcid]. symmetry.
    apply last_read_distinct; [assumption| |assumption].
    now apply (Permutation_in _ Hperm).
  - symmetry. apply last_read_none. intros r Hin.
    apply (proj1 (last_read_none _ _) E1).
    apply (Permutation_in _ (Permutation_sym Hperm)). assumption.
Qed.

(** C3 (as the code has it): two records that resolve to the same
    cluster id do not make [pickup_best_clusters] fail.  When every
    name resolves to an id known to [uc], the call returns; of the
    records of one cluster the last one read (files in the order
    given, records in file order) is kept, the cluster is written
    exactly once, and the test that sends it to HQ or LQ is made on
    that last record alone. *)
Theorem duplicate_cluster_ids_keep_last_record
    (fq_filenames : list string)
    (reads1 reads2 reads3 : list FastqRecord) (r1 r2 : FastqRecord) (cid : Z) :
  (forall r, In r (records e fq_filenames) ->
     exists c fl, cluster_id (name r) = Ok c /\ final_pickle_uc e !! c = Some fl) ->
  records e fq_filenames = reads1 ++ r1 :: reads2 ++ r2 :: reads3 ->
  cluster_id (name r1) = Ok cid ->
  cluster_id (name r2) = Ok cid ->
  (forall r', In r' reads3 -> cluster_id (name r') <> Ok cid) ->
  exists w,
    pickup_best_clusters self e fq_filenames = Ok w
    /\ (In cid (hq_fa_ids w) <-> hq_test self (final_pickle_uc e) (cid, r2) = true)
    /\ (In cid (lq_fa_ids w) <-> hq_test self (final_pickle_uc e) (cid, r2) = false)
    /\ times cid (hq_fa_ids w ++ lq_fa_ids w) = 1%nat.
Proof.
  intros Hpre Hsplit Hc1 Hc2 Hlast.
  destruct (pickup_best_clusters_returns self e fq_filenames Hpre) as [w Hrun].
  exists w. split; [assumption|].
  destruct (pickup_best_clusters_spec _ _ _ _ Hrun) as (quivered & Hq & _ & Hcl).
  destruct (classify_spec _ _ _ _ _ Hcl) as (Hhq & Hlq & _ & _ & Hnd & _).
  assert (Hr2 : quivered !! cid = Some r2).
  { rewrite Hq, Hsplit.
    replace (reads1 ++ r1 :: reads2 ++ r2 :: reads3)
      with ((reads1 ++ r1 :: reads2) ++ r2 :: reads3)
      by (rewrite <- app_assoc; reflexivity).
    now apply last_read_split. }
  assert (Hone : forall b, hq_test self (final_pickle_uc e) (cid, r2) = b <->
            exists r, quivered !! cid = Some r
                      /\ hq_test self (final_pickle_uc e) (cid, r) = b).
  { intros b. split; [eauto|]. intros (r & Hr & Ht). congruence. }
  split; [now rewrite Hhq, <- Hone|]. split; [now rewrite Hlq, <- Hone|].
  apply times_present; [assumption|]. apply in_app_iff.
  destruct (hq_test self (final_pickle_uc e) (cid, r2)) eqn:Ht.
  - left. apply Hhq. eauto.
  - right. apply Hlq. eauto.
Qed.

(** C8 (as the code has it): when no two records of the completed
    files resolve to the same cluster id, giving the files to
    [pickup_best_clusters] in another order changes neither whether it
    returns nor which cluster ids are written to the HQ outputs and
    which to the LQ outputs. *)
Theorem partition_independent_of_file_order
    (fq_filenames1 fq_filenames2 : list string) (w1 : written) :
  Permutation fq_filenames1 fq_filenames2 ->
  List.NoDup (map (fun r => cluster_id (name r)) (records e fq_filenames1)) ->
  pickup_best_clusters self e fq_filenames1 = Ok w1 ->
  exists w2,
    pickup_best_clusters self e fq_filenames2 = Ok w2
    /\ forall cid,
         (In cid (hq_fa_ids w1) <-> In cid (hq_fa_ids w2))
         /\ (In cid (hq_fq_ids w1) <-> In cid (hq_fq_ids w2))
         /\ (In cid (lq_fa_ids w1) <-> In cid (lq_fa_ids w2))
         /\ (In cid (lq_fq_ids w1) <-> In cid (lq_fq_ids w2)).
Proof.
  intros Hperm Hnd Hrun.
  assert (Hreads : Permutation (records e fq_filenames1) (records e fq_filenames2)).
  { unfold records. apply concat_permutation. now apply Permutation_map. }
  destruct (pickup_best_clusters_spec _ _ _ _ Hrun) as (q1 & Hq1 & Hparse & Hcl).
  unfold pickup_best_clusters, read_quivered. rewrite for_each_concat.
  fold (records e fq_filenames2).
  destruct (add_read_loop_total (records e fq_filenames2) ∅) as [q2 Hread2].
  { intros r Hr. apply Hparse. apply (Permutation_in _ (Permutation_sym Hreads) Hr). }
  rewrite Hread2. cbn [Py.bind].
  assert (Heq : q2 = q1).
  { apply map_eq. intros cid. rewrite (add_read_loop _ _ _ Hread2 cid), Hq1.
    rewrite (last_read_permutation _ _ cid Hreads Hnd).
    destruct (last_read cid (records e fq_filenames2)); [reflexivity|apply lookup_empty]. }
  rewrite Heq. exists w1. split; [exact Hcl|]. intros cid. tauto.
Qed.

End Duplicates.

(** ** [run] *)

Section Run.
Import IceQuiverPostprocess Spec.
Context `{Externals}.
Variable self : self_t.
Variable world : nat -> env.

Lemma wait_done (fuel k0 k : nat) (c : checked) :
  wait self world fuel k0 = Some (Ok (inr (k, c))) ->
  check_quiver_jobs_completion self (world k) = Ok c /\ job_stats c = DONE.
Proof.
  revert k0. induction fuel as [|fuel IH]; intros k0; cbn [wait]; [discriminate|].
  destruct (check_quiver_jobs_completion self (world k0)) as [c0|ex] eqn:Hc; [|discriminate].
  destruct (job_stats c0) eqn:Hs.
  - destruct (quit_if_not_done self); [discriminate|]. apply IH.
  - discriminate.
  - intros Heq. inversion Heq; subst. auto.
Qed.

(** [run] classifies exactly the files listed by the pass that
    returned ["DONE"]. *)
Lemma run_classified (fuel : nat) (w : written) :
  run self world fuel = Some (Ok (Classified w)) ->
  exists k c,
    check_quiver_jobs_completion self (world k) = Ok c
    /\ job_stats c = DONE
    /\ pickup_best_clusters self (world k) (fq_filenames c) = Ok w.
Proof.
  unfold run.
  destruct (check_quiver_jobs_completion self (world 0%nat)) as [c0|ex] eqn:Hc0;
    [|discriminate].
  assert (Hdone : job_stats c0 = DONE ->
    (let* w0 := pickup_best_clusters self (world 0%nat) (fq_filenames c0) in
     Ok (Classified w0)) = Ok (Classified w) ->
    exists k c,
      check_quiver_jobs_completion self (world k) = Ok c
      /\ job_stats c = DONE
      /\ pickup_best_clusters self (world k) (fq_filenames c) = Ok w).
  { intros Hs.
    destruct (pickup_best_clusters self (world 0%nat) (fq_filenames c0)) as [w'|ex] eqn:Hp;
      cbn [Py.bind]; [|discriminate].
    intros Heq. inversion Heq; subst. exists 0%nat, c0. auto. }
  destruct (use_sge self), (job_stats c0) eqn:Hs; cbn [negb andb status_eqb];
    try discriminate;
    try (intros Heq; apply Hdone; [reflexivity|congruence]).
  all: destruct (wait self world fuel 1) as [[[code|[k c]]|ex]|] eqn:Hw; try discriminate.
  all: destruct (wait_done _ _ _ _ Hw) as [Hc Hs'].
  all: destruct (pickup_best_clusters self (world k) (fq_filenames c)) as [w'|ex] eqn:Hp;
      cbn [Py.bind]; [|discriminate].
  all: intros Heq; inversion Heq; subst; exists k, c; auto.
Qed.

(** Every cluster id written comes from a record of a listed file. *)
Lemma written_ids_come_from_records (e : env) (fq_filenames : list string)
    (w : written) (cid : Z) :
  pickup_best_clusters self e fq_filenames = Ok w ->
  In cid (hq_fa_ids w) \/ In cid (hq_fq_ids w)
    \/ In cid (lq_fa_ids w) \/ In cid (lq_fq_ids w) ->
  exists fq r, In fq fq_filenames /\ In r (FastqReader e fq)
               /\ cluster_id (name r) = Ok cid.
Proof.
  intros Hrun Hin.
  destruct (pickup_best_clusters_spec _ _ _ _ Hrun) as (quivered & Hq & _ & Hcl).
  destruct (classify_spec _ _ _ _ _ Hcl) as (Hhq & Hlq & Hfq1 & Hfq2 & _ & _).
  rewrite Hfq1, Hfq2, Hhq, Hlq in Hin.
  assert (Hr : exists r, quivered !! cid = Some r).
  { destruct Hin as [(r & Hr & _)|[(r & Hr & _)|[(r & Hr & _)|(r & Hr & _)]]]; eauto. }
  destruct Hr as [r Hr]. rewrite Hq in Hr.
  destruct (last_read_sound _ _ _ Hr) as [Hin' Hcid].
  unfold records in Hin'. apply in_concat in Hin'. destruct Hin' as (rs & Hrs & Hr').
  apply in_map_iff in Hrs. destruct Hrs as (fq & <- & Hfq). eauto.
Qed.

(** C10: when [run] goes on to classification after a pass that
    returned ["DONE"] through the local rerun of the scripts [bad],
    the files it classifies are those found present and non-empty
    when probed; the expected output of a rerun script is not among
    them, so a cluster whose records are only in such outputs is
    written to none of the four HQ and LQ outputs. *)
Theorem rerun_outputs_are_not_classified (fuel : nat) (w : written) :
  run self world fuel = Some (Ok (Classified w)) ->
  exists k c,
    check_quiver_jobs_completion self (world k) = Ok c
    /\ job_stats c = DONE
    /\ pickup_best_clusters self (world k) (fq_filenames c) = Ok w
    /\ forall bad, reruns c = [bad] ->
         (forall f, In f (fq_filenames c) -> no_output (world k) f = false)
         /\ (forall sh, In sh bad ->
               no_output (world k) (fq_of self sh) = true
               /\ ~ In (fq_of self sh) (fq_filenames c))
         /\ (forall sh r cid,
               In sh bad ->
               In r (FastqReader (world k) (fq_of self sh)) ->
               cluster_id (name r) = Ok cid ->
               (forall f r', In f (fq_filenames c) ->
                             In r' (FastqReader (world k) f) ->
                             cluster_id (name r') <> Ok cid) ->
               ~ In cid (hq_fa_ids w) /\ ~ In cid (hq_fq_ids w)
               /\ ~ In cid (lq_fa_ids w) /\ ~ In cid (lq_fq_ids w)).
Proof.
  intros Hrun. destruct (run_classified _ _ Hrun) as (k & c & Hc & Hs & Hp).
  exists k, c. split; [assumption|]. split; [assumption|]. split; [assumption|].
  intros bad Hbad.
  destruct (check_quiver_jobs_completion_spec _ _ _ Hc) as (Hfq & Hre & _).
  assert (Hmissing : forall sh, In sh bad -> no_output (world k) (fq_of self sh) = true).
  { intros sh Hsh. apply (Hre bad sh); [rewrite Hbad; now left|assumption]. }
  split; [assumption|]. split.
  - intros sh Hsh. split; [auto|]. intros Hin.
    pose proof (Hmissing sh Hsh) as Hm. rewrite (Hfq _ Hin) in Hm. discriminate.
  - intros sh r cid Hsh Hr Hcid Hother.
    assert (Hno : ~ (In cid (hq_fa_ids w) \/ In cid (hq_fq_ids w)
                     \/ In cid (lq_fa_ids w) \/ In cid (lq_fq_ids w))).
    { intros Hin.
      destruct (written_ids_come_from_records _ _ _ _ Hp Hin) as (f & r' & Hf & Hr' & Hc').
      exact (Hother f r' Hf Hr' Hc'). }
    tauto.
Qed.

End Run.

(** * Further properties of the code *)

(** ** Loops that stop at the first exception *)

Section ForEachRaises.
Context {A S : Type}.
Variable body : S -> A -> result S.

(** A loop with a turn that raises in every state does not return. *)
Lemma for_each_stops (xs : list A) (x : A) (st : S) :
  In x xs -> (forall s, exists ex, body s x = Raise ex) ->
  exists ex, Py.for_each body xs st = Raise ex.
Proof.
  revert st. induction xs as [|y xs IH]; intros st Hin Hx; [destruct Hin|].
  cbn [Py.for_each]. destruct (body st y) as [st'|ex] eqn:E; cbn [Py.bind]; [|eauto].
  destruct Hin as [->|Hin]; [|now apply IH].
  destruct (Hx st) as [ex Hex]. congruence.
Qed.

(** When [ex0] is the only exception the body raises, it is the one
    the loop raises. *)
Lemma for_each_raises (ex0 : Py.exception) (xs : list A) (x : A) (st : S) :
  (forall s y ex, body s y = Raise ex -> ex = ex0) ->
  In x xs -> (forall s, body s x = Raise ex0) ->
  Py.for_each body xs st = Raise ex0.
Proof.
  intros Honly Hin Hx.
  destruct (for_each_stops xs x st Hin) as [ex Hex]; [eauto|].
  rewrite Hex. f_equal. revert st Hex. clear Hin Hx.
  induction xs as [|y xs IH]; intros st Hex; cbn [Py.for_each] in Hex; [discriminate|].
  destruct (body st y) as [st'|ex'] eqn:E; cbn [Py.bind] in Hex.
  - exact (IH _ Hex).
  - inversion Hex; subst. exact (Honly _ _ _ E).
Qed.

End ForEachRaises.

(** ** The existence probe, completely *)

(** X1: [nfs_exists] answers [True] exactly when the deciding [open]
    succeeds or fails with errno 21 (is a directory), the deciding
    [open] being the first one unless that fails with errno 2, and the
    second one then.  Every other failure, such as a file that exists
    but may not be read, is answered [False], without a second try. *)
Theorem nfs_exists_true_iff (fs : string -> nat -> Utils.open_result) (fn : string) :
  fst (Utils.run_nfs_exists fs fn) = true <->
  fs fn 0%nat = Utils.Opened
  \/ fs fn 0%nat = Utils.IOError Utils.ERROR_IS_DIRECTORY
  \/ (fs fn 0%nat = Utils.IOError Utils.ERROR_NO_SUCH_FILE_OR_DIRECTORY
      /\ (fs fn 1%nat = Utils.Opened
          \/ fs fn 1%nat = Utils.IOError Utils.ERROR_IS_DIRECTORY)).
Proof.
  assert (Hdir : forall r, match r with
                           | Utils.Opened => true
                           | Utils.IOError errno => errno =? Utils.ERROR_IS_DIRECTORY
                           end = true <->
                           r = Utils.Opened \/ r = Utils.IOError Utils.ERROR_IS_DIRECTORY).
  { intros [|errno]; [intuition congruence|]. rewrite Z.eqb_eq. split.
    - intros ->. now right.
    - intros [Hc|Hc]; [discriminate|now inversion Hc]. }
  assert (fs fn 0%nat = Utils.IOError Utils.ERROR_NO_SUCH_FILE_OR_DIRECTORY
          \/ fs fn 0%nat <> Utils.IOError Utils.ERROR_NO_SUCH_FILE_OR_DIRECTORY)
    as [H0|H0].
  { destruct (fs fn 0%nat) as [|errno]; [right; discriminate|].
    destruct (Z.eq_dec errno Utils.ERROR_NO_SUCH_FILE_OR_DIRECTORY) as [->|Hne];
      [now left | right; congruence]. }
  - rewrite (nfs_exists_second_probe fs fn H0). cbn [fst]. rewrite Hdir, H0. split.
    + intros Hd. right. right. auto.
    + intros [Hc|[Hc|[_ Hd]]]; [discriminate|discriminate|assumption].
  - rewrite (nfs_exists_first_probe fs fn H0). cbn [fst]. rewrite Hdir. split.
    + intros [Hd|Hd]; auto.
    + intros [Hd|[Hd|[Hc _]]]; [auto|auto|contradiction].
Qed.

(** ** More on the job reconciler *)

Section ReconcilerMore.
Import IceQuiverPostprocess Spec.
Variable self : self_t.
Variable e : env.

(** X2: a ledger line that does not have exactly two tab-separated
    fields once stripped makes the pass raise [ValueError], wherever
    the line stands and whatever the state of the jobs. *)
Theorem malformed_ledger_line_raises (line : string) :
  In line (submitted_quiver_jobs_log e) ->
  length (Py.split "009" (Py.strip line)) <> 2%nat ->
  check_quiver_jobs_completion self e = Raise Py.ValueError.
Proof.
  intros Hin Hlen. unfold check_quiver_jobs_completion.
  rewrite (for_each_raises read_line Py.ValueError _ line); [reflexivity| |assumption|].
  - intros [sub used] y ex. unfold read_line.
    destruct (Py.split "009" (Py.strip y)) as [|a [|b [|c l]]];
      try (intros Heq; now inversion Heq).
    destruct (String.eqb a "local"); discriminate.
  - intros [sub used]. unfold read_line.
    destruct (Py.split "009" (Py.strip line)) as [|a [|b [|c l]]]; try reflexivity.
    now destruct Hlen.
Qed.

(** X3: a pass calls [locally_run_failed_quiver_jobs] at most once, on
    a list that is not empty.  It returns ["RUNNING"] only without such
    a call, ["FAILED"] only after a call that left some script without
    output; after a call that left none it returns ["DONE"]. *)
Theorem job_stats_and_reruns (c : checked) :
  check_quiver_jobs_completion self e = Ok c ->
  (length (reruns c) <= 1)%nat
  /\ (forall bad, In bad (reruns c) -> bad <> [])
  /\ (job_stats c = RUNNING -> reruns c = [])
  /\ (job_stats c = FAILED ->
        exists bad, reruns c = [bad] /\ locally_run_failed_quiver_jobs e bad <> [])
  /\ (forall bad, reruns c = [bad] ->
        (job_stats c = DONE <-> locally_run_failed_quiver_jobs e bad = [])).
Proof.
  unfold check_quiver_jobs_completion.
  destruct (Py.for_each read_line (submitted_quiver_jobs_log e) (∅, false))
    as [[submitted sge_used]|ex]; cbn [Py.bind]; [|discriminate].
  set (scan := if sge_used && use_sge self then _ else _).
  destruct scan as [[running_jids done_flag0]|ex]; cbn [Py.bind]; [|discriminate].
  destruct (Py.for_each (check_job self e running_jids) (map_to_list submitted) _)
    as [st|ex]; cbn [Py.bind]; [|discriminate].
  destruct (negb (done_flag st)).
  - destruct (Py.len (bad_sh st) =? 0) eqn:Hlen.
    + intros Heq; inversion Heq; subst; clear Heq. cbn.
      repeat split; try lia; try discriminate; intros ? [].
    + assert (Hne : bad_sh st <> []).
      { intros Hnil. rewrite Hnil in Hlen. discriminate. }
      destruct (0 <? Py.len (locally_run_failed_quiver_jobs e (bad_sh st))) eqn:Hstill;
        intros Heq; inversion Heq; subst; clear Heq; cbn.
      * assert (Hsome : locally_run_failed_quiver_jobs e (bad_sh st) <> []).
        { intros Hnil. rewrite Hnil in Hstill. discriminate. }
        repeat split; try lia; try discriminate.
        -- intros bad [<-|[]]. assumption.
        -- intros _. eauto.
        -- intros Hb. inversion H; subst. contradiction.
      * assert (Hnone : locally_run_failed_quiver_jobs e (bad_sh st) = []).
        { destruct (locally_run_failed_quiver_jobs e (bad_sh st)); [reflexivity|].
          unfold Py.len in Hstill. cbn in Hstill. apply Z.ltb_ge in Hstill. lia. }
        repeat split; try lia; try discriminate.
        -- intros bad [<-|[]]. assumption.
        -- intros _. inversion H; subst. assumption.
  - intros Heq; inversion Heq; subst; clear Heq. cbn.
    repeat split; try lia; try discriminate; intros ? [].
Qed.

End ReconcilerMore.
(** ** More on [run] *)

Section RunMore.
Import IceQuiverPostprocess Spec.
Context `{Externals}.
Variable self : self_t.
Variable world : nat -> env.

Lemma wait_returns (fuel k0 : nat) (code : Z) :
  wait self world fuel k0 = Some (Ok (inl code)) ->
  exists k c,
    (k0 <= k)%nat /\ check_quiver_jobs_completion self (world k) = Ok c
    /\ ((code = 1 /\ job_stats c = FAILED)
        \/ (code = 0 /\ job_stats c = RUNNING /\ quit_if_not_done self = true)).
Proof.
  revert k0. induction fuel as [|fuel IH]; intros k0; cbn [wait]; [discriminate|].
  destruct (check_quiver_jobs_completion self (world k0)) as [c0|ex] eqn:Hc; [|discriminate].
  destruct (job_stats c0) eqn:Hs.
  - destruct (quit_if_not_done self) eqn:Hq.
    + intros Heq. inversion Heq; subst. exists k0, c0. auto 6.
    + intros Hw. destruct (IH _ Hw) as (k & c & Hk & Hrest). exists k, c.
      split; [lia|assumption].
  - intros Heq. inversion Heq; subst. exists k0, c0. auto 6.
  - discriminate.
Qed.

Lemma wait_reaches (k : nat) (c : checked) :
  check_quiver_jobs_completion self (world k) = Ok c -> job_stats c = DONE ->
  quit_if_not_done self = false ->
  forall fuel k0,
    (k0 <= k)%nat -> (k - k0 < fuel)%nat ->
    (forall j, (k0 <= j < k)%nat ->
       exists cj, check_quiver_jobs_completion self (world j) = Ok cj
                  /\ job_stats cj = RUNNING) ->
    wait self world fuel k0 = Some (Ok (inr (k, c))).
Proof.
  intros Hc Hs Hq. induction fuel as [|fuel IH]; intros k0 Hle Hfuel Hrun; [lia|].
  cbn [wait]. destruct (Nat.eq_dec k0 k) as [->|Hne].
  - rewrite Hc, Hs. reflexivity.
  - destruct (Hrun k0) as (cj & Hcj & Hsj); [lia|]. rewrite Hcj, Hsj, Hq.
    apply IH; [lia|lia|]. intros j Hj. apply Hrun. lia.
Qed.

(** X4: what the return codes of [run] mean.  [-1] is returned only
    without [use_sge], after a first pass that did not return
    ["DONE"]; with [use_sge], [1] is returned only after a pass other
    than the first returned ["FAILED"], and [0] only with
    [quit_if_not_done] after a pass other than the first returned
    ["RUNNING"]. *)
Theorem run_return_codes (fuel : nat) (code : Z) :
  run self world fuel = Some (Ok (Return code)) ->
  (code = -1 /\ use_sge self = false
   /\ exists c0, check_quiver_jobs_completion self (world 0%nat) = Ok c0
                 /\ job_stats c0 <> DONE)
  \/ (use_sge self = true
      /\ exists k c,
           (1 <= k)%nat /\ check_quiver_jobs_completion self (world k) = Ok c
           /\ ((code = 1 /\ job_stats c = FAILED)
               \/ (code = 0 /\ job_stats c = RUNNING
                   /\ quit_if_not_done self = true))).
Proof.
  unfold run.
  destruct (check_quiver_jobs_completion self (world 0%nat)) as [c0|ex] eqn:Hc0;
    [|discriminate].
  destruct (use_sge self) eqn:Hu, (job_stats c0) eqn:Hs; cbn [negb andb status_eqb].
  1,2: destruct (wait self world fuel 1) as [[[code'|[k c]]|ex]|] eqn:Hw; try discriminate;
       [intros Heq; inversion Heq; subst; right; split; [reflexivity|];
        exact (wait_returns _ _ _ Hw)
       |destruct (pickup_best_clusters self (world k) (fq_filenames c)); discriminate].
  1,4: destruct (pickup_best_clusters self (world 0%nat) (fq_filenames c0)); discriminate.
  all: intros Heq; inversion Heq; subst; left;
       (split; [reflexivity|]); (split; [reflexivity|]);
       exists c0; split; [reflexivity|congruence].
Qed.

(** X5: with [quit_if_not_done], [run] makes at most two passes: it
    ends, and ends the same way, as soon as the loop may take one
    turn. *)
Theorem run_with_quit_makes_two_passes :
  quit_if_not_done self = true ->
  exists r, forall fuel, (1 <= fuel)%nat -> run self world fuel = Some r.
Proof.
  intros Hq.
  assert (Hwait : exists r, forall fuel, (1 <= fuel)%nat -> wait self world fuel 1 = Some r).
  { destruct (check_quiver_jobs_completion self (world 1%nat)) as [c|ex] eqn:Hc.
    - destruct (job_stats c) eqn:Hs;
        eexists; intros [|fuel] Hf; try lia; cbn [wait]; rewrite Hc, Hs, ?Hq; reflexivity.
    - eexists; intros [|fuel] Hf; try lia; cbn [wait]; rewrite Hc; reflexivity. }
  destruct Hwait as [rw Hrw]. unfold run.
  destruct (check_quiver_jobs_completion self (world 0%nat)) as [c0|ex];
    [|eexists; reflexivity].
  destruct (negb (use_sge self) && negb (status_eqb (job_stats c0) DONE));
    [eexists; reflexivity|].
  destruct (use_sge self && negb (status_eqb (job_stats c0) DONE));
    [|eexists; reflexivity].
  destruct rw as [[code|[k c']]|ex];
    eexists; intros fuel Hf; rewrite (Hrw fuel Hf); reflexivity.
Qed.

(** X6: with [use_sge] and without [quit_if_not_done], a first pass
    that did not return ["DONE"] (["RUNNING"] or ["FAILED"] alike)
    followed by passes that return ["RUNNING"] and then by a pass [k]
    that returns ["DONE"] makes [run] classify the files listed by
    pass [k], provided the loop may take [k] turns. *)
Theorem run_waits_until_done (k fuel : nat) (c0 c : checked) :
  use_sge self = true ->
  quit_if_not_done self = false ->
  check_quiver_jobs_completion self (world 0%nat) = Ok c0 ->
  job_stats c0 <> DONE ->
  (1 <= k)%nat ->
  (forall j, (1 <= j < k)%nat ->
     exists cj, check_quiver_jobs_completion self (world j) = Ok cj
                /\ job_stats cj = RUNNING) ->
  check_quiver_jobs_completion self (world k) = Ok c ->
  job_stats c = DONE ->
  (k <= fuel)%nat ->
  run self world fuel =
  Some (let* w := pickup_best_clusters self (world k) (fq_filenames c) in
        Ok (Classified w)).
Proof.
  intros Hu Hq Hc0 Hs0 Hk Hrun Hc Hs Hfuel. unfold run. rewrite Hc0, Hu.
  cbn [negb andb].
  assert (Hn : status_eqb (job_stats c0) DONE = false)
    by (destruct (job_stats c0); [reflexivity|reflexivity|now destruct Hs0]).
  rewrite Hn. cbn [negb].
  rewrite (wait_reaches k c Hc Hs Hq fuel 1%nat); [reflexivity|lia|lia|assumption].
Qed.

End RunMore.
(** ** More on [pickup_best_clusters] *)

Section ForEachOnly.
Context {A S : Type}.
Variable body : S -> A -> result S.

(** A loop raises only what its body raises. *)
Lemma for_each_raises_only (ex0 : Py.exception) (xs : list A) (st : S) (ex : Py.exception) :
  (forall s y ex', body s y = Raise ex' -> ex' = ex0) ->
  Py.for_each body xs st = Raise ex -> ex = ex0.
Proof.
  intros Honly. revert st. induction xs as [|y xs IH]; intros st Hex;
    cbn [Py.for_each] in Hex; [discriminate|].
  destruct (body st y) as [st'|ex'] eqn:E; cbn [Py.bind] in Hex.
  - exact (IH _ Hex).
  - inversion Hex; subst. exact (Honly _ _ _ E).
Qed.

End ForEachOnly.

Section PickupMore.
Import IceQuiverPostprocess Spec SpecMore.
Context `{Externals}.
Variable self : self_t.
Variable e : env.

(** The name under which the record [r] of cluster [cid] is written. *)
Let newname (fl : list string) (cid : Z) (r : FastqRecord) : string :=
  cid_with_annotation
    (newname_of cid (Py.len fl)
       (Py.len (partial_uc2 (nfl_all_pickle_partial_uc e) cid))
       (Z.of_nat (String.length (sequence r)))).

(** What the writing loop keeps true of the four streams. *)
Let written_from (items : list (Z * FastqRecord)) (w : written) : Prop :=
  map fasta_of (good_fq w) = good_fa w
  /\ map fasta_of (bad_fq w) = bad_fa w
  /\ forall cid nm seq qual,
       In (cid, (nm, seq, qual)) (good_fq w ++ bad_fq w) ->
       exists r fl,
         In (cid, r) items /\ final_pickle_uc e !! cid = Some fl
         /\ nm = newname fl cid r /\ seq = sequence r /\ qual = quality r.

Lemma write_cluster_written_from (good : list Z) (items : list (Z * FastqRecord))
    (w w' : written) (item : Z * FastqRecord) :
  In item items -> written_from items w ->
  write_cluster (final_pickle_uc e) (nfl_all_pickle_partial_uc e) good w item = Ok w' ->
  written_from items w'.
Proof.
  destruct item as [cid r]. intros Hitem (Hg & Hb & Hall). unfold write_cluster.
  destruct (final_pickle_uc e !! cid) as [fl|] eqn:Hfl; [|discriminate].
  assert (Hnew : forall cid' nm seq qual,
            (cid', (nm, seq, qual)) = (cid, (newname fl cid r, sequence r, quality r)) ->
            exists r0 fl0,
              In (cid', r0) items /\ final_pickle_uc e !! cid' = Some fl0
              /\ nm = newname fl0 cid' r0 /\ seq = sequence r0 /\ qual = quality r0).
  { intros cid' nm seq qual Heq. inversion Heq; subst. exists r, fl. auto. }
  destruct (Py.int_in cid good); intros Heq; inversion Heq; subst; clear Heq;
    unfold written_from; cbn [good_fa bad_fa good_fq bad_fq];
    rewrite ?map_app, ?Hg, ?Hb; cbn [map fasta_of fst snd];
    (split; [reflexivity|]); (split; [reflexivity|]);
    intros cid' nm seq qual Hin;
    rewrite !in_app_iff in Hin; cbn [In] in Hin.
  - destruct Hin as [[Hin|[Heq|[]]]|Hin];
      [apply Hall, in_app_iff; auto|now apply Hnew|apply Hall, in_app_iff; auto].
  - destruct Hin as [Hin|[Hin|[Heq|[]]]];
      [apply Hall, in_app_iff; auto|apply Hall, in_app_iff; auto|now apply Hnew].
Qed.

(** X7: when [pickup_best_clusters] returns, the fastq outputs hold the
    fasta outputs with the quality values added, record by record and
    in the same order; every record written for a cluster id carries
    the sequence and the quality values of the record kept for that id,
    unchanged, under the name made by [cid_with_annotation] from
    ["c{cid}/f{flnc_num}p{nfl_num}/{read_len}"], with the count of
    [uc[cid]], the count of [partial_uc[cid]] (0 when the key is
    missing) and the length of the sequence. *)
Theorem written_records_are_the_kept_records (fq_filenames : list string) (w : written) :
  pickup_best_clusters self e fq_filenames = Ok w ->
  map fasta_of (good_fq w) = good_fa w
  /\ map fasta_of (bad_fq w) = bad_fa w
  /\ forall cid nm seq qual,
       In (cid, (nm, seq, qual)) (good_fq w ++ bad_fq w) ->
       exists r fl,
         last_read cid (records e fq_filenames) = Some r
         /\ final_pickle_uc e !! cid = Some fl
         /\ nm = cid_with_annotation
                   (newname_of cid (Py.len fl)
                      (Py.len (default [] (nfl_all_pickle_partial_uc e !! cid)))
                      (Z.of_nat (String.length seq)))
         /\ seq = sequence r /\ qual = quality r.
Proof.
  intros Hrun.
  destruct (pickup_best_clusters_spec _ _ _ _ Hrun) as (quivered & Hq & _ & Hcl).
  unfold classify in Hcl.
  destruct (Py.for_each (pick self (final_pickle_uc e)) (map_to_list quivered) [])
    as [good|ex]; cbn [Py.bind] in Hcl; [|discriminate].
  assert (Hw : written_from (map_to_list quivered) w).
  { eapply (for_each_invariant _ (written_from (map_to_list quivered))); [| |exact Hcl].
    - intros s x s' Hx. now apply write_cluster_written_from.
    - split; [reflexivity|]. split; [reflexivity|]. intros ? ? ? ? []. }
  destruct Hw as (Hg & Hb & Hall). split; [assumption|]. split; [assumption|].
  intros cid nm seq qual Hin.
  destruct (Hall _ _ _ _ Hin) as (r & fl & Hitem & Hfl & Hnm & Hseq & Hqual).
  exists r, fl. apply list_elem_of_In, elem_of_map_to_list in Hitem.
  rewrite Hq in Hitem. subst seq. auto 6.
Qed.

(** X8: a cluster id that is not a key of [uc] is fatal.  When the
    names of all records resolve and one of them resolves to an id
    missing from [uc], [pickup_best_clusters] raises [KeyError]; the
    cluster is not sent to LQ. *)
Theorem missing_uc_key_raises (fq_filenames : list string) (r : FastqRecord) (cid : Z) :
  (forall r', In r' (records e fq_filenames) ->
     exists c, cluster_id (name r') = Ok c) ->
  In r (records e fq_filenames) ->
  cluster_id (name r) = Ok cid ->
  final_pickle_uc e !! cid = None ->
  pickup_best_clusters self e fq_filenames = Raise Py.KeyError.
Proof.
  intros Hparse Hin Hcid Hnone.
  unfold pickup_best_clusters, read_quivered. rewrite for_each_concat.
  fold (records e fq_filenames).
  destruct (add_read_loop_total (records e fq_filenames) ∅ Hparse) as [quivered Hread].
  rewrite Hread. cbn [Py.bind].
  assert (Hkey : exists r', In (cid, r') (map_to_list quivered)).
  { destruct (last_read cid (records e fq_filenames)) as [r'|] eqn:El.
    - exists r'. apply list_elem_of_In, elem_of_map_to_list.
      now rewrite (add_read_loop _ _ _ Hread cid), El.
    - destruct (proj1 (last_read_none _ _) El r Hin Hcid). }
  destruct Hkey as [r' Hitem]. unfold classify.
  destruct (Py.for_each (pick self (final_pickle_uc e)) (map_to_list quivered) [])
    as [good|ex] eqn:Hpick; cbn [Py.bind].
  - apply (for_each_raises _ Py.KeyError _ (cid, r')); [|assumption|].
    + intros w [c r0] ex. unfold write_cluster.
      destruct (final_pickle_uc e !! c); [|intros Heq; now inversion Heq].
      destruct (Py.int_in c good); discriminate.
    + intros w. unfold write_cluster. now rewrite Hnone.
  - f_equal. apply (for_each_raises_only _ Py.KeyError _ _ _) in Hpick; [assumption|].
    intros good [c r0] ex'. unfold pick.
    destruct (negb (qv_len self r0 =? 0)); [|discriminate].
    destruct (Qle_bool (hq_quiver_min_accuracy self) (accuracy self r0)); [|discriminate].
    destruct (final_pickle_uc e !! c) as [fl|]; [|intros Heq; now inversion Heq].
    destruct (2 <=? Py.len fl); discriminate.
Qed.

(** X9: one record whose name does not resolve to a cluster id makes
    [pickup_best_clusters] raise: no record of any file is
    classified. *)
Theorem unresolved_name_aborts (fq_filenames : list string) (r : FastqRecord)
    (ex : Py.exception) :
  In r (records e fq_filenames) ->
  cluster_id (name r) = Raise ex ->
  exists ex', pickup_best_clusters self e fq_filenames = Raise ex'.
Proof.
  intros Hin Hex. unfold pickup_best_clusters, read_quivered. rewrite for_each_concat.
  fold (records e fq_filenames).
  destruct (for_each_stops add_read (records e fq_filenames) r ∅ Hin) as [ex' Hex'].
  - intros q. exists ex. unfold add_read. now rewrite Hex.
  - exists ex'. now rewrite Hex'.
Qed.

(** X10: lowering the accuracy threshold and changing nothing else
    never fails a call that returned, never takes a cluster out of HQ
    and never puts one into LQ. *)
Theorem lower_threshold_keeps_hq (fq_filenames : list string) (w1 : written) (c : Q) :
  (c <= hq_quiver_min_accuracy self)%Q ->
  pickup_best_clusters self e fq_filenames = Ok w1 ->
  exists w2,
    pickup_best_clusters (with_min_accuracy self c) e fq_filenames = Ok w2
    /\ (forall cid, In cid (hq_fa_ids w1) -> In cid (hq_fa_ids w2))
    /\ (forall cid, In cid (lq_fa_ids w2) -> In cid (lq_fa_ids w1)).
Proof.
  intros Hle Hrun.
  destruct (pickup_best_clusters_spec _ _ _ _ Hrun) as (q1 & Hq1 & Hparse & Hcl1).
  destruct (classify_spec _ _ _ _ _ Hcl1) as (Hhq1 & Hlq1 & _ & _ & _ & Huc).
  destruct (pickup_best_clusters_returns (with_min_accuracy self c) e fq_filenames)
    as [w2 Hrun2].
  { intros r Hr. destruct (Hparse r Hr) as [cid Hcid].
    destruct (last_read cid (records e fq_filenames)) as [r'|] eqn:El.
    - destruct (Huc cid r') as [fl Hfl]; [now rewrite Hq1|]. eauto.
    - destruct (proj1 (last_read_none _ _) El r Hr Hcid). }
  exists w2. split; [assumption|].
  destruct (pickup_best_clusters_spec _ _ _ _ Hrun2) as (q2 & Hq2 & _ & Hcl2).
  destruct (classify_spec _ _ _ _ _ Hcl2) as (Hhq2 & Hlq2 & _ & _ & _ & _).
  assert (Hmono : forall cid r,
            hq_test self (final_pickle_uc e) (cid, r) = true ->
            hq_test (with_min_accuracy self c) (final_pickle_uc e) (cid, r) = true).
  { intros cid r. unfold hq_test. cbn [fst snd].
    change (qv_len (with_min_accuracy self c) r) with (qv_len self r).
    change (accuracy (with_min_accuracy self c) r) with (accuracy self r).
    cbn [hq_quiver_min_accuracy with_min_accuracy].
    rewrite !andb_true_iff, !Qle_bool_iff. intros [[Hw Hacc] Hsup].
    repeat split; try assumption. now apply (Qle_trans _ (hq_quiver_min_accuracy self)). }
  split.
  - intros cid Hin. apply Hhq1 in Hin. destruct Hin as (r & Hr & Ht).
    apply Hhq2. exists r. split; [now rewrite Hq2, <- Hq1|now apply Hmono].
  - intros cid Hin. apply Hlq2 in Hin. destruct Hin as (r & Hr & Ht).
    apply Hlq1. exists r. split; [now rewrite Hq1, <- Hq2|].
    destruct (hq_test self (final_pickle_uc e) (cid, r)) eqn:Ht1; [|reflexivity].
    rewrite (Hmono _ _ Ht1) in Ht. discriminate.
Qed.

End PickupMore.
(** ** The identifier resolver *)

Lemma chars_length (s : string) : length (Py.chars s) = String.length s.
Proof. unfold Py.chars. induction s as [|c s IH]; cbn; [reflexivity|now f_equal]. Qed.

Lemma of_chars_chars (s : string) : Py.of_chars (Py.chars s) = s.
Proof. apply string_of_list_ascii_of_string. Qed.

Lemma chars_of_chars (l : list ascii) : Py.chars (Py.of_chars l) = l.
Proof. apply list_ascii_of_string_of_list_ascii. Qed.

Lemma before_without (c : ascii) (s : string) :
  ~ In c (Py.chars s) -> Py.before c s = s.
Proof.
  induction s as [|d s IH]; cbn; [reflexivity|]. intros Hnin.
  destruct (Ascii.eqb_spec c d) as [->|_]; [destruct Hnin; now left|].
  f_equal. apply IH. intros Hin. apply Hnin. now right.
Qed.

Lemma before_append (c : ascii) (s t : string) :
  ~ In c (Py.chars s) -> Py.before c (s +:+ String c t) = s.
Proof.
  induction s as [|d s IH]; cbn; intros Hnin.
  - now rewrite Ascii.eqb_refl.
  - destruct (Ascii.eqb_spec c d) as [->|_]; [destruct Hnin; now left|].
    f_equal. apply IH. intros Hin. apply Hnin. now right.
Qed.

Lemma find_from_without (c : ascii) (s : string) (i : Z) :
  ~ In c (Py.chars s) -> Py.find_from c s i = -1.
Proof.
  revert i. induction s as [|d s IH]; cbn; intros i Hnin; [reflexivity|].
  destruct (Ascii.eqb_spec c d) as [->|_]; [destruct Hnin; now left|].
  apply IH. intros Hin. apply Hnin. now right.
Qed.



(** [l[0:-k]] drops the last [k] elements. *)
Lemma slice_0_minus {A} (l : list A) (k : Z) :
  0 < k <= Py.len l -> Py.slice l 0 (- k) = firstn (Z.to_nat (Py.len l - k)) l.
Proof.
  unfold Py.slice, Py.clamp, Py.len. intros Hk.
  destruct (Z.ltb_spec (- k) 0) as [_|?]; [|lia].
  destruct (Z.ltb_spec 0 0) as [?|_]; [lia|].
  rewrite (Z.min_l 0), Z.max_r, Z.sub_0_r by lia. cbn [Z.to_nat skipn].
  f_equal. lia.
Qed.

(** [l[lo:]] drops the first [lo] elements. *)
Lemma slice_from {A} (l : list A) (lo : Z) :
  0 <= lo <= Py.len l -> Py.slice l lo (Py.len l) = skipn (Z.to_nat lo) l.
Proof.
  unfold Py.slice, Py.clamp, Py.len. intros Hlo.
  destruct (Z.ltb_spec lo 0) as [?|_]; [lia|].
  destruct (Z.ltb_spec (Z.of_nat (length l)) 0) as [?|_]; [lia|].
  rewrite Z.min_id, (Z.min_l lo) by lia.
  apply firstn_all2. rewrite length_skipn. lia.
Qed.


(** [(a + s)[1:]] is [s] for a character [a]. *)
Lemma str_from_1 (a : ascii) (s : string) : Py.str_from (String a s) 1 = s.
Proof.
  unfold Py.str_from, Py.str_slice. rewrite slice_from.
  - change (Py.chars (String a s)) with (a :: Py.chars s). cbn. apply of_chars_chars.
  - change (Py.chars (String a s)) with (a :: Py.chars s). unfold Py.len. cbn [length]. lia.
Qed.

Lemma substring_chars (a k : nat) (s : string) :
  Py.chars (substring a k s) = firstn k (skipn a (Py.chars s)).
Proof.
  unfold Py.chars. revert a k. induction s as [|c s IH]; intros [|a] [|k]; cbn;
    try reflexivity.
  - now rewrite (IH 0%nat k).
  - now rewrite (IH a 0%nat).
  - now rewrite (IH a (S k)).
Qed.


Section Resolver.
Import IceQuiverPostprocess.
Context `{Externals}.

(** X11: whatever follows the first ['|'] of a name plays no part in
    the cluster id. *)
Theorem cluster_id_ignores_annotation (token annotation : string) :
  ~ In "|"%char (Py.chars token) ->
  cluster_id (token +:+ "|" +:+ annotation) = cluster_id token.
Proof.
  intros Hbar. unfold cluster_id. cbn [String.append].
  now rewrite before_append, before_without.
Qed.



(** X13: a token without a slash that ends with [_ref], one character
    followed by [digits] and [_ref], resolves to [int(digits)]. *)
Theorem cluster_id_with_ref (a : ascii) (digits : string) :
  ~ In "/"%char (Py.chars (String a digits)) ->
  ~ In "|"%char (Py.chars (String a digits)) ->
  cluster_id (String a (digits +:+ "_ref")) = py_int digits.
Proof.
  intros Hslash Hbar. unfold cluster_id.
  assert (Hno : forall c : ascii, c = "/"%char \/ c = "|"%char ->
            ~ In c (Py.chars (String a digits)) ->
            ~ In c (Py.chars (String a (digits +:+ "_ref")))).
  { intros c Hc Hnin. change (String a (digits +:+ "_ref")) with (String a digits +:+ "_ref").
    rewrite append_chars, in_app_iff. intros [Hin|Hin]; [contradiction|].
    cbn in Hin. destruct Hc; subst c; intuition discriminate. }
  rewrite (before_without _ _ (Hno _ (or_intror eq_refl) Hbar)).
  assert (Hend : Py.endswith "_ref" (String a (digits +:+ "_ref")) = true).
  { change (String a (digits +:+ "_ref")) with (String a digits +:+ "_ref").
    unfold Py.endswith. apply andb_true_iff. split.
    - apply Nat.leb_le. rewrite <- !chars_length, append_chars, length_app. lia.
    - apply String.eqb_eq, chars_inj. rewrite substring_chars, append_chars.
      rewrite <- !chars_length, append_chars, length_app.
      replace (length (Py.chars (String a digits)) + length (Py.chars "_ref")
               - length (Py.chars "_ref"))%nat
        with (length (Py.chars (String a digits)) + 0)%nat by lia.
      rewrite skipn_app, Nat.add_0_r, skipn_all, Nat.sub_diag. cbn [app skipn].
      apply firstn_all. }
  rewrite Hend.
  assert (Hcut : Py.str_slice (String a (digits +:+ "_ref")) 0 (-4) = String a digits).
  { change (String a (digits +:+ "_ref")) with (String a digits +:+ "_ref").
    apply chars_inj. unfold Py.str_slice. rewrite chars_of_chars.
    change (-4) with (- (4)). rewrite slice_0_minus.
    + unfold Py.len. rewrite append_chars, length_app.
      change (length (Py.chars "_ref")) with 4%nat.
      replace (Z.to_nat _) with (length (Py.chars (String a digits)) + 0)%nat by lia.
      rewrite firstn_app_2. cbn [firstn]. apply app_nil_r.
    + unfold Py.len. rewrite append_chars, length_app.
      change (length (Py.chars "_ref")) with 4%nat. lia. }
  rewrite Hcut. unfold Py.find. rewrite (find_from_without _ _ _ Hslash).
  cbn [Z.ltb Z.compare]. now rewrite str_from_1.
Qed.

End Resolver.
(** ** [revcmp] *)

Section Revcmp.
Import UtilsRest.

Lemma NTMAP_involutive (x y : ascii) : NTMAP x = Some y -> NTMAP y = Some x.
Proof.
  unfold NTMAP at 1.
  repeat match goal with
         | |- context [Ascii.eqb x ?c] =>
             destruct (Ascii.eqb_spec x c) as [->|_];
             [intros Heq; inversion Heq; reflexivity|]
         end.
  discriminate.
Qed.

Lemma NTMAP_not_space (x y : ascii) : NTMAP x = Some y -> Py.is_space x = false.
Proof.
  unfold NTMAP.
  repeat match goal with
         | |- context [Ascii.eqb x ?c] =>
             destruct (Ascii.eqb_spec x c) as [->|_]; [reflexivity|]
         end.
  discriminate.
Qed.

Lemma complement_app (a b : list ascii) :
  complement (a ++ b) =
  let* a' := complement a in let* b' := complement b in Ok (a' ++ b').
Proof.
  induction a as [|x a IH]; cbn.
  - now destruct (complement b).
  - destruct (NTMAP x); [|reflexivity]. rewrite IH.
    destruct (complement a); cbn; [|reflexivity]. now destruct (complement b).
Qed.

(** The complement of a list over the alphabet, and back. *)
Lemma complement_valid (l : list ascii) :
  (forall x, In x l -> NTMAP x <> None) ->
  exists l', complement l = Ok l' /\ length l' = length l
             /\ complement (rev l') = Ok (rev l)
             /\ (forall y, In y l' -> NTMAP y <> None).
Proof.
  induction l as [|x l IH]; intros Hall.
  - exists []. repeat split. intros y [].
  - destruct (NTMAP x) as [y|] eqn:Hx; [|destruct (Hall x (or_introl eq_refl) Hx)].
    destruct IH as (l' & Hl' & Hlen & Hback & Hvalid).
    { intros z Hz. apply Hall. now right. }
    exists (y :: l'). cbn. rewrite Hx, Hl'. cbn. repeat split.
    + now f_equal.
    + rewrite complement_app, Hback. cbn. now rewrite (NTMAP_involutive _ _ Hx).
    + intros z [<-|Hz]; [|now apply Hvalid].
      rewrite (NTMAP_involutive _ _ Hx). discriminate.
Qed.

Lemma complement_raises (l : list ascii) :
  (exists x, In x l /\ NTMAP x = None) <-> complement l = Raise Py.KeyError.
Proof.
  induction l as [|x l IH]; cbn.
  - split; [intros (x & [] & _)|discriminate].
  - destruct (NTMAP x) as [y|] eqn:Hx.
    + destruct (complement l) as [l'|ex]; cbn.
      * split; [|discriminate]. intros (z & [<-|Hz] & Hnone); [congruence|].
        apply proj1 in IH. discriminate IH. eauto.
      * split; [|intros Heq; inversion Heq; subst; apply proj2 in IH;
                 destruct (IH eq_refl) as (z & Hz & Hn); eauto].
        intros (z & [<-|Hz] & Hnone); [congruence|].
        f_equal. apply proj1 in IH. assert (Hr : Raise ex = Raise Py.KeyError) by eauto.
        now inversion Hr.
    + split; [reflexivity|]. intros _. exists x. auto.
Qed.

Lemma lstrip_spaces (l m : list ascii) :
  (forall x, In x l -> Py.is_space x = true) ->
  Py.lstrip (Py.of_chars (l ++ m)) = Py.lstrip (Py.of_chars m).
Proof.
  induction l as [|x l IH]; intros Hl; [reflexivity|].
  cbn. rewrite (Hl x (or_introl eq_refl)). apply IH. intros y Hy. apply Hl. now right.
Qed.

(** Without a last character that is white space, nothing is stripped. *)
Lemma rstrip_id (s : string) :
  (forall x, In x (Py.chars s) -> Py.is_space x = false) -> rstrip s = s.
Proof.
  intros Hs. unfold rstrip.
  assert (Hl : Py.lstrip (Py.of_chars (rev (Py.chars s))) = Py.of_chars (rev (Py.chars s))).
  { destruct (rev (Py.chars s)) as [|x l] eqn:E; [reflexivity|].
    cbn. rewrite Hs; [reflexivity|]. apply in_rev. rewrite E. now left. }
  rewrite Hl. unfold Py.chars, Py.of_chars.
  rewrite list_ascii_of_string_of_list_ascii, rev_involutive.
  apply string_of_list_ascii_of_string.
Qed.

(** X14: on a sequence written with the letters of [NTMAP] only,
    [revcmp] returns a sequence of the same length, written with those
    letters too, whose reverse complement is the sequence one started
    from. *)
Theorem revcmp_involutive (s : string) :
  (forall x, In x (Py.chars s) -> NTMAP x <> None) ->
  exists t, revcmp s = Ok t /\ revcmp t = Ok s
            /\ String.length t = String.length s.
Proof.
  intros Hs.
  assert (Hnosp : forall u : string,
            (forall x, In x (Py.chars u) -> NTMAP x <> None) -> rstrip u = u).
  { intros u Hu. apply rstrip_id. intros x Hx. specialize (Hu x Hx).
    destruct (NTMAP x) as [y|] eqn:E; [|contradiction].
    exact (NTMAP_not_space _ _ E). }
  destruct (complement_valid (Py.chars s) Hs) as (l' & Hl' & Hlen & Hback & Hvalid).
  exists (Py.of_chars (rev l')). unfold revcmp.
  rewrite (Hnosp s Hs), Hl'. cbn [Py.bind]. split; [reflexivity|].
  assert (Hc : Py.chars (Py.of_chars (rev l')) = rev l')
    by apply list_ascii_of_string_of_list_ascii.
  rewrite Hnosp.
  - rewrite Hc, Hback. cbn [Py.bind]. rewrite rev_involutive. split.
    + f_equal. apply string_of_list_ascii_of_string.
    + rewrite <- !chars_length, Hc, length_rev. exact Hlen.
  - rewrite Hc. intros x Hx. apply Hvalid. now apply in_rev.
Qed.

(** X15: [revcmp] raises [KeyError] exactly when a character outside
    [NTMAP] is left once the white space at the end is stripped, and
    raises nothing else; white space at the end of the sequence
    changes nothing. *)
Theorem revcmp_errors (s : string) :
  (revcmp s = Raise Py.KeyError <->
   exists x, In x (Py.chars (rstrip s)) /\ NTMAP x = None)
  /\ (forall ex, revcmp s = Raise ex -> ex = Py.KeyError)
  /\ (forall ws, (forall x, In x (Py.chars ws) -> Py.is_space x = true) ->
        revcmp (s +:+ ws) = revcmp s).
Proof.
  split; [|split].
  - unfold revcmp. rewrite complement_raises.
    destruct (complement (Py.chars (rstrip s))); cbn; split; congruence.
  - unfold revcmp. intros ex.
    destruct (complement (Py.chars (rstrip s))) as [l|ex'] eqn:E; cbn; [discriminate|].
    intros Heq. inversion Heq; subst.
    destruct (complement_raises (Py.chars (rstrip s))) as [_ Hr]. clear Hr.
    revert E. generalize (Py.chars (rstrip s)). intros l.
    induction l as [|x l IH]; cbn; [discriminate|].
    destruct (NTMAP x); [|intros Heq'; now inversion Heq'].
    destruct (complement l); cbn; [discriminate|]. intros Heq'. inversion Heq'; subst.
    now apply IH.
  - intros ws Hws. unfold revcmp, rstrip.
    rewrite append_chars, rev_app_distr, lstrip_spaces; [reflexivity|].
    intros x Hx. apply Hws. now apply in_rev.
Qed.

End Revcmp.

(** ** [check_ids_unique] *)

Section CheckIds.
Import UtilsRest.

Lemma check_ids_fine (ids : list string) (seen : gset string) :
  check_ids ids seen = Fine tt <->
  List.NoDup ids /\ forall x, In x ids -> x ∉ seen.
Proof.
  revert seen. induction ids as [|x ids IH]; intros seen; cbn [check_ids].
  - split; [intros _|reflexivity]. split; [constructor|intros ? []].
  - case_bool_decide as Hx.
    + split; [discriminate|]. intros [_ Hall]. destruct (Hall x (or_introl eq_refl) Hx).
    + rewrite IH. split.
      * intros [Hnd Hall]. split.
        -- constructor; [|assumption]. intros Hin. apply (Hall x Hin).
           apply elem_of_union. left. now apply elem_of_singleton.
        -- intros y [<-|Hy]; [assumption|]. specialize (Hall y Hy).
           intros Hs. apply Hall, elem_of_union. now right.
      * intros [Hnd Hall]. inversion Hnd as [|? ? Hnin Hnd']; subst. split; [assumption|].
        intros y Hy. assert (y <> x) by congruence.
        specialize (Hall y (or_intror Hy)). intros Hs.
        apply elem_of_union in Hs as [Hs|Hs]; [|contradiction].
        apply elem_of_singleton in Hs. congruence.
Qed.

Lemma check_ids_throw (ids : list string) (seen : gset string) (ex : exn) :
  check_ids ids seen = Throw ex ->
  exists l1 x l2,
    ids = l1 ++ x :: l2 /\ List.NoDup l1
    /\ (forall z, In z l1 -> z ∉ seen)
    /\ (In x l1 \/ x ∈ seen)
    /\ ex = Exception ("Duplicate id " +:+ x +:+ " detected. Abort!").
Proof.
  revert seen. induction ids as [|x ids IH]; intros seen; cbn [check_ids]; [discriminate|].
  case_bool_decide as Hx.
  - intros Heq. inversion Heq; subst. exists [], x, ids.
    repeat split; [constructor|intros ? []|now right].
  - intros Hrun. destruct (IH _ Hrun) as (l1 & y & l2 & -> & Hnd & Hnew & Hy & Hex).
    exists (x :: l1), y, l2. repeat split.
    + constructor; [|assumption]. intros Hin. apply (Hnew x Hin).
      apply elem_of_union. left. now apply elem_of_singleton.
    + intros z [<-|Hz]; [assumption|]. specialize (Hnew z Hz).
      intros Hs. apply Hnew, elem_of_union. now right.
    + destruct Hy as [Hy|Hy]; [left; now right|].
      apply elem_of_union in Hy. destruct Hy as [Hy|Hy]; [|now right].
      apply elem_of_singleton in Hy. subst. left. now left.
    + assumption.
Qed.

(** X16: [check_ids_unique] returns exactly when no id occurs twice;
    otherwise it raises [Exception] at the first id that was seen
    before, with that id in the message. *)
Theorem check_ids_unique_spec (ids : list string) :
  (check_ids_unique ids = Fine tt <-> List.NoDup ids)
  /\ (forall ex, check_ids_unique ids = Throw ex ->
        exists l1 x l2,
          ids = l1 ++ x :: l2 /\ List.NoDup l1 /\ In x l1
          /\ ex = Exception ("Duplicate id " +:+ x +:+ " detected. Abort!")).
Proof.
  unfold check_ids_unique. split.
  - rewrite check_ids_fine. split; [tauto|]. intros Hnd. split; [assumption|].
    intros x _. apply not_elem_of_empty.
  - intros ex Hrun.
    destruct (check_ids_throw _ _ _ Hrun) as (l1 & x & l2 & Hids & Hnd & _ & Hx & Hex).
    exists l1, x, l2. repeat split; try assumption.
    destruct Hx as [Hx|Hx]; [assumption|]. now apply not_elem_of_empty in Hx.
Qed.

End CheckIds.
(** ** [generateChunkedFN] *)

Section Chunked.
Import UtilsRest.

(** Joining one directory with two names that are both absolute or
    both relative. *)
Lemma join_inj (root x y : string) :
  Py.startswith "/" x = Py.startswith "/" y ->
  op.join root x = op.join root y -> x = y.
Proof.
  unfold op.join. intros <-. destruct (Py.startswith "/" x); [trivial|].
  destruct (String.eqb root "" || Py.endswith "/" root); intros Heq.
  - exact (append_inv_head _ _ _ Heq).
  - apply append_inv_head in Heq. now inversion Heq.
Qed.

Lemma startswith_head (p t t' : string) (c : ascii) :
  Py.startswith "/" (p +:+ String c t) = Py.startswith "/" (p +:+ String c t').
Proof.
  unfold Py.startswith. destruct p as [|d p].
  - cbn [String.append String.prefix]. destruct (ascii_dec "/" c); [|reflexivity].
    now destruct t, t'.
  - change (String d p +:+ String c t) with (String d (p +:+ String c t)).
    change (String d p +:+ String c t') with (String d (p +:+ String c t')).
    generalize (p +:+ String c t) (p +:+ String c t'). intros u u'.
    cbn [String.prefix]. destruct (ascii_dec "/" d); [|reflexivity].
    now destruct u, u'.
Qed.

(** X17: [generateChunkedFN] returns [num_chunks] names (none when
    [num_chunks] is negative), no two of them equal. *)
Theorem generateChunkedFN_distinct (out_dir prefix : string) (num_chunks : Z) :
  length (generateChunkedFN out_dir prefix num_chunks) = Z.to_nat num_chunks
  /\ List.NoDup (generateChunkedFN out_dir prefix num_chunks).
Proof.
  unfold generateChunkedFN, xrange. split.
  - now rewrite !length_map, length_seq.
  - apply Finite.Injective_map_NoDup_in.
    + intros i j _ _ Heq. apply join_inj in Heq; [|apply startswith_head].
      apply append_inv_head in Heq. cbn in Heq. inversion Heq as [Hs].
      exact (str_inj _ _ Hs).
    + apply Finite.Injective_map_NoDup; [|apply seq_NoDup].
      intros a b. apply Nat2Z.inj.
Qed.

End Chunked.

(** ** [CIGAR] *)

Section Cigar.
Import UtilsRest CigarSpec.

Lemma uint_digits (d : Decimal.uint) :
  forall x, In x (Py.chars (NilEmpty.string_of_uint d)) -> isdigit x = true.
Proof.
  induction d; cbn; intros x Hx; [destruct Hx|..];
    (destruct Hx as [<-|Hx]; [reflexivity|now apply IHd]).
Qed.

(** The decimal form of a natural number: digits only, at least one,
    and [int] reads the number back. *)
Lemma str_digits (n : Z) :
  0 <= n ->
  (forall x, In x (Py.chars (Py.str n)) -> isdigit x = true)
  /\ Py.str n <> EmptyString
  /\ int_of_digits (Py.str n) = Ok n.
Proof.
  intros Hn. unfold Py.str. destruct n as [|p|p]; [| |lia].
  - cbn. split; [intros x [<-|[]]; reflexivity|]. split; [discriminate|reflexivity].
  - cbn [Z.to_int NilZero.string_of_int]. unfold NilZero.string_of_uint.
    pose proof (Unsigned.to_uint_nonnil p) as Hnil.
    destruct (Pos.to_uint p) as [|u|u|u|u|u|u|u|u|u|u] eqn:E; [now destruct Hnil|..];
      rewrite <- E; (split; [apply uint_digits|]);
      (split; [rewrite E; discriminate|]);
      unfold int_of_digits;
      (replace (NilEmpty.string_of_uint (Pos.to_uint p))
         with (NilEmpty.string_of_uint (Pos.to_uint p)) by reflexivity);
      rewrite NilEmpty.usu;
      (destruct (NilEmpty.string_of_uint (Pos.to_uint p)) eqn:Es;
       [rewrite E in Es; discriminate|]);
      unfold Z.of_uint; rewrite Unsigned.of_to; reflexivity.
Qed.

Lemma scan_digits_stop (t rest : string) (a : ascii) :
  (forall x, In x (Py.chars t) -> isdigit x = true) -> isdigit a = false ->
  scan_digits (t +:+ String a rest) = Ok (String.length t).
Proof.
  intros Ht Ha. induction t as [|c t IH]; cbn.
  - now rewrite Ha.
  - rewrite (Ht c (or_introl eq_refl)), IH; [reflexivity|].
    intros x Hx. apply Ht. now right.
Qed.

Lemma scan_digits_end (t : string) :
  (forall x, In x (Py.chars t) -> isdigit x = true) ->
  scan_digits t = Raise Py.IndexError.
Proof.
  intros Ht. induction t as [|c t IH]; cbn; [reflexivity|].
  rewrite (Ht c (or_introl eq_refl)), IH; [reflexivity|].
  intros x Hx. apply Ht. now right.
Qed.

Lemma substring_head (t r : string) : substring 0 (String.length t) (t +:+ r) = t.
Proof.
  induction t as [|c t IH]; cbn; [now destruct r|now f_equal].
Qed.

Lemma get_after (t r : string) (a : ascii) :
  String.get (String.length t) (t +:+ String a r) = Some a.
Proof. induction t as [|c t IH]; cbn; [reflexivity|assumption]. Qed.

Lemma substring_all (r : string) : substring 0 (String.length r) r = r.
Proof. induction r as [|c r IH]; cbn; [reflexivity|now f_equal]. Qed.

Lemma substring_tail (t r : string) (a : ascii) :
  substring (S (String.length t))
            (String.length (t +:+ String a r) - S (String.length t))
            (t +:+ String a r) = r.
Proof.
  induction t as [|c t IH]; cbn.
  - rewrite Nat.sub_0_r. apply substring_all.
  - exact IH.
Qed.

Lemma action_not_digit (a : ascii) : is_action a = true -> isdigit a = false.
Proof.
  unfold is_action. cbn. rewrite !orb_true_iff.
  intros H; repeat (destruct H as [H|H];
                    [apply Ascii.eqb_eq in H; subst; reflexivity|]).
  discriminate.
Qed.

Lemma plus_nil (c : CIGAR) : plus c [] = c.
Proof. destruct c. unfold plus. cbn. f_equal; lia. Qed.

Lemma plus_cons (c : CIGAR) (num : Z) (a : ascii) (ops : list (Z * ascii)) :
  plus (plus c [(num, a)]) ops = plus c ((num, a) :: ops).
Proof. unfold plus. cbn. f_equal; lia. Qed.

Lemma count_action (c : CIGAR) (a : ascii) (num : Z) :
  is_action a = true -> count c a num = Ok (plus c [(num, a)]).
Proof.
  unfold is_action. cbn. rewrite !orb_true_iff.
  intros H; repeat (destruct H as [H|H];
                    [apply Ascii.eqb_eq in H; subst; unfold count, plus; cbn;
                     f_equal; f_equal; lia|]).
  discriminate.
Qed.

Lemma count_other (c : CIGAR) (a : ascii) (num : Z) :
  is_action a = false -> count c a num = Raise Py.ValueError.
Proof.
  unfold is_action. cbn. rewrite !orb_false_iff. intros H.
  unfold count. cbv zeta.
  repeat match goal with
         | |- context [Ascii.eqb a ?l] =>
             replace (Ascii.eqb a l) with false by (symmetry; tauto)
         end.
  reflexivity.
Qed.

(** One turn of the loop on a string that is not empty. *)
Lemma parse_loop_turn (fuel : nat) (s : string) (c : CIGAR) :
  s <> EmptyString ->
  parse_loop (S fuel) s c =
  match scan_digits s with
  | Raise ex => Some (Raise ex)
  | Ok i =>
      match int_of_digits (substring 0 i s) with
      | Raise ex => Some (Raise ex)
      | Ok num =>
          match String.get i s with
          | None => Some (Raise Py.IndexError)
          | Some action =>
              match count c action num with
              | Raise ex => Some (Raise ex)
              | Ok c' =>
                  parse_loop fuel (substring (S i) (String.length s - S i) s) c'
              end
          end
      end
  end.
Proof. destruct s; [congruence|reflexivity]. Qed.

(** The loop reads the operations written at the head of the string. *)
Lemma parse_loop_render (ops : list (Z * ascii)) (fuel : nat) (rest : string) (c : CIGAR) :
  well_formed ops ->
  parse_loop (length ops + fuel) (render ops +:+ rest) c =
  parse_loop fuel rest (plus c ops).
Proof.
  revert c. induction ops as [|[num a] ops IH]; intros c Hwf.
  - cbn. now rewrite plus_nil.
  - destruct (Hwf num a (or_introl eq_refl)) as [Hnum Ha].
    destruct (str_digits num Hnum) as (Hd & Hne & Hint).
    cbn [length Nat.add render].
    replace ((Py.str num +:+ String a (render ops)) +:+ rest)
      with (Py.str num +:+ String a (render ops +:+ rest)).
    2:{ generalize (Py.str num). intros t. induction t as [|x t IHt]; cbn;
        [reflexivity|now f_equal]. }
    rewrite parse_loop_turn.
    2:{ destruct (Py.str num); [congruence|discriminate]. }
    rewrite (scan_digits_stop _ _ _ Hd (action_not_digit _ Ha)).
    rewrite substring_head, Hint, get_after, (count_action _ _ _ Ha), substring_tail.
    rewrite IH; [now rewrite plus_cons|].
    intros n b Hin. apply Hwf. now right.
Qed.

Lemma length_append (s t : string) :
  String.length (s +:+ t) = (String.length s + String.length t)%nat.
Proof. induction s as [|c s IH]; cbn; [reflexivity|now rewrite IH]. Qed.

Lemma append_empty (s : string) : s +:+ "" = s.
Proof. induction s as [|c s IH]; cbn; [reflexivity|now rewrite IH]. Qed.

Lemma append_assoc (s t u : string) : (s +:+ t) +:+ u = s +:+ t +:+ u.
Proof. induction s as [|c s IH]; cbn; [reflexivity|now rewrite IH]. Qed.

Lemma render_length (ops : list (Z * ascii)) :
  (length ops <= String.length (render ops))%nat.
Proof.
  induction ops as [|[num a] ops IH]; cbn [render length]; [cbn; lia|].
  rewrite length_append. cbn [String.length]. lia.
Qed.

Lemma substring_length_le (s : string) (n m : nat) :
  (String.length (substring n m s) <= m)%nat.
Proof.
  revert n m. induction s as [|c s IH]; intros [|n] [|m]; cbn; try lia.
  - specialize (IH 0%nat m). lia.
  - apply IH.
  - apply IH.
Qed.

(** The length of the string is fuel enough. *)
Lemma parse_loop_total (fuel : nat) :
  forall (s : string) (c : CIGAR),
    (String.length s <= fuel)%nat -> exists r, parse_loop fuel s c = Some r.
Proof.
  induction fuel as [|fuel IH]; intros s c Hlen.
  - destruct s; [eexists; reflexivity|cbn in Hlen; lia].
  - destruct s as [|x s]; [eexists; reflexivity|].
    rewrite parse_loop_turn by discriminate.
    destruct (scan_digits _) as [i|]; [|eauto].
    destruct (int_of_digits _) as [num|]; [|eauto].
    destruct (String.get _ _) as [action|]; [|eauto].
    destruct (count _ _ _) as [c'|]; [|eauto].
    apply IH. etransitivity; [apply substring_length_le|].
    cbn [String.length] in *. lia.
Qed.

Lemma parse_loop_mono (fuel : nat) :
  forall (s : string) (c : CIGAR) (r : result CIGAR),
    parse_loop fuel s c = Some r ->
    forall fuel', (fuel <= fuel')%nat -> parse_loop fuel' s c = Some r.
Proof.
  induction fuel as [|fuel IH]; intros s c r Hr fuel' Hle.
  - destruct s; [|discriminate]. destruct fuel'; exact Hr.
  - destruct s as [|x s]; [destruct fuel'; exact Hr|].
    destruct fuel' as [|fuel']; [lia|].
    rewrite parse_loop_turn in Hr |- * by discriminate.
    destruct (scan_digits _) as [i|]; [|exact Hr].
    destruct (int_of_digits _) as [num|]; [|exact Hr].
    destruct (String.get _ _) as [action|]; [|exact Hr].
    destruct (count _ _ _) as [c'|]; [|exact Hr].
    apply (IH _ _ _ Hr). lia.
Qed.

(** A result found with some fuel is the result of [parse]'s loop. *)
Lemma parse_loop_enough (fuel : nat) (s : string) (c : CIGAR) (r : result CIGAR) :
  parse_loop fuel s c = Some r -> parse_loop (String.length s) s c = Some r.
Proof.
  intros Hr. destruct (parse_loop_total (String.length s) s c) as [r' Hr']; [lia|].
  pose proof (parse_loop_mono _ _ _ _ Hr (max fuel (String.length s))) as H1.
  pose proof (parse_loop_mono _ _ _ _ Hr' (max fuel (String.length s))) as H2.
  rewrite H1 in H2 by lia. rewrite Hr'. symmetry. apply H2. lia.
Qed.

(** A string that starts with a digit, or has a second character, is
    neither ["*"] nor ["="]. *)
Lemma not_star (x : ascii) (t : string) :
  isdigit x = true \/ t <> EmptyString ->
  String.eqb (String x t) "*" || String.eqb (String x t) "=" = false.
Proof.
  intros Hx. apply orb_false_iff.
  split; apply String.eqb_neq; intros Heq; inversion Heq; subst;
    destruct Hx as [Hx|Hx]; try discriminate; congruence.
Qed.

Lemma render_not_star (ops : list (Z * ascii)) (rest : string) :
  well_formed ops -> ops <> [] ->
  String.eqb (render ops +:+ rest) "*" || String.eqb (render ops +:+ rest) "=" = false.
Proof.
  intros Hwf Hne. destruct ops as [|[num a] ops]; [congruence|].
  destruct (Hwf num a (or_introl eq_refl)) as [Hnum _].
  destruct (str_digits num Hnum) as (Hd & Hs & _).
  cbn [render]. destruct (Py.str num) as [|x t]; [congruence|].
  cbn. apply not_star. left. apply Hd. now left.
Qed.

(** [parse] on the operations written by [render], followed by [rest]:
    what the loop does on [rest] decides. *)
Lemma parse_render (ops : list (Z * ascii)) (rest : string) (fuel : nat)
      (r : result CIGAR) :
  well_formed ops ->
  String.eqb (render ops +:+ rest) "*" || String.eqb (render ops +:+ rest) "=" = false ->
  parse_loop fuel rest (plus (fresh (render ops +:+ rest)) ops) = Some r ->
  parse (render ops +:+ rest) = Some r.
Proof.
  intros Hwf Hstar Hr. unfold parse. rewrite Hstar.
  apply (parse_loop_enough (length ops + fuel)).
  now rewrite parse_loop_render.
Qed.

Lemma parsed_render (ops : list (Z * ascii)) :
  well_formed ops ->
  parse (render ops) = Some (Ok (plus (fresh (render ops)) ops)).
Proof.
  intros Hwf. destruct ops as [|op ops].
  - cbn. now rewrite plus_nil.
  - rewrite <- (append_empty (render (op :: ops))) at 1.
    apply (parse_render _ _ 0); [assumption|now apply render_not_star|].
    now rewrite append_empty.
Qed.

(** X18: a CIGAR string written from counts that are not negative and
    the letters M, X, I, D, H, S, P and N is parsed, and each counter
    holds the sum of the counts of its letter. *)
Theorem cigar_round_trip (ops : list (Z * ascii)) :
  well_formed ops ->
  exists c, parse (render ops) = Some (Ok c)
    /\ cigar_str c = render ops
    /\ num_match c = total "M" ops /\ num_mismatch c = total "X" ops
    /\ num_insert c = total "I" ops /\ num_deletion c = total "D" ops
    /\ num_hardclip c = total "H" ops /\ num_softclip c = total "S" ops
    /\ num_padding c = total "P" ops /\ num_unknown c = total "N" ops.
Proof.
  intros Hwf. eexists. split; [now apply parsed_render|].
  cbn. repeat split; reflexivity.
Qed.

(** X19: the loop of [parse] ends on every string: the length of the
    string bounds its turns. *)
Theorem parse_terminates (s : string) : exists r, parse s = Some r.
Proof.
  unfold parse. destruct (_ || _); [eauto|]. now apply parse_loop_total.
Qed.

(** X20: a CIGAR string that ends in a number with no letter after it
    raises [IndexError]: the scan of the digits reads past the end. *)
Theorem cigar_trailing_number (ops : list (Z * ascii)) (t : string) :
  well_formed ops -> t <> EmptyString ->
  (forall x, In x (Py.chars t) -> isdigit x = true) ->
  parse (render ops +:+ t) = Some (Raise Py.IndexError).
Proof.
  intros Hwf Hne Hd. apply (parse_render _ _ 1); [assumption| |].
  - destruct ops as [|op ops]; [|now apply render_not_star].
    destruct t as [|x t]; [congruence|]. cbn. apply not_star. left.
    apply Hd. now left.
  - rewrite parse_loop_turn by assumption. now rewrite scan_digits_end.
Qed.

(** X21: a letter with no count before it raises [ValueError], whatever
    the letter, unless the whole string is ["*"] or ["="]. *)
Theorem cigar_missing_count (ops : list (Z * ascii)) (a : ascii) (rest : string) :
  well_formed ops -> isdigit a = false ->
  (ops = [] -> String a rest <> "*" /\ String a rest <> "=") ->
  parse (render ops +:+ String a rest) = Some (Raise Py.ValueError).
Proof.
  intros Hwf Ha Hstar. apply (parse_render _ _ 1); [assumption| |].
  - destruct ops as [|op ops]; [|now apply render_not_star].
    destruct (Hstar eq_refl) as [H1 H2]. cbn [render String.append].
    apply orb_false_iff. split; now apply String.eqb_neq.
  - rewrite parse_loop_turn by discriminate. cbn [scan_digits]. now rewrite Ha.
Qed.

(** X22: a count followed by a character other than M, X, I, D, H, S, P
    and N raises [ValueError]. *)
Theorem cigar_unknown_letter (ops : list (Z * ascii)) (num : Z) (a : ascii)
        (rest : string) :
  well_formed ops -> 0 <= num -> isdigit a = false -> is_action a = false ->
  parse (render ops +:+ Py.str num +:+ String a rest) = Some (Raise Py.ValueError).
Proof.
  intros Hwf Hnum Hd Ha. destruct (str_digits num Hnum) as (Hds & Hne & Hint).
  apply (parse_render _ _ 1); [assumption| |].
  - destruct ops as [|op ops]; [|now apply render_not_star].
    cbn [render]. destruct (Py.str num) as [|x t]; [congruence|].
    cbn. apply not_star. left. apply Hds. now left.
  - rewrite parse_loop_turn.
    2:{ destruct (Py.str num); [congruence|discriminate]. }
    rewrite (scan_digits_stop _ _ _ Hds Hd), substring_head, Hint, get_after.
    now rewrite (count_other _ _ _ Ha).
Qed.

(** X23: [match_seq] compares the length of the sequence with the
    counts of M, I and S only. *)
Theorem match_seq_counts (ops : list (Z * ascii)) (seq : string) :
  well_formed ops ->
  exists c, parse (render ops) = Some (Ok c)
    /\ match_seq c seq
       = (total "M" ops + total "I" ops + total "S" ops
          =? Z.of_nat (String.length seq)).
Proof.
  intros Hwf. eexists. split; [now apply parsed_render|].
  unfold match_seq. cbn [cigar_str plus fresh num_match num_insert num_softclip].
  destruct ops as [|op ops]; [reflexivity|].
  pose proof (render_not_star (op :: ops) "" Hwf) as Hs.
  rewrite append_empty in Hs. rewrite Hs by discriminate. reflexivity.
Qed.

End Cigar.
(** ** [FastqSplitter] *)

Section Splitter.
Import UtilsRest FastqSplitter SplitSpec.
Context {R : Type}.

Lemma xrange_succ (k : Z) : 0 <= k -> xrange (k + 1) = xrange k ++ [k].
Proof.
  intros Hk. unfold xrange.
  replace (Z.to_nat (k + 1)) with (S (Z.to_nat k)) by lia.
  rewrite seq_S, map_app. cbn. now rewrite Z2Nat.id.
Qed.

Lemma in_xrange (i k : Z) : In i (xrange k) <-> 0 <= i < k.
Proof.
  unfold xrange. rewrite in_map_iff. split.
  - intros (x & <- & Hx). apply in_seq in Hx. lia.
  - intros Hi. exists (Z.to_nat i). split; [lia|]. apply in_seq. lia.
Qed.

Lemma xrange_length (k : Z) : length (xrange k) = Z.to_nat k.
Proof. unfold xrange. now rewrite length_map, length_seq. Qed.

Lemma combine_snoc {A B} (a : list A) (l : list B) (x : A) (r : B) :
  length a = length l -> combine (a ++ [x]) (l ++ [r]) = combine a l ++ [(x, r)].
Proof.
  revert l. induction a as [|y a IH]; intros [|z l] Hlen; try discriminate.
  - reflexivity.
  - cbn. f_equal. apply IH. now inversion Hlen.
Qed.

Lemma len_snoc (l : list R) (r : R) : Py.len (l ++ [r]) = Py.len l + 1.
Proof. unfold Py.len. rewrite length_app. cbn. lia. Qed.

Lemma enumerate_snoc (l : list R) (r : R) :
  enumerate (l ++ [r]) = enumerate l ++ [(Py.len l, r)].
Proof.
  unfold enumerate. rewrite len_snoc, xrange_succ by (unfold Py.len; lia).
  apply combine_snoc. rewrite xrange_length. unfold Py.len. lia.
Qed.

Lemma in_enumerate (l : list R) (i : Z) (r : R) :
  In (i, r) (enumerate l) -> 0 <= i < Py.len l.
Proof. intros Hin. apply in_combine_l in Hin. now apply in_xrange. Qed.

Lemma bucket_snoc (index : Z -> Z) (k : Z) (l : list R) (r : R) :
  bucket index k (l ++ [r])
  = bucket index k l ++ (if index (Py.len l) =? k then [r] else []).
Proof.
  unfold bucket. rewrite enumerate_snoc, List.filter_app, map_app. cbn.
  now destruct (index (Py.len l) =? k).
Qed.

Lemma bucket_ext (index index' : Z -> Z) (k : Z) (l : list R) :
  (forall i, 0 <= i < Py.len l -> index i = index' i) ->
  bucket index k l = bucket index' k l.
Proof.
  intros Hext. unfold bucket. f_equal. apply List.filter_ext_in.
  intros [i r] Hin. cbn. now rewrite (Hext i (in_enumerate _ _ _ Hin)).
Qed.

Lemma filter_none {A} (p : A -> bool) (l : list A) :
  (forall x, In x l -> p x = false) -> List.filter p l = [].
Proof.
  induction l as [|x l IH]; intros Hp; [reflexivity|]. cbn.
  rewrite (Hp x (or_introl eq_refl)). apply IH. intros y Hy. apply Hp. now right.
Qed.

Lemma bucket_empty (index : Z -> Z) (k : Z) (l : list R) :
  (forall i, 0 <= i < Py.len l -> index i <> k) -> bucket index k l = [].
Proof.
  intros Hne. unfold bucket. rewrite filter_none; [reflexivity|].
  intros [i r] Hin. cbn. apply Z.eqb_neq, Hne. exact (in_enumerate _ _ _ Hin).
Qed.

Lemma last_index_snoc (index : Z -> Z) (l : list R) (r : R) :
  last_index index (l ++ [r]) = index (Py.len l).
Proof.
  unfold last_index. rewrite len_snoc.
  replace (Py.len l + 1 - 1) with (Py.len l) by lia. now destruct l.
Qed.

Lemma last_index_ext (index index' : Z -> Z) (l : list R) :
  (forall i, 0 <= i < Py.len l -> index i = index' i) ->
  last_index index l = last_index index' l.
Proof.
  intros Hext. destruct l as [|r l]; [reflexivity|]. unfold last_index.
  apply Hext. unfold Py.len. cbn [length]. lia.
Qed.

Lemma files_ext (self : self_t) (index index' : Z -> Z) (l : list R) :
  (forall i, 0 <= i < Py.len l -> index i = index' i) ->
  files self index l = files self index' l.
Proof.
  intros Hext. unfold files. rewrite (last_index_ext _ _ _ Hext).
  apply map_ext. intros k. now rewrite (bucket_ext _ _ _ _ Hext).
Qed.

(** *** The arithmetic of the test *)

Lemma file_index_nonneg (f n i : Z) : 1 <= n -> 0 <= file_index f n i.
Proof.
  intros Hn. unfold file_index.
  destruct (f <=? 0) eqn:Hf; [cbn; lia|]. destruct (i <? f) eqn:Hi; cbn; [lia|].
  assert (f / n <= i / n) by (apply Z.div_le_mono; lia). lia.
Qed.

Lemma file_index_mono (f n i j : Z) :
  1 <= n -> i <= j -> file_index f n i <= file_index f n j.
Proof.
  intros Hn Hij. unfold file_index.
  destruct (f <=? 0) eqn:Hf; [cbn; lia|].
  destruct (i <? f) eqn:Hi, (j <? f) eqn:Hj; cbn; try lia.
  - assert (f / n <= j / n) by (apply Z.div_le_mono; lia). lia.
  - assert (i / n <= j / n) by (apply Z.div_le_mono; lia). lia.
Qed.

Lemma div_pred (n m : Z) :
  1 <= n -> m / n = (m - 1) / n + (if m mod n =? 0 then 1 else 0).
Proof.
  intros Hn. pose proof (Z.div_mod m n ltac:(lia)) as Hm.
  pose proof (Z.mod_pos_bound m n ltac:(lia)) as Hr.
  destruct (m mod n =? 0) eqn:E.
  - apply Z.eqb_eq in E.
    assert ((m - 1) / n = m / n - 1); [|lia].
    symmetry. apply (Z.div_unique _ _ _ (n - 1)); lia.
  - apply Z.eqb_neq in E.
    assert ((m - 1) / n = m / n); [|lia].
    symmetry. apply (Z.div_unique _ _ _ (m mod n - 1)); lia.
Qed.

(** The test of [split] is true exactly where [file_index] moves on. *)
Lemma starts_new_file_spec (self : self_t) (f m : Z) :
  1 <= reads_per_split self -> 0 <= m ->
  exists b,
    starts_new_file self f
      (if m =? 0 then 0 else file_index f (reads_per_split self) (m - 1)) m
    = Fine b
    /\ file_index f (reads_per_split self) m
       = (if m =? 0 then 0 else file_index f (reads_per_split self) (m - 1))
         + (if b then 1 else 0).
Proof.
  set (n := reads_per_split self). intros Hn Hm. unfold starts_new_file. fold n.
  destruct (m =? 0) eqn:Hm0.
  - apply Z.eqb_eq in Hm0. subst m. cbn [Z.eqb andb].
    exists false. split.
    + destruct f; reflexivity.
    + unfold file_index. destruct (f <=? 0) eqn:Hf; [reflexivity|].
      destruct (0 <? f) eqn:Hf'; [reflexivity|lia].
  - apply Z.eqb_neq in Hm0. cbn [negb]. replace (n =? 0) with false by lia.
    pose proof (div_pred n m Hn) as Hdiv.
    unfold file_index.
    destruct (f <=? 0) eqn:Hf.
    + cbn [orb Z.eqb andb]. replace (m =? f) with false by lia.
      exists false. cbn. split; [reflexivity|lia].
    + cbn [orb]. destruct (m - 1 <? f) eqn:H1.
      * cbn [Z.eqb andb Z.ltb Z.compare]. destruct (m =? f) eqn:H2.
        -- exists true. split; [reflexivity|].
           replace (m <? f) with false by lia. apply Z.eqb_eq in H2. subst f. lia.
        -- exists false. split; [reflexivity|].
           replace (m <? f) with true by lia. lia.
      * assert (f / n <= (m - 1) / n) by (apply Z.div_le_mono; lia).
        replace (1 + (m - 1) / n - f / n =? 0) with false by lia.
        replace (0 <? 1 + (m - 1) / n - f / n) with true by lia.
        replace (m <? f) with false by lia. cbn [andb].
        exists (m mod n =? 0). rewrite andb_true_r. split; [reflexivity|].
        destruct (m mod n =? 0); lia.
Qed.

(** *** The loop *)

Section Loop.
Variable self : self_t.
Variable f : Z.
Hypothesis Hn : 1 <= reads_per_split self.

Let index : Z -> Z := file_index f (reads_per_split self).

Lemma last_index_nonneg (l : list R) : 0 <= last_index index l.
Proof. destruct l; [cbn; lia|]. apply file_index_nonneg, Hn. Qed.

Lemma last_index_before (l : list R) :
  last_index index l
  = (if Py.len l =? 0 then 0 else index (Py.len l - 1)).
Proof.
  destruct l as [|r l]; [reflexivity|].
  destruct (Z.eqb_spec (Py.len (r :: l)) 0) as [H0|_]; [|reflexivity].
  unfold Py.len in H0. cbn [length] in H0. lia.
Qed.

Lemma index_le_last (l : list R) (i : Z) :
  0 <= i < Py.len l -> index i <= last_index index l.
Proof.
  intros Hi. rewrite last_index_before. replace (_ =? 0) with false by lia.
  apply file_index_mono; [exact Hn|lia].
Qed.

Lemma last_index_app (l rest : list R) :
  last_index index l <= last_index index (l ++ rest).
Proof.
  destruct l as [|r l]; [apply last_index_nonneg|].
  apply index_le_last. unfold Py.len. rewrite length_app. cbn [length]. lia.
Qed.

(** One more record, written to the open file or to a new one. *)
Lemma state_of_snoc (prefix : list R) (r : R) (b : bool) :
  index (Py.len prefix) = last_index index prefix + (if b then 1 else 0) ->
  state_of self index (prefix ++ [r])
  = writeRecord r
      (if b then
         {| split_index := last_index index prefix + 1;
            out_fns := out_fns (state_of self index prefix)
                       ++ [name_of self (last_index index prefix + 1)];
            closed := closed (state_of self index prefix)
                      ++ [writer (state_of self index prefix)];
            writer := (name_of self (last_index index prefix + 1), []) |}
       else state_of self index prefix).
Proof.
  intros Hidx. pose proof (last_index_nonneg prefix) as H0.
  set (k := last_index index prefix) in *.
  assert (Hlow : forall j, j <= k -> j <> index (Py.len prefix) ->
                           bucket index j (prefix ++ [r]) = bucket index j prefix).
  { intros j Hj Hne. rewrite bucket_snoc.
    replace (_ =? j) with false by lia. apply app_nil_r. }
  unfold state_of, writeRecord. rewrite last_index_snoc. fold k.
  destruct b; cbn [split_index out_fns closed writer fst snd].
  - rewrite Hidx. f_equal.
    + now rewrite (xrange_succ (k + 1)) by lia; rewrite map_app.
    + rewrite (xrange_succ k) by lia. rewrite map_app. cbn [map]. f_equal.
      * apply map_ext_in. intros j Hj. apply in_xrange in Hj.
        rewrite Hlow by lia. reflexivity.
      * rewrite Hlow by lia. reflexivity.
    + f_equal. rewrite bucket_snoc, Hidx, Z.eqb_refl.
      rewrite bucket_empty; [reflexivity|].
      intros i Hi. pose proof (index_le_last prefix i Hi). fold k in H. lia.
  - rewrite Hidx, Z.add_0_r. f_equal.
    + apply map_ext_in. intros j Hj. apply in_xrange in Hj.
      rewrite Hlow by lia. reflexivity.
    + f_equal. now rewrite bucket_snoc, Hidx, Z.add_0_r, Z.eqb_refl.
Qed.

Lemma split_loop_spec (rest : list R) :
  forall prefix : list R,
    last_index index prefix <= 999 ->
    split_loop self f (Py.len prefix) rest (state_of self index prefix)
    = if 999 <? last_index index (prefix ++ rest)
      then Throw (Builtin Py.ValueError)
      else Fine (state_of self index (prefix ++ rest)).
Proof.
  induction rest as [|r rest IH]; intros prefix Hle.
  - rewrite app_nil_r. cbn. now replace (999 <? _) with false by lia.
  - cbn [split_loop]. unfold split_step.
    destruct (starts_new_file_spec self f (Py.len prefix) Hn ltac:(unfold Py.len; lia))
      as (b & Hb & Hidx).
    rewrite <- last_index_before in Hb, Hidx.
    change (split_index (state_of self index prefix)) with (last_index index prefix).
    rewrite Hb.
    pose proof (state_of_snoc prefix r b Hidx) as Hst.
    pose proof (last_index_app (prefix ++ [r]) rest) as Hmono.
    rewrite last_index_snoc, <- app_assoc in Hmono. cbn [app] in Hmono.
    fold index in Hidx. rewrite Hidx in Hmono.
    destruct b.
    + cbv zeta. unfold _out_fn. destruct (999 <? last_index index prefix + 1) eqn:Hfull.
      * now replace (999 <? _) with true by lia.
      * rewrite <- Hst, <- (len_snoc prefix r), IH.
        -- now rewrite <- app_assoc.
        -- rewrite last_index_snoc. fold index in Hidx. lia.
    + rewrite <- Hst, <- (len_snoc prefix r), IH.
      * now rewrite <- app_assoc.
      * rewrite last_index_snoc. lia.
Qed.

(** [split] when [reads_per_split] is positive. *)
Lemma split_eq (first_split : option Z) (reads : list R) :
  f = match first_split with None => reads_per_split self | Some x => x end ->
  split self first_split reads
  = if 999 <? last_index index reads then Throw (Builtin Py.ValueError)
    else Fine (map fst (files self index reads), files self index reads).
Proof.
  intros Hf. unfold split. cbv zeta. rewrite <- Hf.
  pose proof (split_loop_spec reads [] ltac:(cbn; lia)) as Hloop.
  cbn [app] in Hloop. change (Py.len []) with 0 in Hloop.
  change (state_of self index []) with
    {| split_index := 0; out_fns := [name_of self 0];
       closed := @nil (string * list R); writer := (name_of self 0, []) |} in Hloop.
  change (_out_fn self 0) with (@Fine string (name_of self 0)). cbv iota beta.
  rewrite Hloop. destruct (999 <? _); [reflexivity|].
  pose proof (last_index_nonneg reads) as H0.
  unfold state_of, files. cbn [out_fns closed writer].
  rewrite (xrange_succ (last_index index reads)) by lia.
  rewrite !map_app, map_map. cbn [map fst]. reflexivity.
Qed.

End Loop.

(** X24: with a positive [reads_per_split], [split] sends record [ridx]
    to the file numbered [file_index first_split reads_per_split ridx]:
    the first file takes the records before [first_split], and a new
    file starts at [first_split] and at every later multiple of
    [reads_per_split]; it raises [ValueError] when the last record
    belongs in a file past number 999. *)
Theorem split_by_file_index (self : self_t) (first_split : Z) (reads : list R) :
  1 <= reads_per_split self ->
  split self (Some first_split) reads
  = let index := file_index first_split (reads_per_split self) in
    if 999 <? last_index index reads then Throw (Builtin Py.ValueError)
    else Fine (map fst (files self index reads), files self index reads).
Proof. intros Hn. now apply split_eq. Qed.

(** X25: with the default [first_split] and a positive
    [reads_per_split], record [ridx] is written to file
    [ridx / reads_per_split], and an input of more than
    [1000 * reads_per_split] records raises [ValueError]. *)
Theorem split_default (self : self_t) (reads : list R) :
  1 <= reads_per_split self ->
  split self None reads
  = let index := fun ridx => ridx / reads_per_split self in
    if 1000 * reads_per_split self <? Py.len reads
    then Throw (Builtin Py.ValueError)
    else Fine (map fst (files self index reads), files self index reads).
Proof.
  intros Hn. set (n := reads_per_split self) in *.
  rewrite (split_eq self n Hn None reads eq_refl). fold n. cbv zeta.
  assert (Hext : forall i, 0 <= i < Py.len reads -> file_index n n i = i / n).
  { intros i Hi. unfold file_index. replace (n <=? 0) with false by lia.
    cbn [orb]. destruct (i <? n) eqn:E.
    - symmetry. apply Z.div_small. lia.
    - rewrite Z_div_same by lia. lia. }
  rewrite (files_ext _ _ _ _ Hext), (last_index_ext _ _ _ Hext).
  replace (999 <? last_index (fun i => i / n) reads)
    with (1000 * n <? Py.len reads); [reflexivity|].
  destruct reads as [|r reads]; [change ((1000 * n <? 0) = false); apply Z.ltb_ge; lia|].
  unfold last_index.
  set (m := Py.len (r :: reads)).
  destruct (1000 * n <? m) eqn:E; symmetry.
  - apply Z.ltb_lt. assert (1000 <= (m - 1) / n); [|lia].
    apply Z.div_le_lower_bound; lia.
  - apply Z.ltb_ge. assert ((m - 1) / n < 1000); [|lia].
    apply Z.div_lt_upper_bound; lia.
Qed.

(** *** What every run of [split] keeps *)

Lemma starts_new_file_not_first (self : self_t) (f si m : Z) :
  starts_new_file self f si m = Fine true -> m <> 0.
Proof.
  unfold starts_new_file. intros H Hm. subst m.
  destruct (if _ : bool then _ else _) as [b|]; [|discriminate].
  rewrite andb_false_r in H. discriminate.
Qed.

Lemma split_step_consistent (self : self_t) (f : Z) (prefix : list R) (r : R)
      (st st' : state) :
  split_step self f st (Py.len prefix) r = Fine st' ->
  consistent self prefix st -> consistent self (prefix ++ [r]) st'.
Proof.
  unfold split_step, consistent.
  intros Hstep (Hfst & Hcat & Hfns & Hsi & Hclosed & Hw).
  destruct (starts_new_file _ _ _ _) as [[|]|] eqn:Hnew; [| |discriminate].
  - apply starts_new_file_not_first in Hnew.
    assert (Hprefix : prefix <> []) by (intros ->; now apply Hnew).
    cbv zeta in Hstep. unfold _out_fn in Hstep.
    destruct (999 <? split_index st + 1) eqn:Hfull; [discriminate|].
    apply Z.ltb_ge in Hfull. inversion Hstep; subst st'; clear Hstep.
    cbn [writeRecord split_index out_fns closed writer fst snd app].
    repeat split.
    + rewrite map_app, Hfst. reflexivity.
    + rewrite map_app, concat_app, Hcat. reflexivity.
    + rewrite (xrange_succ (split_index st + 1)) by lia.
      now rewrite map_app, Hfns.
    + lia.
    + lia.
    + apply Forall_app. split; [assumption|]. constructor; [|constructor]. auto.
    + discriminate.
  - inversion Hstep; subst st'; clear Hstep.
    cbn [writeRecord split_index out_fns closed writer fst snd].
    repeat split; try assumption; try lia.
    + rewrite map_app in Hfst |- *. exact Hfst.
    + rewrite map_app, concat_app in Hcat |- *. cbn [map concat snd] in Hcat |- *.
      rewrite app_nil_r in Hcat |- *. now rewrite app_assoc, Hcat.
    + intros _ Hnil. now apply app_eq_nil in Hnil as [_ Hnil].
Qed.

Lemma split_loop_consistent (self : self_t) (f : Z) (rest : list R) :
  forall (prefix : list R) (st st' : state),
    split_loop self f (Py.len prefix) rest st = Fine st' ->
    consistent self prefix st -> consistent self (prefix ++ rest) st'.
Proof.
  induction rest as [|r rest IH]; intros prefix st st' Hloop Hst.
  - inversion Hloop; subst. now rewrite app_nil_r.
  - cbn [split_loop] in Hloop.
    destruct (split_step _ _ _ _ _) as [st1|] eqn:Hstep; [|discriminate].
    rewrite <- (len_snoc prefix r) in Hloop.
    replace (prefix ++ r :: rest) with ((prefix ++ [r]) ++ rest)
      by now rewrite <- app_assoc.
    apply (IH _ _ _ Hloop). exact (split_step_consistent _ _ _ _ _ _ Hstep Hst).
Qed.

Lemma split_consistent (self : self_t) (first_split : option Z) (reads : list R)
      (fns : list string) (fl : list (string * list R)) :
  split self first_split reads = Fine (fns, fl) ->
  exists st, consistent self reads st
             /\ fns = out_fns st /\ fl = closed st ++ [writer st].
Proof.
  unfold split. change (_out_fn self 0) with (@Fine string (name_of self 0)).
  cbv iota beta zeta.
  destruct (split_loop _ _ _ _ _) as [st|] eqn:Hloop; [|discriminate].
  intros Heq. inversion Heq; subst. exists st. split; [|split; reflexivity].
  apply (split_loop_consistent _ _ reads [] _ _ Hloop).
  unfold consistent. cbn. repeat split; try lia; [constructor|congruence].
Qed.

(** X26: whenever [split] returns, whatever the parameters, the files
    read in the order of the returned names give back the records of
    the input in their order; there are between 1 and 1000 files,
    numbered from 0; and no file is empty unless the input is. *)
Theorem split_keeps_every_read (self : self_t) (first_split : option Z)
        (reads : list R) (fns : list string) (fl : list (string * list R)) :
  split self first_split reads = Fine (fns, fl) ->
  map fst fl = fns
  /\ concat (map snd fl) = reads
  /\ fns = map (name_of self) (xrange (Py.len fns))
  /\ 1 <= Py.len fns <= 1000
  /\ (reads <> [] -> Forall (fun c => snd c <> []) fl).
Proof.
  intros Hs. destruct (split_consistent _ _ _ _ _ Hs)
    as (st & (Hfst & Hcat & Hfns & Hsi & Hclosed & Hw) & -> & ->).
  assert (Hlen : Py.len (out_fns st) = split_index st + 1).
  { rewrite Hfns. unfold Py.len. rewrite length_map, xrange_length. lia. }
  repeat split; try assumption; try lia.
  - now rewrite Hlen.
  - intros Hne. apply Forall_app. split; [assumption|].
    constructor; [auto|constructor].
Qed.

(** *** Runs that stay in the first file *)

Lemma split_loop_first_file (self : self_t) (f : Z) (rest : list R) :
  forall (m : Z) (st : state),
    split_index st = 0 ->
    (forall i, m <= i < m + Py.len rest -> i <> f \/ i = 0) ->
    split_loop self f m rest st
    = Fine {| split_index := split_index st; out_fns := out_fns st;
              closed := closed st;
              writer := (fst (writer st), snd (writer st) ++ rest) |}.
Proof.
  induction rest as [|r rest IH]; intros m st H0 Hf.
  - cbn. rewrite app_nil_r. now destruct st as [? ? ? [? ?]].
  - assert (Hlen : Py.len (r :: rest) = Py.len rest + 1)
      by (unfold Py.len; cbn [length]; lia).
    cbn [split_loop]. unfold split_step, starts_new_file. rewrite H0.
    cbn [Z.eqb andb Z.ltb Z.compare].
    assert (Hnew : (if m =? f then Fine true else Fine false) = Fine (m =? f))
      by now destruct (m =? f).
    rewrite Hnew.
    replace ((m =? f) && negb (m =? 0)) with false.
    2:{ destruct (Hf m ltac:(unfold Py.len in *; lia)) as [H|H].
        - now replace (m =? f) with false by lia.
        - subst m. now rewrite andb_false_r. }
    rewrite IH.
    + cbn [writeRecord split_index out_fns closed writer fst snd].
      rewrite H0, <- app_assoc. reflexivity.
    + exact H0.
    + intros i Hi. apply Hf. lia.
Qed.

(** X27: when [first_split] (by default [reads_per_split]) is zero or
    negative, or not below the number of records, [split] writes every
    record to the first file: it never opens a second one and never
    computes a remainder, whatever [reads_per_split]. *)
Theorem split_single_file (self : self_t) (first_split : option Z)
        (reads : list R) :
  (let f := match first_split with
            | None => reads_per_split self
            | Some x => x
            end in
   f <= 0 \/ Py.len reads <= f) ->
  split self first_split reads
  = Fine ([name_of self 0], [(name_of self 0, reads)]).
Proof.
  cbv zeta. intros Hf. unfold split.
  change (_out_fn self 0) with (@Fine string (name_of self 0)).
  cbv iota beta zeta. rewrite split_loop_first_file; [reflexivity|reflexivity|].
  intros i Hi. lia.
Qed.

(** *** A zero [reads_per_split] *)

Lemma split_loop_app (self : self_t) (f : Z) (a b : list R) :
  forall (m : Z) (st : state),
    split_loop self f m (a ++ b) st
    = match split_loop self f m a st with
      | Throw x => Throw x
      | Fine st' => split_loop self f (m + Py.len a) b st'
      end.
Proof.
  induction a as [|r a IH]; intros m st.
  - cbn. now rewrite Z.add_0_r.
  - cbn [app split_loop]. destruct (split_step _ _ _ _ _) as [st1|]; [|reflexivity].
    rewrite IH. replace (m + 1 + Py.len a) with (m + Py.len (r :: a));
      [reflexivity|unfold Py.len; cbn [length]; lia].
Qed.

(** X28: with [reads_per_split] zero and a [first_split] that leaves
    at least two records for the later files, [split] raises
    [ZeroDivisionError]: the second file is opened, and the test on the
    next record divides by zero. *)
Theorem split_zero_division (self : self_t) (f : Z) (reads : list R) :
  reads_per_split self = 0 -> 1 <= f -> f + 2 <= Py.len reads ->
  split self (Some f) reads = Throw ZeroDivisionError.
Proof.
  intros Hn Hf Hlen.
  rewrite <- (firstn_skipn (Z.to_nat f) reads).
  assert (Hfirst : Py.len (firstn (Z.to_nat f) reads) = f).
  { unfold Py.len in *. rewrite length_firstn. lia. }
  assert (Hskip : (2 <= length (skipn (Z.to_nat f) reads))%nat).
  { unfold Py.len in *. rewrite length_skipn. lia. }
  destruct (skipn (Z.to_nat f) reads) as [|r1 [|r2 rest]];
    [cbn in Hskip; lia|cbn in Hskip; lia|].
  unfold split. change (_out_fn self 0) with (@Fine string (name_of self 0)).
  cbv iota beta zeta. rewrite split_loop_app.
  rewrite split_loop_first_file; [|reflexivity|intros i Hi; lia].
  rewrite Hfirst. change (0 + f) with f. cbn [split_loop].
  unfold split_step at 1. unfold starts_new_file at 1.
  cbn [split_index Z.eqb andb]. rewrite Z.eqb_refl.
  replace (f =? 0) with false by lia. cbn [negb andb]. cbv zeta.
  change (_out_fn self (0 + 1)) with (@Fine string (name_of self 1)).
  cbv iota beta. unfold split_step, starts_new_file.
  cbn [writeRecord split_index Z.add Z.eqb andb Z.ltb Z.compare Pos.add].
  rewrite Hn. reflexivity.
Qed.

(** *** The names *)

Lemma int_of_digits_zero (s : string) (v : Z) :
  s <> EmptyString -> int_of_digits s = Ok v ->
  int_of_digits (String "0" s) = Ok v.
Proof.
  unfold int_of_digits. destruct s as [|a s]; [congruence|]. intros _.
  cbn [NilEmpty.uint_of_string].
  destruct (uint_of_char a (NilEmpty.uint_of_string s)) as [d|]; [|discriminate].
  trivial.
Qed.

Lemma format_03d_int (i : Z) : 0 <= i -> int_of_digits (format_03d i) = Ok i.
Proof.
  intros Hi. unfold format_03d. replace (i <? 0) with false by lia.
  rewrite Z.abs_eq by lia. cbn [String.append String.length].
  destruct (str_digits i Hi) as (_ & Hne & Hint).
  generalize (3 - 0 - String.length (Py.str i))%nat. intros k.
  induction k as [|k IH]; [exact Hint|]. cbn [zeros String.append].
  apply int_of_digits_zero; [|exact IH].
  destruct k; cbn; [assumption|discriminate].
Qed.

Lemma name_of_inj (self : self_t) (i j : Z) :
  0 <= i -> 0 <= j -> name_of self i = name_of self j -> i = j.
Proof.
  intros Hi Hj Heq. unfold name_of in Heq.
  apply join_inj in Heq; [|apply startswith_head].
  apply append_inv_head in Heq. cbn in Heq. inversion Heq as [Hfmt].
  apply append_inv_tail in Hfmt.
  pose proof (format_03d_int i Hi) as H1. rewrite Hfmt, (format_03d_int j Hj) in H1.
  now inversion H1.
Qed.

(** X29: the names [split] returns are pairwise distinct, so no file it
    writes replaces another. *)
Theorem split_names_distinct (self : self_t) (first_split : option Z)
        (reads : list R) (fns : list string) (fl : list (string * list R)) :
  split self first_split reads = Fine (fns, fl) -> List.NoDup fns.
Proof.
  intros Hs. destruct (split_consistent _ _ _ _ _ Hs)
    as (st & (_ & _ & Hfns & _) & -> & _).
  rewrite Hfns. apply Finite.Injective_map_NoDup_in.
  - intros i j Hi%in_xrange Hj%in_xrange. apply name_of_inj; lia.
  - unfold xrange. apply Finite.Injective_map_NoDup; [|apply seq_NoDup].
    intros a b. apply Nat2Z.inj.
Qed.

End Splitter.

(** ** Worked examples *)

Import IceQuiverPostprocess Spec Demo.

(** A file that becomes visible between the two attempts is found; a
    directory is found at the first attempt; a path absent at both
    attempts is not found. *)
Example nfs_exists_late_file :
  Utils.run_nfs_exists
    (fun _ k => if (k =? 0)%nat
                then Utils.IOError Utils.ERROR_NO_SUCH_FILE_OR_DIRECTORY
                else Utils.Opened) "out/quivered/c0to9.quivered.fq"
  = (true, [Utils.Backticks "ls out/quivered/c0to9.quivered.fq";
            Utils.Open "out/quivered/c0to9.quivered.fq";
            Utils.Sleep 15;
            Utils.Open "out/quivered/c0to9.quivered.fq"]).
Proof. reflexivity. Qed.

Example nfs_exists_directory :
  Utils.run_nfs_exists (fun _ _ => Utils.IOError Utils.ERROR_IS_DIRECTORY)
                       "out/quivered"
  = (true, [Utils.Backticks "ls out/quivered"; Utils.Open "out/quivered"]).
Proof. reflexivity. Qed.

Example nfs_exists_absent :
  Utils.run_nfs_exists
    (fun _ _ => Utils.IOError Utils.ERROR_NO_SUCH_FILE_OR_DIRECTORY) "nowhere"
  = (false, [Utils.Backticks "ls nowhere"; Utils.Open "nowhere";
             Utils.Sleep 15; Utils.Open "nowhere"]).
Proof. reflexivity. Qed.

(** The identifiers of the source comments. *)
Example cluster_id_examples :
  cluster_id "c0/0_1611|quiver" = Ok 0
  /\ cluster_id "c12_ref" = Ok 12
  /\ cluster_id "c5" = Ok 5
  /\ cluster_id "5" = Raise Py.ValueError.
Proof. vm_compute. repeat split; reflexivity. Qed.

(** Scenario C: a record of 120 bases with [qv_trim_5 = 100] and
    [qv_trim_3 = 30] has no window and is LQ. *)
Example scenario_C :
  qv_len (self_with true 100 30) (read_of "c5/0_120|quiver" 120 30) = 0
  /\ (let* w := pickup_best_clusters (self_with true 100 30)
                  (library [("c0to9.quivered.fq", [read_of "c5/0_120|quiver" 120 30])]
                           [(5, ["m1"; "m2"; "m3"])])
                  ["c0to9.quivered.fq"] in
      Ok (hq_fa_ids w, lq_fa_ids w)) = Ok ([], [5]).
Proof. vm_compute. split; reflexivity. Qed.

(** The four clusters of [polished]: only [c0] is HQ. *)
Example polished_partition :
  pickup_best_clusters policy_2_1 polished polished_fqs = Ok polished_written
  /\ hq_fa_ids polished_written = [0]
  /\ lq_fa_ids polished_written = [3; 2; 1]
  /\ good_fa polished_written = [(0, ("c0/f2p0/6", "AAAAAA"))].
Proof. vm_compute. repeat split; reflexivity. Qed.

(** The HQ rule at the cluster [c0] of [polished]: six bases at Q30,
    three of them in the window, two full-length supporters. *)
Lemma hq_iff_accuracy_and_support_c0 :
  exists fl,
    final_pickle_uc polished !! 0 = Some fl
    /\ (In 0 (hq_fa_ids polished_written) <->
          (hq_quiver_min_accuracy policy_2_1 <= accuracy policy_2_1 c0)%Q
          /\ 2 <= Py.len fl)
    /\ (In 0 (hq_fq_ids polished_written) <-> In 0 (hq_fa_ids polished_written))
    /\ (Py.len fl = 1 -> ~ In 0 (hq_fa_ids polished_written)).
Proof.
  apply (hq_iff_accuracy_and_support policy_2_1 polished polished_fqs
           polished_written 0 c0); vm_compute; reflexivity.
Defined.

(** The cluster [c2] of [polished] has three bases, of which [2 + 1]
    are trimmed: it is LQ. *)
Lemma unassessable_window_is_lq_c2 :
  In 2 (lq_fa_ids polished_written) /\ In 2 (lq_fq_ids polished_written)
  /\ ~ In 2 (hq_fa_ids polished_written) /\ ~ In 2 (hq_fq_ids polished_written).
Proof.
  apply (unassessable_window_is_lq policy_2_1 polished polished_fqs
           polished_written 2 c2); vm_compute; first [reflexivity | discriminate].
Defined.

(** The cluster [c1] of [polished] is written once, to one pair. *)
Lemma every_cluster_in_exactly_one_pair_c1 :
  (times 1 (hq_fa_ids polished_written) = 1%nat
   /\ times 1 (hq_fq_ids polished_written) = 1%nat
   /\ times 1 (lq_fa_ids polished_written) = 0%nat
   /\ times 1 (lq_fq_ids polished_written) = 0%nat)
  \/ (times 1 (hq_fa_ids polished_written) = 0%nat
      /\ times 1 (hq_fq_ids polished_written) = 0%nat
      /\ times 1 (lq_fa_ids polished_written) = 1%nat
      /\ times 1 (lq_fq_ids polished_written) = 1%nat).
Proof.
  apply (every_cluster_in_exactly_one_pair policy_2_1 polished polished_fqs
           polished_written "c0to1.quivered.fq" c1 1); vm_compute; auto.
Defined.

(** C3, the claim refuted: the two files of [twice_c5] each hold a
    record of cluster 5, and [pickup_best_clusters] returns normally,
    with cluster 5 written once, to LQ. *)
Lemma duplicate_cluster_id_is_accepted :
  records twice_c5 twice_c5_fqs = [c5_q30; c5_q10]
  /\ cluster_id (name c5_q30) = Ok 5
  /\ cluster_id (name c5_q10) = Ok 5
  /\ exists w,
       pickup_best_clusters policy_2_1 twice_c5 twice_c5_fqs = Ok w
       /\ hq_fa_ids w = [] /\ lq_fa_ids w = [5].
Proof.
  split; [reflexivity|]. split; [reflexivity|]. split; [reflexivity|].
  eexists. vm_compute. repeat split; reflexivity.
Qed.

(** On [twice_c5] the call returns and cluster 5 is classified from
    the Q10 record, the last one read. *)
Lemma duplicate_cluster_ids_keep_last_record_c5 :
  exists w,
    pickup_best_clusters policy_2_1 twice_c5 twice_c5_fqs = Ok w
    /\ (In 5 (hq_fa_ids w) <->
          hq_test policy_2_1 (final_pickle_uc twice_c5) (5, c5_q10) = true)
    /\ (In 5 (lq_fa_ids w) <->
          hq_test policy_2_1 (final_pickle_uc twice_c5) (5, c5_q10) = false)
    /\ times 5 (hq_fa_ids w ++ lq_fa_ids w) = 1%nat.
Proof.
  apply (duplicate_cluster_ids_keep_last_record policy_2_1 twice_c5 twice_c5_fqs
           [] [] [] c5_q30 c5_q10 5).
  - intros r Hin. exists 5, ["m1"; "m2"]%string.
    vm_compute in Hin. destruct Hin as [<-|[<-|[]]]; vm_compute; auto.
  - reflexivity.
  - reflexivity.
  - reflexivity.
  - intros r' [].
Defined.

(** C8, the claim refuted: the two files of [twice_c5] read in one
    order put cluster 5 in LQ, read in the other order put it in HQ. *)
Lemma file_order_changes_the_partition :
  Permutation twice_c5_fqs (rev twice_c5_fqs)
  /\ exists w1 w2,
       pickup_best_clusters policy_2_1 twice_c5 twice_c5_fqs = Ok w1
       /\ pickup_best_clusters policy_2_1 twice_c5 (rev twice_c5_fqs) = Ok w2
       /\ hq_fa_ids w1 = [] /\ lq_fa_ids w1 = [5]
       /\ hq_fa_ids w2 = [5] /\ lq_fa_ids w2 = [].
Proof.
  split; [apply Permutation_rev|].
  do 2 eexists. vm_compute. repeat split; reflexivity.
Qed.

(** The two files of [polished], whose four cluster ids are distinct,
    give the same partition in either order. *)
Lemma partition_independent_of_file_order_polished :
  exists w2,
    pickup_best_clusters policy_2_1 polished (rev polished_fqs) = Ok w2
    /\ forall cid,
         (In cid (hq_fa_ids polished_written) <-> In cid (hq_fa_ids w2))
         /\ (In cid (hq_fq_ids polished_written) <-> In cid (hq_fq_ids w2))
         /\ (In cid (lq_fa_ids polished_written) <-> In cid (lq_fa_ids w2))
         /\ (In cid (lq_fq_ids polished_written) <-> In cid (lq_fq_ids w2)).
Proof.
  apply (partition_independent_of_file_order policy_2_1 polished
           polished_fqs (rev polished_fqs) polished_written).
  - apply Permutation_rev.
  - vm_compute. repeat constructor; cbn; intuition discriminate.
  - vm_compute. reflexivity.
Defined.

(** C7, the claim refuted: two runs in one root directory with
    different policies have the same LQ fasta name and the same LQ
    fastq name. *)
Lemma lq_names_collide :
  root_dir (self_with true 100 30) = root_dir policy_0_0
  /\ policy (self_with true 100 30) <> policy policy_0_0
  /\ quivered_bad_fa (self_with true 100 30) = quivered_bad_fa policy_0_0
  /\ quivered_bad_fq (self_with true 100 30) = quivered_bad_fq policy_0_0
  /\ quivered_bad_fa policy_0_0 = "out/all_quivered_lq.fasta"%string.
Proof. repeat split; try reflexivity. discriminate. Qed.

(** Two runs in [out] that differ in [use_sge] only. *)
Lemma hq_names_carry_the_policy_100_30 :
  (quivered_good_fa ratio_str (self_with true 100 30)
     = quivered_good_fa ratio_str (self_with false 100 30)
   \/ quivered_good_fq ratio_str (self_with true 100 30)
      = quivered_good_fq ratio_str (self_with false 100 30) ->
   qv_trim_5 (self_with true 100 30) = qv_trim_5 (self_with false 100 30)
   /\ qv_trim_3 (self_with true 100 30) = qv_trim_3 (self_with false 100 30)
   /\ ratio_str (hq_quiver_min_accuracy (self_with true 100 30))
      = ratio_str (hq_quiver_min_accuracy (self_with false 100 30)))
  /\ quivered_bad_fa (self_with true 100 30)
     = op.join (root_dir (self_with true 100 30)) "all_quivered_lq.fasta"
  /\ quivered_bad_fq (self_with true 100 30)
     = op.join (root_dir (self_with true 100 30)) "all_quivered_lq.fastq"
  /\ quivered_bad_fa (self_with true 100 30) = quivered_bad_fa (self_with false 100 30)
  /\ quivered_bad_fq (self_with true 100 30) = quivered_bad_fq (self_with false 100 30).
Proof.
  apply (hq_names_carry_the_policy ratio_str
           (self_with true 100 30) (self_with false 100 30)).
  reflexivity.
Defined.

(** The names of one run. *)
Example names_100_30 :
  quivered_good_fa ratio_str (self_with true 100 30)
    = "out/all_quivered_hq.100_30_99/100.fasta"%string
  /\ quivered_good_fq ratio_str (self_with true 100 30)
    = "out/all_quivered_hq.100_30_99/100.fastq"%string
  /\ quivered_bad_fa (self_with true 100 30) = "out/all_quivered_lq.fasta"%string
  /\ quivered_bad_fq (self_with true 100 30) = "out/all_quivered_lq.fastq"%string.
Proof. vm_compute. repeat split; reflexivity. Qed.

(** C6 (what the code does where the claim fails).  Scenario E: the
    only job was sent to the scheduler, is not listed by [qstat] and
    has no output.  The pass returns ["DONE"] and calls
    [locally_run_failed_quiver_jobs] not even once, whether a rerun
    would succeed or not.  With a ledger of one local job whose output
    is missing, the pass raises [UnboundLocalError]. *)
Theorem scenario_E_done_without_rerun :
  (forall rerun : list string -> list string,
     check_quiver_jobs_completion (self_with true 100 30) (scenario_E rerun)
     = Ok {| job_stats := DONE; fq_filenames := []; reruns := [] |})
  /\ check_quiver_jobs_completion (self_with false 100 30) local_only
     = Raise Py.UnboundLocalError.
Proof. split; [intros rerun|]; vm_compute; reflexivity. Qed.

(** The pass [rerun_pass] returns ["DONE"] through the local rerun of
    job 8842, while job 8843 is still running; only the output of job
    8841 is listed. *)
Example rerun_pass_is_done :
  check_quiver_jobs_completion policy_2_1 rerun_pass
  = Ok {| job_stats := DONE;
          fq_filenames := ["out/quivered/c0to9.quivered.fq"];
          reruns := [["out/quivered/c10to19.sh"]] |}
  /\ run policy_2_1 (fun _ => rerun_pass) 0 = Some (Ok (Classified rerun_written))
  /\ hq_fa_ids rerun_written = [0] /\ lq_fa_ids rerun_written = [1]
  /\ map name (FastqReader rerun_pass "out/quivered/c10to19.quivered.fq")
     = ["c5/0_6|quiver"]%string.
Proof. vm_compute. repeat split; reflexivity. Qed.

(** On [rerun_pass] the output of the rerun job 8842 is left out of
    the classification. *)
Lemma rerun_outputs_are_not_classified_8842 :
  exists (k : nat) c,
    check_quiver_jobs_completion policy_2_1 rerun_pass = Ok c
    /\ job_stats c = DONE
    /\ pickup_best_clusters policy_2_1 rerun_pass (fq_filenames c) = Ok rerun_written
    /\ forall bad, reruns c = [bad] ->
         (forall f, In f (fq_filenames c) -> no_output rerun_pass f = false)
         /\ (forall sh, In sh bad ->
               no_output rerun_pass (fq_of policy_2_1 sh) = true
               /\ ~ In (fq_of policy_2_1 sh) (fq_filenames c))
         /\ (forall sh r cid,
               In sh bad ->
               In r (FastqReader rerun_pass (fq_of policy_2_1 sh)) ->
               cluster_id (name r) = Ok cid ->
               (forall f r', In f (fq_filenames c) ->
                             In r' (FastqReader rerun_pass f) ->
                             cluster_id (name r') <> Ok cid) ->
               ~ In cid (hq_fa_ids rerun_written) /\ ~ In cid (hq_fq_ids rerun_written)
               /\ ~ In cid (lq_fa_ids rerun_written) /\ ~ In cid (lq_fq_ids rerun_written)).
Proof.
  destruct (rerun_outputs_are_not_classified policy_2_1 (fun _ => rerun_pass)
              0%nat rerun_written) as (k & c & Hc); [vm_compute; reflexivity|].
  exists k, c. exact Hc.
Defined.

(** Scenario D: two local jobs, both outputs present and non-empty. *)
Example scenario_D :
  check_quiver_jobs_completion (self_with false 100 30)
    (pass [ledger_line "local" "out/quivered/c0to9.sh";
           ledger_line "local" "out/quivered/c10to19.sh"] ""
          ["out/quivered/c0to9.quivered.fq"; "out/quivered/c10to19.quivered.fq"]
          (fun _ => []) [] [])
  = Ok {| job_stats := DONE;
          fq_filenames := ["out/quivered/c10to19.quivered.fq";
                           "out/quivered/c0to9.quivered.fq"];
          reruns := [] |}.
Proof. vm_compute. reflexivity. Qed.


(** C4 (what the code does where the claim fails): with
    [qv_trim_5 = 0] and [qv_trim_3 = 0], the record [c7] of two bases
    of Phred quality 10 (error probability 1/10 each) has the window
    length 2 and gets the accuracy [1], where one minus the mean error
    probability of its two bases is [9/10]; with two full-length
    supporters the cluster is written to the HQ outputs at
    [min_accuracy = 0.99]. *)
Theorem accuracy_with_qv_trim_3_zero :
  qv_len policy_0_0 c7 = 2
  /\ map Utils.phred_to_qv (quality c7) = [1 # 10; 1 # 10]%Q
  /\ err_sum policy_0_0 c7 = 0%Q
  /\ (accuracy policy_0_0 c7 == 1)%Q
  /\ (accuracy_spec policy_0_0 c7 == 9 # 10)%Q
  /\ hq_fa_ids (written_by (pickup_best_clusters policy_0_0 untrimmed
                               ["c0to9.quivered.fq"])) = [7].
Proof. vm_compute. repeat split; reflexivity. Qed.

(** ** Worked examples of the further properties *)

Import DemoA SpecMore UtilsRest CigarSpec DemoF.

(** The second line of [broken_ledger] has a blank where the tab
    should be. *)
Lemma malformed_ledger_line_raises_broken_ledger :
  check_quiver_jobs_completion policy_2_1 broken_ledger = Raise Py.ValueError.
Proof.
  apply (malformed_ledger_line_raises policy_2_1 broken_ledger
           "8842 out/quivered/c10to19.sh").
  - right. left. reflexivity.
  - vm_compute. discriminate.
Defined.

(** The pass [failing_pass] reruns one script, which stays without
    output. *)
Lemma job_stats_and_reruns_failing_pass :
  exists c,
    check_quiver_jobs_completion policy_2_1 failing_pass = Ok c
    /\ (length (reruns c) <= 1)%nat
    /\ (forall bad, In bad (reruns c) -> bad <> [])
    /\ (job_stats c = RUNNING -> reruns c = [])
    /\ (job_stats c = FAILED ->
          exists bad, reruns c = [bad]
                      /\ locally_run_failed_quiver_jobs failing_pass bad <> [])
    /\ (forall bad, reruns c = [bad] ->
          (job_stats c = DONE <-> locally_run_failed_quiver_jobs failing_pass bad = [])).
Proof.
  eexists. split; [vm_compute; reflexivity|].
  apply (job_stats_and_reruns policy_2_1 failing_pass). vm_compute. reflexivity.
Defined.

(** With [quit_if_not_done], [three_passes] ends with code 0 after the
    second pass. *)
Lemma run_return_codes_quitting :
  (0 = -1 /\ use_sge quitting = false
   /\ exists c0, check_quiver_jobs_completion quitting (three_passes 0%nat) = Ok c0
                 /\ job_stats c0 <> DONE)
  \/ (use_sge quitting = true
      /\ exists (k : nat) c,
           (1 <= k)%nat /\ check_quiver_jobs_completion quitting (three_passes k) = Ok c
           /\ ((0 = 1 /\ job_stats c = FAILED)
               \/ (0 = 0 /\ job_stats c = RUNNING
                   /\ quit_if_not_done quitting = true))).
Proof.
  apply (run_return_codes quitting three_passes 1%nat 0). vm_compute. reflexivity.
Defined.

Lemma run_with_quit_makes_two_passes_quitting :
  exists r, forall fuel, (1 <= fuel)%nat -> run quitting three_passes fuel = Some r.
Proof.
  apply (run_with_quit_makes_two_passes quitting three_passes). reflexivity.
Defined.

(** On [three_passes] the run waits through one more pass and then
    classifies the files of the third one. *)
Lemma run_waits_until_done_three_passes :
  exists c,
    check_quiver_jobs_completion policy_2_1 (three_passes 2%nat) = Ok c
    /\ run policy_2_1 three_passes 2%nat
       = Some (let* w := pickup_best_clusters policy_2_1 (three_passes 2%nat)
                           (fq_filenames c) in
               Ok (Classified w)).
Proof.
  destruct (check_quiver_jobs_completion policy_2_1 (three_passes 0%nat))
    as [c0|] eqn:H0; [|vm_compute in H0; discriminate].
  destruct (check_quiver_jobs_completion policy_2_1 (three_passes 2%nat))
    as [c|] eqn:H2; [|vm_compute in H2; discriminate].
  exists c. split; [reflexivity|].
  apply (run_waits_until_done policy_2_1 three_passes 2%nat 2%nat c0 c).
  - reflexivity.
  - reflexivity.
  - exact H0.
  - vm_compute in H0. inversion H0; subst. discriminate.
  - lia.
  - intros j Hj. assert (j = 1%nat) as -> by lia. eexists. split; vm_compute; reflexivity.
  - exact H2.
  - vm_compute in H2. inversion H2; subst. reflexivity.
  - lia.
Defined.

(** The records written for [polished]. *)
Lemma written_records_are_the_kept_records_polished :
  map fasta_of (good_fq polished_written) = good_fa polished_written
  /\ map fasta_of (bad_fq polished_written) = bad_fa polished_written
  /\ forall cid nm seq qual,
       In (cid, (nm, seq, qual)) (good_fq polished_written ++ bad_fq polished_written) ->
       exists r fl,
         last_read cid (records polished polished_fqs) = Some r
         /\ final_pickle_uc polished !! cid = Some fl
         /\ nm = cid_with_annotation
                   (newname_of cid (Py.len fl)
                      (Py.len (default [] (nfl_all_pickle_partial_uc polished !! cid)))
                      (Z.of_nat (String.length seq)))
         /\ seq = sequence r /\ qual = quality r.
Proof.
  apply (written_records_are_the_kept_records policy_2_1 polished polished_fqs).
  vm_compute. reflexivity.
Defined.

(** Cluster 1 of [unknown_cluster] has no entry in [uc]. *)
Lemma missing_uc_key_raises_unknown_cluster :
  pickup_best_clusters policy_2_1 unknown_cluster ["c0to1.quivered.fq"]
  = Raise Py.KeyError.
Proof.
  apply (missing_uc_key_raises policy_2_1 unknown_cluster ["c0to1.quivered.fq"] c1 1).
  - intros r' Hin. vm_compute in Hin.
    destruct Hin as [<-|[<-|[]]]; eexists; vm_compute; reflexivity.
  - right. left. reflexivity.
  - reflexivity.
  - reflexivity.
Defined.

(** The name of [cX] does not resolve. *)
Lemma unresolved_name_aborts_misnamed :
  exists ex', pickup_best_clusters policy_2_1 misnamed ["c0to1.quivered.fq"] = Raise ex'.
Proof.
  apply (unresolved_name_aborts policy_2_1 misnamed ["c0to1.quivered.fq"] cX
           Py.ValueError).
  - right. left. reflexivity.
  - reflexivity.
Defined.

(** [polished] classified again with the threshold 0.5. *)
Lemma lower_threshold_keeps_hq_polished :
  exists w2,
    pickup_best_clusters (with_min_accuracy policy_2_1 (1 # 2)) polished polished_fqs
    = Ok w2
    /\ (forall cid, In cid (hq_fa_ids polished_written) -> In cid (hq_fa_ids w2))
    /\ (forall cid, In cid (lq_fa_ids w2) -> In cid (lq_fa_ids polished_written)).
Proof.
  apply (lower_threshold_keeps_hq policy_2_1 polished polished_fqs polished_written
           (1 # 2)).
  - vm_compute. discriminate.
  - vm_compute. reflexivity.
Defined.

Lemma cluster_id_ignores_annotation_quiver :
  cluster_id ("c12/0_100" +:+ "|" +:+ "quiver") = cluster_id "c12/0_100".
Proof.
  apply (cluster_id_ignores_annotation "c12/0_100" "quiver").
  cbn. intuition discriminate.
Defined.


Lemma cluster_id_with_ref_c7 :
  cluster_id (String "c" ("7" +:+ "_ref")) = py_int "7".
Proof.
  apply (cluster_id_with_ref "c" "7"); cbn; intuition discriminate.
Defined.

Lemma revcmp_involutive_ACGTn :
  exists t, revcmp "ACGTn" = Ok t /\ revcmp t = Ok "ACGTn"
            /\ String.length t = String.length "ACGTn".
Proof.
  apply (revcmp_involutive "ACGTn").
  intros x Hx. cbn in Hx.
  repeat (destruct Hx as [<-|Hx]; [discriminate|]). destruct Hx.
Defined.

Lemma cigar_round_trip_10M2I3S :
  exists c, parse (render ops_10M2I3S) = Some (Ok c)
    /\ cigar_str c = render ops_10M2I3S
    /\ num_match c = total "M" ops_10M2I3S
    /\ num_mismatch c = total "X" ops_10M2I3S
    /\ num_insert c = total "I" ops_10M2I3S
    /\ num_deletion c = total "D" ops_10M2I3S
    /\ num_hardclip c = total "H" ops_10M2I3S
    /\ num_softclip c = total "S" ops_10M2I3S
    /\ num_padding c = total "P" ops_10M2I3S
    /\ num_unknown c = total "N" ops_10M2I3S.
Proof.
  apply (cigar_round_trip ops_10M2I3S).
  intros num a Hin. cbn in Hin.
  repeat (destruct Hin as [Hin|Hin];
          [inversion Hin; subst; split; [lia|reflexivity]|]).
  destruct Hin.
Defined.

(** ["10M2I3S5"] *)
Lemma cigar_trailing_number_5 :
  parse (render ops_10M2I3S +:+ "5") = Some (Raise Py.IndexError).
Proof.
  apply (cigar_trailing_number ops_10M2I3S "5").
  - intros num a Hin. cbn in Hin.
    repeat (destruct Hin as [Hin|Hin];
            [inversion Hin; subst; split; [lia|reflexivity]|]).
    destruct Hin.
  - discriminate.
  - intros x Hx. cbn in Hx. destruct Hx as [<-|[]]. reflexivity.
Defined.

(** ["10M2I3SM"] *)
Lemma cigar_missing_count_M :
  parse (render ops_10M2I3S +:+ String "M" "") = Some (Raise Py.ValueError).
Proof.
  apply (cigar_missing_count ops_10M2I3S "M" "").
  - intros num a Hin. cbn in Hin.
    repeat (destruct Hin as [Hin|Hin];
            [inversion Hin; subst; split; [lia|reflexivity]|]).
    destruct Hin.
  - reflexivity.
  - discriminate.
Defined.

(** ["10M2I3S4Z"] *)
Lemma cigar_unknown_letter_Z :
  parse (render ops_10M2I3S +:+ Py.str 4 +:+ String "Z" "") = Some (Raise Py.ValueError).
Proof.
  apply (cigar_unknown_letter ops_10M2I3S 4 "Z" "").
  - intros num a Hin. cbn in Hin.
    repeat (destruct Hin as [Hin|Hin];
            [inversion Hin; subst; split; [lia|reflexivity]|]).
    destruct Hin.
  - lia.
  - reflexivity.
  - reflexivity.
Defined.

(** ["10M2I3S"] matches a sequence of 15 bases. *)
Lemma match_seq_counts_10M2I3S :
  exists c, parse (render ops_10M2I3S) = Some (Ok c)
    /\ match_seq c "ACGTACGTACGTACG"
       = (total "M" ops_10M2I3S + total "I" ops_10M2I3S + total "S" ops_10M2I3S
          =? Z.of_nat (String.length "ACGTACGTACGTACG")).
Proof.
  apply (match_seq_counts ops_10M2I3S "ACGTACGTACGTACG").
  intros num a Hin. cbn in Hin.
  repeat (destruct Hin as [Hin|Hin];
          [inversion Hin; subst; split; [lia|reflexivity]|]).
  destruct Hin.
Defined.

(** Five records, two per file, the first file taking three. *)
Lemma split_by_file_index_3 :
  FastqSplitter.split by_two (Some 3) five
  = let index := SplitSpec.file_index 3 (FastqSplitter.reads_per_split by_two) in
    if 999 <? SplitSpec.last_index index five then Throw (Builtin Py.ValueError)
    else Fine (map fst (SplitSpec.files by_two index five),
               SplitSpec.files by_two index five).
Proof. apply (split_by_file_index by_two 3 five). cbn. lia. Defined.

Lemma split_default_by_two :
  FastqSplitter.split by_two None five
  = let index := fun ridx => ridx / FastqSplitter.reads_per_split by_two in
    if 1000 * FastqSplitter.reads_per_split by_two <? Py.len five
    then Throw (Builtin Py.ValueError)
    else Fine (map fst (SplitSpec.files by_two index five),
               SplitSpec.files by_two index five).
Proof. apply (split_default by_two five). cbn. lia. Defined.

Lemma split_keeps_every_read_by_two :
  exists fns fl,
    FastqSplitter.split by_two None five = Fine (fns, fl)
    /\ map fst fl = fns
    /\ concat (map snd fl) = five
    /\ fns = map (FastqSplitter.name_of by_two) (xrange (Py.len fns))
    /\ 1 <= Py.len fns <= 1000
    /\ (five <> [] -> Forall (fun c => snd c <> []) fl).
Proof.
  eexists. eexists. split; [vm_compute; reflexivity|].
  apply (split_keeps_every_read by_two None five). vm_compute. reflexivity.
Defined.

(** [reads_per_split = 0] with the default [first_split]. *)
Lemma split_single_file_by_zero :
  FastqSplitter.split by_zero None five
  = Fine ([FastqSplitter.name_of by_zero 0], [(FastqSplitter.name_of by_zero 0, five)]).
Proof. apply (split_single_file by_zero None five). left. cbn. lia. Defined.

(** [reads_per_split = 0] with [first_split = 1]. *)
Lemma split_zero_division_by_zero :
  FastqSplitter.split by_zero (Some 1) five = Throw ZeroDivisionError.
Proof.
  apply (split_zero_division by_zero 1 five);
    [reflexivity|lia|vm_compute; discriminate].
Defined.

Lemma split_names_distinct_by_two :
  exists fns fl,
    FastqSplitter.split by_two None five = Fine (fns, fl) /\ List.NoDup fns.
Proof.
  eexists. eexists. split; [vm_compute; reflexivity|].
  eapply (split_names_distinct by_two None five). vm_compute. reflexivity.
Defined.
